(** * Codespace agent: path sandbox, bearer gate, file API and terminal bridge

    A shallow embedding of the three JavaScript sources of the repository:

    - [.codespace-agent/codespace-agent.js]: the express application with
      [assertAuth], [safePath], the [/api/...] handlers and the websocket
      terminal ([Module Agent]);
    - the [ProjectManager] class ([Module ProjectManager]);
    - the express application built on [ProjectManager]
      ([Module Server]).

    Node's library functions the sources call ([path.resolve], [path.join],
    [JSON.parse], [fs.promises], [child_process]) are modelled in
    [Module NodePath], [Module Json], [Module Fs] and [Module ChildProcess]. *)

From Stdlib Require Import ZArith Ascii String List Bool Lia.
From stdpp Require Import base option strings gmap.

Import ListNotations.
Set Warnings "-register-all".
Local Open Scope string_scope.
Local Open Scope list_scope.

(** ** JavaScript values *)

(** The values that [JSON.parse], [req.body] and [req.query] can hold, plus
    [undefined].  A number is kept as the decimal [(-1)^neg * mant * 10^exp10]
    its literal denotes. *)
Inductive jsval : Type :=
| JUndefined
| JNull
| JBool (b : bool)
| JNum (neg : bool) (mant : N) (exp10 : Z)
| JStr (s : string)
| JArr (items : list jsval)
| JObj (props : list (string * jsval)).

Definition jnat (n : nat) : jsval := JNum false (N.of_nat n) 0.

(** A decimal literal denotes the double [0] (or [-0]) when its mantissa is
    zero or when it is at most [2^-1075], half the least subnormal, which
    rounds to zero. *)
Definition num_is_zero (mant : N) (exp10 : Z) : bool :=
  (mant =? 0)%N
  || ((exp10 <? 0)%Z && (Z.of_N mant * 2 ^ 1075 <=? 10 ^ (- exp10))%Z).

(** [ToBoolean]: what [!v] and [v || d] test. *)
Definition truthy (v : jsval) : bool :=
  match v with
  | JUndefined | JNull => false
  | JBool b => b
  | JNum _ m e => negb (num_is_zero m e)
  | JStr s => negb (String.eqb s EmptyString)
  | JArr _ | JObj _ => true
  end.

(** [a || b] *)
Definition js_or (a b : jsval) : jsval := if truthy a then a else b.

(** Own-property lookup [o.k]; in an object literal or a parsed JSON text a
    later duplicate key overwrites an earlier one. *)
Fixpoint lookup_prop (k : string) (props : list (string * jsval)) : jsval :=
  match props with
  | [] => JUndefined
  | (k', v) :: rest =>
      match lookup_prop k rest with
      | JUndefined => if String.eqb k k' then v else JUndefined
      | later => later
      end
  end.

Definition get_prop (o : jsval) (k : string) : jsval :=
  match o with
  | JObj props => lookup_prop k props
  | _ => JUndefined
  end.

(** [v === s] for a string constant [s] *)
Definition strict_eq_str (v : jsval) (s : string) : bool :=
  match v with
  | JStr t => String.eqb t s
  | _ => false
  end.

(** [s.startsWith(t)] *)
Definition startsWith (s t : string) : bool := String.prefix t s.

(** The double-quote character, for JSON texts. *)
Definition dq : string := String "034"%char EmptyString.

(** ** Node's POSIX [path] module *)
Module NodePath.

Definition is_sep (c : ascii) : bool := Ascii.eqb c "/"%char.

(** The segments between the slashes of a path. *)
Fixpoint split (s : string) : list string :=
  match s with
  | EmptyString => [EmptyString]
  | String c rest =>
      if is_sep c then EmptyString :: split rest
      else match split rest with
           | [] => [String c EmptyString]
           | seg :: segs => String c seg :: segs
           end
  end.

(** [normalizeString]: [res] is the stack of kept segments, last first.
    Empty and [.] segments are dropped; [..] pops a segment that is not
    itself [..], and is kept only when [allowAboveRoot]. *)
Fixpoint normalizeSegs (allowAboveRoot : bool) (res segs : list string)
  : list string :=
  match segs with
  | [] => rev res
  | seg :: rest =>
      if String.eqb seg EmptyString || String.eqb seg "." then
        normalizeSegs allowAboveRoot res rest
      else if String.eqb seg ".." then
        match res with
        | top :: res' =>
            if String.eqb top ".." then
              normalizeSegs allowAboveRoot
                (if allowAboveRoot then ".." :: res else res) rest
            else normalizeSegs allowAboveRoot res' rest
        | [] =>
            normalizeSegs allowAboveRoot
              (if allowAboveRoot then [".."] else []) rest
        end
      else normalizeSegs allowAboveRoot (seg :: res) rest
  end.

Definition normalizeString (path : string) (allowAboveRoot : bool) : string :=
  String.concat "/" (normalizeSegs allowAboveRoot [] (split path)).

Definition isAbsolute (p : string) : bool := startsWith p "/".

Definition endsWithSep (p : string) : bool :=
  match rev (list_ascii_of_string p) with
  | c :: _ => is_sep c
  | [] => false
  end.

(** The loop of [path.resolve]: arguments from right to left, then the
    process working directory, until an absolute one is met. *)
Fixpoint resolve_loop (paths : list string) (resolvedPath : string)
  : string * bool :=
  match paths with
  | [] => (resolvedPath, false)
  | p :: rest =>
      if String.eqb p EmptyString then resolve_loop rest resolvedPath
      else
        let rp := p +:+ "/" +:+ resolvedPath in
        if isAbsolute p then (rp, true) else resolve_loop rest rp
  end.

(** [path.resolve(...args)] in a process whose working directory is [cwd]. *)
Definition resolve (cwd : string) (args : list string) : string :=
  let '(rp, resolvedAbsolute) := resolve_loop (rev args ++ [cwd]) EmptyString in
  let n := normalizeString rp (negb resolvedAbsolute) in
  if resolvedAbsolute then "/" +:+ n
  else if String.eqb n EmptyString then "." else n.

(** [path.normalize(path)] *)
Definition normalize (path : string) : string :=
  if String.eqb path EmptyString then "."
  else
    let abs := isAbsolute path in
    let trailing := endsWithSep path in
    let n := normalizeString path (negb abs) in
    if String.eqb n EmptyString then
      (if abs then "/" else if trailing then "./" else ".")
    else
      let n' := if trailing then n +:+ "/" else n in
      if abs then "/" +:+ n' else n'.

(** [path.join(...args)] *)
Definition join (args : list string) : string :=
  match filter (fun a => negb (String.eqb a EmptyString) = true) args with
  | [] => "."
  | parts => normalize (String.concat "/" parts)
  end.

(** [path.dirname(path)]: scan from the last character down to index 1,
    skip trailing slashes, skip the last segment, cut at the slash before
    it. *)
Fixpoint drop_seps (l : list ascii) : list ascii :=
  match l with
  | c :: l' => if is_sep c then drop_seps l' else l
  | [] => []
  end.

Fixpoint drop_nonseps (l : list ascii) : list ascii :=
  match l with
  | c :: l' => if is_sep c then l else drop_nonseps l'
  | [] => []
  end.

Definition dirname (path : string) : string :=
  match list_ascii_of_string path with
  | [] => "."
  | c0 :: tail =>
      let hasRoot := is_sep c0 in
      match drop_nonseps (drop_seps (rev tail)) with
      | [] => if hasRoot then "/" else "."
      | _slash :: before =>
          if hasRoot && Nat.eqb (length before) 0 then "//"
          else string_of_list_ascii (c0 :: rev before)
      end
  end.

(** [path.basename(path)]: the last segment, trailing slashes apart. *)
Definition basename (path : string) : string :=
  List.last (List.filter (fun s => negb (String.eqb s EmptyString)) (split path))
            EmptyString.

(** [path.relative(from, to)]: both are resolved; the segments they share
    from the root are dropped, what is left of [from] becomes [..]. *)
Fixpoint drop_common (f t : list string) : list string * list string :=
  match f, t with
  | a :: f', b :: t' => if String.eqb a b then drop_common f' t' else (f, t)
  | _, _ => (f, t)
  end.

Definition relative (cwd : string) (from to : string) : string :=
  let segs p := normalizeSegs false [] (split (resolve cwd [p])) in
  let '(f, t) := drop_common (segs from) (segs to) in
  String.concat "/" (map (fun _ => "..") f ++ t).

(** A segment that normalisation keeps as it is: no separator inside, not
    empty, not [.] and not [..]. *)
Fixpoint has_sep (s : string) : bool :=
  match s with
  | EmptyString => false
  | String c r => is_sep c || has_sep r
  end.

Definition clean_segment (s : string) : bool :=
  negb (has_sep s) && negb (String.eqb s EmptyString)
  && negb (String.eqb s ".") && negb (String.eqb s "..").

(** An absolute path in normal form: the root followed by clean segments. *)
Definition canonical (p : string) : Prop :=
  exists segs, p = "/" +:+ String.concat "/" segs
               /\ Forall (fun s => clean_segment s = true) segs.

End NodePath.


(** ** [JSON.parse] *)
Module Json.

Inductive result (A : Type) : Type :=
| OutOfFuel
| SyntaxError
| Parsed (v : A) (rest : list ascii).
Arguments OutOfFuel {A}.
Arguments SyntaxError {A}.
Arguments Parsed {A} v rest.

Definition is_ws (c : ascii) : bool :=
  Ascii.eqb c " "%char || Ascii.eqb c "009"%char
  || Ascii.eqb c "010"%char || Ascii.eqb c "013"%char.

Fixpoint skip_ws (l : list ascii) : list ascii :=
  match l with
  | c :: l' => if is_ws c then skip_ws l' else l
  | [] => []
  end.

Definition digit_val (c : ascii) : option N :=
  let n := N_of_ascii c in
  if (48 <=? n)%N && (n <=? 57)%N then Some (n - 48)%N else None.

Definition hex_val (c : ascii) : option N :=
  let n := N_of_ascii c in
  if (48 <=? n)%N && (n <=? 57)%N then Some (n - 48)%N
  else if (65 <=? n)%N && (n <=? 70)%N then Some (n - 55)%N
  else if (97 <=? n)%N && (n <=? 102)%N then Some (n - 87)%N
  else None.

Definition hex4 (a b c d : ascii) : option N :=
  match hex_val a, hex_val b, hex_val c, hex_val d with
  | Some x, Some y, Some z, Some w => Some (((x * 16 + y) * 16 + z) * 16 + w)%N
  | _, _, _, _ => None
  end.

Definition byte (n : N) : ascii := ascii_of_N (n mod 256).

(** The bytes of a code point in (generalised) UTF-8, the encoding of the
    frame's text. *)
Definition utf8 (cp : N) : list ascii :=
  if (cp <? 128)%N then [byte cp]
  else if (cp <? 2048)%N then
    [byte (192 + cp / 64); byte (128 + cp mod 64)]
  else if (cp <? 65536)%N then
    [byte (224 + cp / 4096); byte (128 + (cp / 64) mod 64);
     byte (128 + cp mod 64)]
  else
    [byte (240 + cp / 262144); byte (128 + (cp / 4096) mod 64);
     byte (128 + (cp / 64) mod 64); byte (128 + cp mod 64)].

Definition is_high_surrogate (u : N) : bool := (55296 <=? u)%N && (u <=? 56319)%N.
Definition is_low_surrogate (u : N) : bool := (56320 <=? u)%N && (u <=? 57343)%N.

(** [l] without its first character, when that is [c]. *)
Definition strip (c : ascii) (l : list ascii) : option (list ascii) :=
  match l with
  | x :: r => if Ascii.eqb x c then Some r else None
  | [] => None
  end.

(** [l] without the word [w] it starts with. *)
Fixpoint strip_word (w : list ascii) (l : list ascii) : option (list ascii) :=
  match w with
  | [] => Some l
  | c :: w' =>
      match strip c l with
      | Some r => strip_word w' r
      | None => None
      end
  end.

(** The character an escape letter stands for. *)
Definition simple_escape (e : ascii) : option ascii :=
  if Ascii.eqb e "034" then Some "034"%char
  else if Ascii.eqb e "\" then Some "\"%char
  else if Ascii.eqb e "/" then Some "/"%char
  else if Ascii.eqb e "b" then Some "008"%char
  else if Ascii.eqb e "f" then Some "012"%char
  else if Ascii.eqb e "n" then Some "010"%char
  else if Ascii.eqb e "r" then Some "013"%char
  else if Ascii.eqb e "t" then Some "009"%char
  else None.

(** The low surrogate that [\uXXXX] escapes spell, if they spell one. *)
Definition low_surrogate (bs u a b c d : ascii) : option N :=
  if Ascii.eqb bs "\" && Ascii.eqb u "u" then
    match hex4 a b c d with
    | Some u' => if is_low_surrogate u' then Some u' else None
    | None => None
    end
  else None.

Definition continue (bytes : list ascii) (r : result (list ascii))
  : result (list ascii) :=
  match r with
  | Parsed s rest => Parsed (bytes ++ s) rest
  | other => other
  end.

(** The characters of a string literal after its opening quote, up to the
    closing quote. *)
Fixpoint parse_string_body (l : list ascii) : result (list ascii) :=
  match l with
  | [] => SyntaxError
  | c :: rest =>
      if Ascii.eqb c "034" then Parsed [] rest
      else if Ascii.eqb c "\" then
        match rest with
        | [] => SyntaxError
        | e :: rest0 =>
            if Ascii.eqb e "u" then
              match rest0 with
              | a :: b :: c :: d :: rest1 =>
                  match hex4 a b c d with
                  | None => SyntaxError
                  | Some u =>
                      match rest1 with
                      | bs :: u' :: a' :: b' :: c' :: d' :: rest2 =>
                          match (if is_high_surrogate u
                                 then low_surrogate bs u' a' b' c' d'
                                 else None) with
                          | Some low =>
                              continue
                                (utf8 (65536 + (u - 55296) * 1024 + (low - 56320)))
                                (parse_string_body rest2)
                          | None => continue (utf8 u) (parse_string_body rest1)
                          end
                      | _ => continue (utf8 u) (parse_string_body rest1)
                      end
                  end
              | _ => SyntaxError
              end
            else
              match simple_escape e with
              | Some ch => continue [ch] (parse_string_body rest0)
              | None => SyntaxError
              end
        end
      else if (N_of_ascii c <? 32)%N then SyntaxError
      else continue [c] (parse_string_body rest)
  end.

(** A maximal run of decimal digits, as a number and a count. *)
Fixpoint parse_digits (acc : N) (count : nat) (l : list ascii)
  : N * nat * list ascii :=
  match l with
  | c :: rest =>
      match digit_val c with
      | Some d => parse_digits (acc * 10 + d) (S count) rest
      | None => (acc, count, l)
      end
  | [] => (acc, count, [])
  end.

(** A run of at least one digit. *)
Definition parse_digits1 (acc : N) (l : list ascii) : option (N * nat * list ascii) :=
  match parse_digits acc 0 l with
  | (_, O, _) => None
  | (n, S k, r) => Some (n, S k, r)
  end.

(** The exponent of a number literal: [e] or [E], an optional sign, digits. *)
Definition parse_exponent (l : list ascii) : option (option (Z * list ascii)) :=
  let after_e :=
    match strip "e" l with
    | Some r => Some r
    | None => strip "E" l
    end in
  match after_e with
  | None => Some None
  | Some r =>
      let '(sign, r') :=
        match strip "+" r with
        | Some r' => (1%Z, r')
        | None =>
            match strip "-" r with
            | Some r' => ((-1)%Z, r')
            | None => (1%Z, r)
            end
        end in
      match parse_digits1 0 r' with
      | Some (e, _, r'') => Some (Some ((sign * Z.of_N e)%Z, r''))
      | None => None
      end
  end.

(** A number literal: an optional minus, an integer part without a
    leading zero, an optional fraction and an optional exponent. *)
Definition parse_number (l : list ascii) : result jsval :=
  let '(neg, l1) :=
    match strip "-" l with
    | Some r => (true, r)
    | None => (false, l)
    end in
  let int_part :=
    match strip "0" l1 with
    | Some r => Some (0%N, O, r)
    | None => parse_digits1 0 l1
    end in
  match int_part with
  | None => SyntaxError
  | Some (n, _, l2) =>
      let frac_part :=
        match strip "." l2 with
        | Some r => parse_digits1 n r
        | None => Some (n, O, l2)
        end in
      match frac_part with
      | None => SyntaxError
      | Some (m, k, l3) =>
          match parse_exponent l3 with
          | None => SyntaxError
          | Some None => Parsed (JNum neg m (- Z.of_nat k)) l3
          | Some (Some (e, r)) => Parsed (JNum neg m (e - Z.of_nat k)) r
          end
      end
  end.

Definition word (s : string) : list ascii := list_ascii_of_string s.

(** The literals [true], [false] and [null], or else a number. *)
Definition parse_literal (l : list ascii) : result jsval :=
  match strip_word (word "true") l with
  | Some r => Parsed (JBool true) r
  | None =>
      match strip_word (word "false") l with
      | Some r => Parsed (JBool false) r
      | None =>
          match strip_word (word "null") l with
          | Some r => Parsed JNull r
          | None => parse_number l
          end
      end
  end.

Definition map_result {A B} (f : A -> B) (r : result A) : result B :=
  match r with
  | Parsed v rest => Parsed (f v) rest
  | OutOfFuel => OutOfFuel
  | SyntaxError => SyntaxError
  end.

(** The recursive descent over values, object members and array elements.
    Two units of fuel for each character of the text are enough
    (lemma [parse_value_fuel]). *)
Fixpoint parse_value (fuel : nat) (l : list ascii) : result jsval :=
  match fuel with
  | O => OutOfFuel
  | S fuel' =>
      match skip_ws l with
      | [] => SyntaxError
      | c :: r =>
          if Ascii.eqb c "{" then
            match strip "}" (skip_ws r) with
            | Some r' => Parsed (JObj []) r'
            | None => map_result JObj (parse_members fuel' r)
            end
          else if Ascii.eqb c "[" then
            match strip "]" (skip_ws r) with
            | Some r' => Parsed (JArr []) r'
            | None => map_result JArr (parse_elements fuel' r)
            end
          else if Ascii.eqb c "034" then
            map_result (fun s => JStr (string_of_list_ascii s)) (parse_string_body r)
          else parse_literal (c :: r)
      end
  end
with parse_members (fuel : nat) (l : list ascii)
  : result (list (string * jsval)) :=
  match fuel with
  | O => OutOfFuel
  | S fuel' =>
      match strip "034" (skip_ws l) with
      | None => SyntaxError
      | Some r =>
          match parse_string_body r with
          | Parsed k r1 =>
              match strip ":" (skip_ws r1) with
              | None => SyntaxError
              | Some r2 =>
                  match parse_value fuel' r2 with
                  | Parsed v r3 =>
                      match skip_ws r3 with
                      | [] => SyntaxError
                      | c :: r4 =>
                          if Ascii.eqb c "," then
                            map_result (cons (string_of_list_ascii k, v))
                              (parse_members fuel' r4)
                          else if Ascii.eqb c "}" then
                            Parsed [(string_of_list_ascii k, v)] r4
                          else SyntaxError
                      end
                  | OutOfFuel => OutOfFuel
                  | SyntaxError => SyntaxError
                  end
              end
          | OutOfFuel => OutOfFuel
          | SyntaxError => SyntaxError
          end
      end
  end
with parse_elements (fuel : nat) (l : list ascii) : result (list jsval) :=
  match fuel with
  | O => OutOfFuel
  | S fuel' =>
      match parse_value fuel' l with
      | Parsed v r1 =>
          match skip_ws r1 with
          | [] => SyntaxError
          | c :: r2 =>
              if Ascii.eqb c "," then
                map_result (cons v) (parse_elements fuel' r2)
              else if Ascii.eqb c "]" then Parsed [v] r2
              else SyntaxError
          end
      | OutOfFuel => OutOfFuel
      | SyntaxError => SyntaxError
      end
  end.

(** [JSON.parse(text)]: [None] stands for the [SyntaxError] it throws. *)
Definition parse (text : string) : option jsval :=
  let l := list_ascii_of_string text in
  match parse_value (2 * S (length l)) l with
  | Parsed v rest =>
      match skip_ws rest with
      | [] => Some v
      | _ => None
      end
  | _ => None
  end.

End Json.


(** ** [fs.promises] over a table of absolute paths *)
Module Fs.

Inductive node : Type :=
| File (content : string)
| Dir.

(** A JavaScript [Error]: [code] is empty for a plain [new Error(message)]. *)
Record error : Type := Error { code : string; message : string }.

(** What was asked of the filesystem, with the path as the caller gave it. *)
Inductive call : Type :=
| FsAccess (p : string)
| FsStat (p : string)
| FsReadFile (p : string)
| FsWriteFile (p : string) (content : string)
| FsMkdir (p : string) (recursive : bool)
| FsRm (p : string) (recursive force : bool)
| FsUnlink (p : string)
| FsReaddir (p : string).

(** The files and directories by normalised absolute path, the working
    directory of the process, and the calls made so far. *)
Record world : Type := World {
  files : gmap string node;
  cwd : string;
  calls : list call
}.

(** A computation that may throw: the [await]ed promises of the sources. *)
Definition M (A : Type) : Type := world -> (error + A) * world.

Definition ret {A} (a : A) : M A := fun w => (inr a, w).
Definition throw {A} (e : error) : M A := fun w => (inl e, w).
Definition bind {A B} (m : M A) (k : A -> M B) : M B :=
  fun w => match m w with
           | (inr a, w') => k a w'
           | (inl e, w') => (inl e, w')
           end.
(** [try { m } catch (e) { h e }] *)
Definition try_catch {A} (m : M A) (h : error -> M A) : M A :=
  fun w => match m w with
           | (inr a, w') => (inr a, w')
           | (inl e, w') => h e w'
           end.

(** The entry of the table a path names: its resolution against the working
    directory of the process.  Links are not part of the model, and a
    trailing slash is dropped by the resolution: the table does not tell a
    path with a trailing slash from the one without, where the filesystem
    refuses the first for a file. *)
Definition key (w : world) (p : string) : string := NodePath.resolve (cwd w) [p].

Definition record (c : call) (w : world) : world :=
  {| files := files w; cwd := cwd w; calls := calls w ++ [c] |}.

Definition set_files (fs : gmap string node) (w : world) : world :=
  {| files := fs; cwd := cwd w; calls := calls w |}.

Definition enoent : error := Error "ENOENT" "ENOENT: no such file or directory".
Definition eisdir : error := Error "EISDIR" "EISDIR: illegal operation on a directory".
Definition enotdir : error := Error "ENOTDIR" "ENOTDIR: not a directory".
Definition eexist : error := Error "EEXIST" "EEXIST: file already exists".
Definition err_fs_eisdir : error := Error "ERR_FS_EISDIR" "Path is a directory".

(** The parent of a normalised absolute path. *)
Definition parent (k : string) : string := NodePath.dirname k.

(** [k] lies strictly below the directory [d]. *)
Definition below (d k : string) : bool :=
  startsWith k (if String.eqb d "/" then "/" else d +:+ "/") && negb (String.eqb k d).

Definition remove_tree (d : string) (fs : gmap string node) : gmap string node :=
  filter (fun kv => negb (String.eqb (fst kv) d || below d (fst kv)) = true) fs.

(** [fs.access], [fs.stat] and [fs.readFile]: a path the table does not
    have fails with [ENOENT]; the [ENOTDIR] of a path that runs through a
    file is not told apart from it. *)
Definition access (p : string) : M unit := fun w =>
  let w := record (FsAccess p) w in
  match files w !! key w p with
  | Some _ => (inr tt, w)
  | None => (inl enoent, w)
  end.

Definition stat (p : string) : M node := fun w =>
  let w := record (FsStat p) w in
  match files w !! key w p with
  | Some n => (inr n, w)
  | None => (inl enoent, w)
  end.

Definition readFile (p : string) : M string := fun w =>
  let w := record (FsReadFile p) w in
  match files w !! key w p with
  | Some (File c) => (inr c, w)
  | Some Dir => (inl eisdir, w)
  | None => (inl enoent, w)
  end.

(** [fs.writeFile(p, content)]: creates the file when it is absent, in a
    directory that exists. *)
Definition writeFile (p : string) (content : string) : M unit := fun w =>
  let w := record (FsWriteFile p content) w in
  let k := key w p in
  match files w !! k with
  | Some Dir => (inl eisdir, w)
  | _ =>
      match files w !! parent k with
      | Some Dir => (inr tt, set_files (<[k := File content]> (files w)) w)
      | Some (File _) => (inl enotdir, w)
      | None => (inl enoent, w)
      end
  end.

(** The ancestors of a normalised absolute path, the root first, the path
    itself last. *)
Definition ancestors (k : string) : list string :=
  let segs := NodePath.normalizeSegs false [] (NodePath.split k) in
  "/" :: map (fun n => "/" +:+ String.concat "/" (firstn n segs))
             (seq 1 (length segs)).

Definition is_file (fs : gmap string node) (k : string) : bool :=
  match fs !! k with
  | Some (File _) => true
  | _ => false
  end.

Definition mkdir (p : string) (recursive : bool) : M unit := fun w =>
  let w := record (FsMkdir p recursive) w in
  let k := key w p in
  if recursive then
    if is_file (files w) k then (inl eexist, w)
    else if existsb (is_file (files w)) (ancestors k) then (inl enotdir, w)
    else (inr tt,
          set_files (fold_right (fun a fs => <[a := Dir]> fs) (files w) (ancestors k)) w)
  else
    match files w !! k with
    | Some _ => (inl eexist, w)
    | None =>
        match files w !! parent k with
        | Some Dir => (inr tt, set_files (<[k := Dir]> (files w)) w)
        | Some (File _) => (inl enotdir, w)
        | None => (inl enoent, w)
        end
    end.

(** [fs.rm(p, {recursive, force})]: a directory is removed, with all below
    it, only when [recursive]; [force] silences a missing path. *)
Definition rm (p : string) (recursive force : bool) : M unit := fun w =>
  let w := record (FsRm p recursive force) w in
  let k := key w p in
  match files w !! k with
  | None => if force then (inr tt, w) else (inl enoent, w)
  | Some Dir =>
      if recursive then (inr tt, set_files (remove_tree k (files w)) w)
      else (inl err_fs_eisdir, w)
  | Some (File _) => (inr tt, set_files (delete k (files w)) w)
  end.

Definition unlink (p : string) : M unit := fun w =>
  let w := record (FsUnlink p) w in
  let k := key w p in
  match files w !! k with
  | None => (inl enoent, w)
  | Some Dir => (inl eisdir, w)
  | Some (File _) => (inr tt, set_files (delete k (files w)) w)
  end.

(** The name of [k] inside the directory [d], when [k] is an entry of [d]. *)
Definition entry_name (d k : string) : option string :=
  let pre := if String.eqb d "/" then "/" else d +:+ "/" in
  if startsWith k pre then
    let name := String.substring (String.length pre)
                  (String.length k - String.length pre) k in
    match NodePath.split name with
    | [n] => if String.eqb n EmptyString then None else Some n
    | _ => None
    end
  else None.

(** [fs.readdir(p, {withFileTypes: true})]: the entries come in the order
    of the table; the order in which a directory is read is not fixed by
    the filesystem, and nothing proved below depends on it. *)
Definition readdir (p : string) : M (list (string * node)) := fun w =>
  let w := record (FsReaddir p) w in
  let k := key w p in
  match files w !! k with
  | None => (inl enoent, w)
  | Some (File _) => (inl enotdir, w)
  | Some Dir =>
      (inr (omap (fun kv => match entry_name k (fst kv) with
                            | Some n => Some (n, snd kv)
                            | None => None
                            end)
                 (map_to_list (files w))), w)
  end.

Definition call_path (c : call) : string :=
  match c with
  | FsAccess p | FsStat p | FsReadFile p | FsWriteFile p _
  | FsMkdir p _ | FsRm p _ _ | FsUnlink p | FsReaddir p => p
  end.

(** Whatever the world, [m] asks the filesystem about the path [r] only. *)
Definition only_touches {A} (r : string) (m : M A) : Prop :=
  forall w, exists cs,
    calls (snd (m w)) = calls w ++ cs /\ Forall (fun c => call_path c = r) cs.

(** [m] leaves the table of files and the working directory as they are. *)
Definition read_only {A} (m : M A) : Prop :=
  forall w, files (snd (m w)) = files w /\ cwd (snd (m w)) = cwd w.

(** [m] leaves the working directory as it is. *)
Definition keeps_cwd {A} (m : M A) : Prop :=
  forall w, cwd (snd (m w)) = cwd w.

(** A directory is non-empty when some path of the table lies below it. *)
Definition non_empty_dir (fs : gmap string node) (d : string) : Prop :=
  fs !! d = Some Dir /\ exists k n, fs !! k = Some n /\ below d k = true.

End Fs.

Notation "x <- c1 ;; c2" := (Fs.bind c1 (fun x => c2))
  (at level 100, c1 at next level, right associativity).
Notation "c1 ;;; c2" := (Fs.bind c1 (fun _ => c2))
  (at level 100, right associativity).


(** ** HTTP requests and responses (express) *)

Record request : Type := Request {
  method : string;
  url : string;
  (** [req.headers.authorization], [None] when the header is absent *)
  authorization : option string;
  (** [req.query] and [req.body], as the parsers of express leave them *)
  query : jsval;
  body : jsval
}.

(** [res.status(status).json(body)] *)
Record response : Type := Response { status : nat; body_of : jsval }.

Definition json (b : jsval) : response := Response 200 b.

Definition type_error (msg : string) : Fs.error := Fs.Error "ERR_INVALID_ARG_TYPE" msg.

(** [const {...} = v] throws on [undefined] and [null]. *)
Definition destructure (v : jsval) : Fs.M jsval :=
  match v with
  | JUndefined | JNull =>
      Fs.throw (Fs.Error EmptyString "Cannot destructure property of undefined or null")
  | _ => Fs.ret v
  end.

(** A string of ASCII characters.  On such a string [toLowerCase] below is
    [String.prototype.toLowerCase] and [trim] is [String.prototype.trim];
    outside ASCII JavaScript applies the Unicode case mapping and strips
    the Unicode white space, which are not part of the model: the
    properties that depend on either are stated for ASCII strings. *)
Definition is_ascii_string (s : string) : bool :=
  forallb (fun c => (N_of_ascii c <? 128)%N) (list_ascii_of_string s).

(** [s] has one of the letters [A] to [Z]. *)
Definition has_capital (s : string) : bool :=
  existsb (fun c => let n := N_of_ascii c in (65 <=? n)%N && (n <=? 90)%N)
          (list_ascii_of_string s).

(** [toLowerCase] on ASCII: [A] to [Z] become [a] to [z], every other
    character is left as it is. *)
Definition lower_char (c : ascii) : ascii :=
  let n := N_of_ascii c in
  if (65 <=? n)%N && (n <=? 90)%N then ascii_of_N (n + 32) else c.

Fixpoint toLowerCase (s : string) : string :=
  match s with
  | EmptyString => EmptyString
  | String c r => String (lower_char c) (toLowerCase r)
  end.

(** [s.endsWith(t)] *)
Definition endsWith (s t : string) : bool :=
  String.prefix (string_of_list_ascii (rev (list_ascii_of_string t)))
                (string_of_list_ascii (rev (list_ascii_of_string s))).

(** [hay.includes(needle)] *)
Definition includes (hay needle : string) : bool :=
  match String.index 0 needle hay with
  | Some _ => true
  | None => false
  end.

(** ** [.codespace-agent/codespace-agent.js] *)
Module Agent.

(** The constants read once at startup. *)
Record config : Type := Config {
  WORKDIR : string;
  AGENT_TOKEN : string;
  ALLOWED_EXTENSIONS : option (list string)
}.

Definition MAX_FILE_SIZE : N := 10 * 1024 * 1024.

(** [determineWorkdir()], given [process.env.WORKDIR]. *)
Definition determineWorkdir (env_WORKDIR : option string) : Fs.M string := fun w =>
  let from_cwd :=
    let cwd := Fs.cwd w in
    if endsWith cwd ".codespace-agent"
       || String.eqb (NodePath.basename cwd) ".codespace-agent"
    then Fs.ret (NodePath.dirname cwd) w
    else
      let codespaceDir := NodePath.join [cwd; ".codespace-agent"] in
      Fs.try_catch (Fs.access codespaceDir ;;; Fs.ret cwd) (fun _ => Fs.ret cwd) w in
  match env_WORKDIR with
  | Some d => if String.eqb d EmptyString then from_cwd else Fs.ret d w
  | None => from_cwd
  end.

Section WithConfig.
Variable cfg : config.

Definition unauthorized : response :=
  Response 401 (JObj [("error", JStr "Unauthorized")]).

(** [assertAuth(req, res)]: [Some r] when it has sent the response [r] and
    returns [false], [None] when it returns [true]. *)
Definition assertAuth (req : request) : option response :=
  match authorization req with
  | None => Some unauthorized
  | Some auth =>
      if String.eqb auth EmptyString
         || negb (String.eqb auth ("Bearer " +:+ AGENT_TOKEN cfg))
      then Some unauthorized
      else None
  end.

(** [safePath(p)], in a process whose working directory is [cwd]. *)
Definition safePath (cwd : string) (p : jsval) : Fs.error + string :=
  if negb (truthy p) then inl (Fs.Error EmptyString "Path is required")
  else
    match p with
    | JStr s =>
        let resolved := NodePath.resolve cwd [WORKDIR cfg; s] in
        if negb (startsWith resolved (WORKDIR cfg)) then
          inl (Fs.Error EmptyString "Invalid path: outside working directory")
        else inr resolved
    | _ => inl (type_error "The paths[1] argument must be of type string")
    end.

Definition safePathM (p : jsval) : Fs.M string :=
  fun w => (safePath (Fs.cwd w) p, w).

Definition fileExists (filePath : string) : Fs.M bool :=
  Fs.try_catch (Fs.access filePath ;;; Fs.ret true) (fun _ => Fs.ret false).

(** The fields of [getFileStats] that depend on the table of files; the
    timestamps and the mode are not part of the model. *)
Record stats : Type := Stats { size : N; isDirectory : bool; isFile : bool }.

Definition dir_size : N := 4096.

Definition stats_of (n : Fs.node) : stats :=
  match n with
  | Fs.File c => Stats (N.of_nat (String.length c)) false true
  | Fs.Dir => Stats dir_size true false
  end.

Definition getFileStats (filePath : string) : Fs.M (option stats) :=
  Fs.try_catch (n <- Fs.stat filePath ;; Fs.ret (Some (stats_of n)))
               (fun _ => Fs.ret None).

Definition stats_json (s : option stats) : jsval :=
  match s with
  | None => JNull
  | Some s => JObj [("size", JNum false (size s) 0);
                    ("isDirectory", JBool (isDirectory s));
                    ("isFile", JBool (isFile s))]
  end.

(** [stats.f] throws when [stats] is [null]. *)
Definition stats_field {A} (s : option stats) (f : stats -> A) : Fs.M A :=
  match s with
  | Some s => Fs.ret (f s)
  | None => Fs.throw (Fs.Error EmptyString "Cannot read properties of null")
  end.

(** [path.extname(p)]: from the last dot of the last segment, unless
    that dot starts the segment or the segment is [..]. *)
Fixpoint split_last_dot (after : list ascii) (l : list ascii)
  : option (list ascii * list ascii) :=
  (* [l] is the segment reversed; [after] collects what follows the dot *)
  match l with
  | [] => None
  | c :: l' =>
      if Ascii.eqb c "."%char then Some (rev l', after)
      else split_last_dot (c :: after) l'
  end.

Definition extname (p : string) : string :=
  let r := NodePath.drop_seps (rev (list_ascii_of_string p)) in
  let seg_rev := firstn (length r - length (NodePath.drop_nonseps r)) r in
  match split_last_dot [] seg_rev with
  | None => EmptyString
  | Some (before, after) =>
      match before with
      | [] => EmptyString
      | c :: rest =>
          if Ascii.eqb c "."%char && Nat.eqb (length after) 0
             && Nat.eqb (length rest) 0
          then EmptyString
          else string_of_list_ascii ("."%char :: after)
      end
  end.

Definition in_list (x : string) (l : list string) : bool :=
  existsb (String.eqb x) l.

Definition isAllowedExtension (filePath : string) : bool :=
  match ALLOWED_EXTENSIONS cfg with
  | None => true
  | Some allowed =>
      let ext := toLowerCase (extname filePath) in
      in_list ext allowed
      || in_list (String.substring 1 (String.length ext - 1) ext) allowed
  end.

(** [ALLOWED_EXTENSIONS] in a response *)
Definition allowed_json : jsval :=
  match ALLOWED_EXTENSIONS cfg with
  | None => JNull
  | Some allowed => JArr (map JStr allowed)
  end.

(** [try { body } catch (e) { res.status(400).json({error: e.message}) }] *)
Definition guarded (body : Fs.M response) : Fs.world -> response * Fs.world :=
  fun w =>
    match body w with
    | (inr r, w') => (r, w')
    | (inl e, w') => (Response 400 (JObj [("error", JStr (Fs.message e))]), w')
    end.

Definition error_response (st : nat) (msg : string) : response :=
  Response st (JObj [("error", JStr msg)]).

(** [fs.writeFile(filePath, content, "utf8")] for a value of the request:
    a string is written; for every other value the call is taken to throw
    the [TypeError] before anything is written (the buffers and iterables
    that [fs.writeFile] also accepts do not arise from a JSON body, except
    arrays, which it starts to write before it fails). *)
Definition writeFile_value (filePath : string) (content : jsval) : Fs.M unit :=
  match content with
  | JStr c => Fs.writeFile filePath c
  | _ => Fs.throw (type_error "The data argument must be of type string")
  end.

Definition is_undefined (v : jsval) : bool :=
  match v with
  | JUndefined => true
  | _ => false
  end.

(** [app.get("/health")]; the uptime, the platform and the version of
    node, which the response also reports, are left out. *)
Definition get_health (req : request) (w : Fs.world) : response * Fs.world :=
  (json (JObj [("status", JStr "ok"); ("workdir", JStr (WORKDIR cfg))]), w).

(** [app.get("/api/files")] *)
Definition get_files (req : request) (w : Fs.world) : response * Fs.world :=
  match assertAuth req with
  | Some sent => (sent, w)
  | None => guarded (
    filePath <- safePathM (get_prop (query req) "path") ;;
    ex <- fileExists filePath ;;
    if negb ex then Fs.ret (error_response 404 "File not found")
    else
      st <- getFileStats filePath ;;
      isDir <- stats_field st isDirectory ;;
      if isDir then Fs.ret (error_response 400 "Path is a directory, not a file")
      else
        sz <- stats_field st size ;;
        if (MAX_FILE_SIZE <? sz)%N then
          Fs.ret (Response 413 (JObj [("error", JStr "File too large (max 10MB)");
                                      ("size", JNum false sz 0)]))
        else
          content <- Fs.readFile filePath ;;
          Fs.ret (json (JObj [("path", get_prop (query req) "path");
                              ("content", JStr content);
                              ("stats", stats_json st)]))) w
  end.

(** [app.post("/api/files")] *)
Definition post_files (req : request) (w : Fs.world) : response * Fs.world :=
  match assertAuth req with
  | Some sent => (sent, w)
  | None => guarded (
    b <- destructure (body req) ;;
    let file := get_prop b "path" in
    let content := get_prop b "content" in
    let createDirs :=
      if is_undefined (get_prop b "createDirs") then JBool true
      else get_prop b "createDirs" in
    if negb (truthy file) || is_undefined content then
      Fs.ret (error_response 400 "Path and content are required")
    else
      filePath <- safePathM file ;;
      if negb (isAllowedExtension filePath) then
        Fs.ret (Response 403 (JObj [("error", JStr "File extension not allowed");
                                    ("allowed", allowed_json)]))
      else
        (if truthy createDirs then Fs.mkdir (NodePath.dirname filePath) true
         else Fs.ret tt) ;;;
        writeFile_value filePath content ;;;
        st <- getFileStats filePath ;;
        Fs.ret (json (JObj [("success", JBool true); ("path", file);
                            ("stats", stats_json st)]))) w
  end.

(** [app.put("/api/files")] *)
Definition put_files (req : request) (w : Fs.world) : response * Fs.world :=
  match assertAuth req with
  | Some sent => (sent, w)
  | None => guarded (
    b <- destructure (body req) ;;
    let file := get_prop b "path" in
    let content := get_prop b "content" in
    if negb (truthy file) || is_undefined content then
      Fs.ret (error_response 400 "Path and content are required")
    else
      filePath <- safePathM file ;;
      ex <- fileExists filePath ;;
      if negb ex then Fs.ret (error_response 404 "File not found")
      else
        writeFile_value filePath content ;;;
        st <- getFileStats filePath ;;
        Fs.ret (json (JObj [("success", JBool true); ("path", file);
                            ("stats", stats_json st)]))) w
  end.

(** [app.delete("/api/files")] *)
Definition delete_files (req : request) (w : Fs.world) : response * Fs.world :=
  match assertAuth req with
  | Some sent => (sent, w)
  | None => guarded (
    filePath <- safePathM (get_prop (query req) "path") ;;
    ex <- fileExists filePath ;;
    if negb ex then Fs.ret (error_response 404 "File not found")
    else
      st <- getFileStats filePath ;;
      isDir <- stats_field st isDirectory ;;
      (if isDir then
         Fs.rm filePath (strict_eq_str (get_prop (query req) "recursive") "true") true
       else Fs.unlink filePath) ;;;
      Fs.ret (json (JObj [("success", JBool true);
                          ("path", get_prop (query req) "path");
                          ("deleted", JBool true)]))) w
  end.

Fixpoint mapM {A B} (f : A -> Fs.M B) (l : list A) : Fs.M (list B) :=
  match l with
  | [] => Fs.ret []
  | a :: l' => b <- f a ;; bs <- mapM f l' ;; Fs.ret (b :: bs)
  end.

Definition entry_type (n : Fs.node) (dir file : string) : jsval :=
  match n with
  | Fs.Dir => JStr dir
  | Fs.File _ => JStr file
  end.

(** [app.get("/api/ls")]; of the details of an entry the size is kept, the
    modification time is left out. *)
Definition get_ls (req : request) (w : Fs.world) : response * Fs.world :=
  match assertAuth req with
  | Some sent => (sent, w)
  | None => guarded (
    let p := js_or (get_prop (query req) "path") (JStr ".") in
    dirPath <- safePathM p ;;
    ex <- fileExists dirPath ;;
    if negb ex then Fs.ret (error_response 404 "Directory not found")
    else
      st <- getFileStats dirPath ;;
      isDir <- stats_field st isDirectory ;;
      if negb isDir then Fs.ret (error_response 400 "Path is not a directory")
      else
        entries <- Fs.readdir dirPath ;;
        let detailed := strict_eq_str (get_prop (query req) "detailed") "true" in
        items <- mapM (fun entry : string * Fs.node =>
                   let entryPath := NodePath.join [dirPath; fst entry] in
                   let item := [("name", JStr (fst entry));
                                ("type", entry_type (snd entry) "dir" "file")] in
                   if detailed then
                     entryStats <- getFileStats entryPath ;;
                     match entryStats with
                     | Some es => Fs.ret (JObj (item ++ [("size", JNum false (size es) 0)]))
                     | None => Fs.ret (JObj item)
                     end
                   else Fs.ret (JObj item)) entries ;;
        Fs.ret (json (JObj [("path", p); ("entries", JArr items)]))) w
  end.

(** [fs.mkdir(dirPath, { recursive })] for a value of the request. *)
Definition mkdir_value (dirPath : string) (recursive : jsval) : Fs.M unit :=
  match recursive with
  | JBool b => Fs.mkdir dirPath b
  | _ => Fs.throw (type_error "The options.recursive property must be of type boolean")
  end.

(** [app.post("/api/mkdir")] *)
Definition post_mkdir (req : request) (w : Fs.world) : response * Fs.world :=
  match assertAuth req with
  | Some sent => (sent, w)
  | None => guarded (
    b <- destructure (body req) ;;
    let dir := get_prop b "path" in
    let recursive :=
      if is_undefined (get_prop b "recursive") then JBool true
      else get_prop b "recursive" in
    if negb (truthy dir) then Fs.ret (error_response 400 "Path is required")
    else
      dirPath <- safePathM dir ;;
      mkdir_value dirPath recursive ;;;
      Fs.ret (json (JObj [("success", JBool true); ("path", dir)]))) w
  end.

(** [app.get("/api/stat")] *)
Definition get_stat (req : request) (w : Fs.world) : response * Fs.world :=
  match assertAuth req with
  | Some sent => (sent, w)
  | None => guarded (
    filePath <- safePathM (get_prop (query req) "path") ;;
    ex <- fileExists filePath ;;
    if negb ex then Fs.ret (error_response 404 "Path not found")
    else
      st <- getFileStats filePath ;;
      Fs.ret (json (JObj [("path", get_prop (query req) "path");
                          ("stats", stats_json st)]))) w
  end.

(** [searchRecursive(dir, maxDepth, currentDepth)] with
    [levels = maxDepth + 1 - currentDepth]; [results] is the array the
    closure pushes to.  Its [try]/[catch] swallows a failing [readdir]
    and the [TypeError] of [query.toLowerCase()] on a query that is not
    a string. *)
Fixpoint searchRecursive (levels : nat) (q : jsval) (dir : string)
    (results : list jsval) (w : Fs.world) : list jsval * Fs.world :=
  match levels with
  | O => (results, w)
  | S levels' =>
      match Fs.readdir dir w with
      | (inl _, w') => (results, w')
      | (inr entries, w') =>
          match q with
          | JStr qs =>
              (fix loop (entries : list (string * Fs.node))
                   (results : list jsval) (w : Fs.world) :=
                 match entries with
                 | [] => (results, w)
                 | (name, n) :: rest =>
                     let entryPath := NodePath.join [dir; name] in
                     let results1 :=
                       if includes (toLowerCase name) (toLowerCase qs) then
                         results ++
                           [JObj [("name", JStr name);
                                  ("path", JStr (NodePath.relative (Fs.cwd w)
                                                   (WORKDIR cfg) entryPath));
                                  ("type", entry_type n "dir" "file")]]
                       else results in
                     let '(results2, w2) :=
                       match n with
                       | Fs.Dir =>
                           if negb (startsWith name ".") then
                             searchRecursive levels' q entryPath results1 w
                           else (results1, w)
                       | Fs.File _ => (results1, w)
                       end in
                     loop rest results2 w2
                 end) entries results w'
          | _ => (results, w')
          end
      end
  end.

(** [app.get("/api/search")] *)
Definition get_search (req : request) (w : Fs.world) : response * Fs.world :=
  match assertAuth req with
  | Some sent => (sent, w)
  | None => guarded (
    qv <- destructure (query req) ;;
    let q := get_prop qv "query" in
    let searchPath :=
      if is_undefined (get_prop qv "path") then JStr "."
      else get_prop qv "path" in
    if negb (truthy q) then Fs.ret (error_response 400 "Query is required")
    else
      dirPath <- safePathM searchPath ;;
      results <- (fun w => let '(r, w') := searchRecursive 6 q dirPath [] w in
                           (inr r, w')) ;;
      Fs.ret (json (JObj [("query", q); ("results", JArr results);
                          ("count", jnat (length results))]))) w
  end.

(** The table of routes registered on the application, looked up by the
    exact method and path; a request that matches none gets the [404] of
    express.  What express puts in front of the table and around it is not
    part of it: the [cors] middleware, which answers [OPTIONS], the body
    parser, which refuses a malformed body, and the matching of [HEAD], of
    the letter case and of a trailing slash. *)
Definition routes : list (string * string * (request -> Fs.world -> response * Fs.world)) :=
  [("GET", "/health", get_health);
   ("GET", "/api/files", get_files);
   ("POST", "/api/files", post_files);
   ("PUT", "/api/files", put_files);
   ("DELETE", "/api/files", delete_files);
   ("GET", "/api/ls", get_ls);
   ("POST", "/api/mkdir", post_mkdir);
   ("GET", "/api/stat", get_stat);
   ("GET", "/api/search", get_search)].

Definition app (req : request) (w : Fs.world) : response * Fs.world :=
  match find (fun r => String.eqb (fst (fst r)) (method req)
                       && String.eqb (snd (fst r)) (url req)) routes with
  | Some (_, _, handler) => handler req w
  | None => (Response 404 JUndefined, w)
  end.

(** *** The terminal over websocket *)

(** What [ws.send] is given: raw terminal output, or
    [JSON.stringify] of a message. *)
Inductive frame : Type :=
| Raw (data : string)
| JsonFrame (v : jsval).

(** The calls a handler makes on the raw socket of an upgrade request,
    on a websocket, and on a pseudo-terminal. *)
Inductive effect : Type :=
| SocketWrite (data : string)
| SocketDestroy
| HandleUpgrade
| PtySpawn (file cwd : string) (cols rows : nat)
| WsSend (ws : nat) (f : frame)
| WsClose (ws : nat)
| ShellWrite (shell : nat) (data : string)
| ShellResize (shell : nat) (cols rows : jsval)
| ShellKill (shell : nat).

(** What the closures of one [wss.on("connection")] call capture. *)
Record session : Type := Session {
  sessionId : string;
  shell : nat;
  ws : nat
}.

(** [wss.on("connection")]: [s] carries the id drawn with [Math.random],
    the pseudo-terminal [pty.spawn] returned and the websocket. *)
Definition on_connection (platform : string) (s : session)
    (activeSessions : gmap string nat) : gmap string nat * list effect :=
  (<[sessionId s := shell s]> activeSessions,
   [PtySpawn (if String.eqb platform "win32" then "powershell.exe" else "bash")
             (WORKDIR cfg) 80 30;
    WsSend (ws s) (JsonFrame (JObj [("type", JStr "connected");
                                    ("sessionId", JStr (sessionId s));
                                    ("cwd", JStr (WORKDIR cfg));
                                    ("platform", JStr platform)]))]).

(** [shell.onData] *)
Definition on_data (s : session) (ws_open : bool) (data : string) : list effect :=
  if ws_open then [WsSend (ws s) (Raw data)] else [].

(** [shell.onExit] *)
Definition on_exit (s : session) (ws_open : bool) (exitCode signal : jsval)
    (activeSessions : gmap string nat) : gmap string nat * list effect :=
  (delete (sessionId s) activeSessions,
   if ws_open then
     [WsSend (ws s) (JsonFrame (JObj [("type", JStr "exit");
                                      ("exitCode", exitCode);
                                      ("signal", signal)]));
      WsClose (ws s)]
   else []).

Definition pong : frame := JsonFrame (JObj [("type", JStr "pong")]).

(** [ws.on("message")]: the [catch] turns the [SyntaxError] of
    [JSON.parse] into a log line. *)
Definition on_message (s : session) (text : string) : list effect :=
  if startsWith text "{" then
    match Json.parse text with
    | None => []
    | Some json =>
        if strict_eq_str (get_prop json "type") "resize" then
          [ShellResize (shell s)
             (js_or (get_prop json "cols") (jnat 80))
             (js_or (get_prop json "rows") (jnat 30))]
        else if strict_eq_str (get_prop json "type") "ping" then
          [WsSend (ws s) pong]
        else []
    end
  else [ShellWrite (shell s) text].

(** [ws.on("close")]: [shell.kill()] is called, whether it throws or
    not the entry is deleted. *)
Definition on_close (s : session) (activeSessions : gmap string nat)
  : gmap string nat * list effect :=
  (delete (sessionId s) activeSessions, [ShellKill (shell s)]).

Definition crlf : string := String "013"%char (String "010"%char EmptyString).

(** The request of [server.on("upgrade")]. *)
Record upgrade_request : Type := UpgradeRequest {
  up_authorization : option string;
  up_url : string
}.

(** [auth !== `Bearer ${AGENT_TOKEN}`] *)
Definition upgrade_auth_fails (req : upgrade_request) : bool :=
  match up_authorization req with
  | None => true
  | Some auth => negb (String.eqb auth ("Bearer " +:+ AGENT_TOKEN cfg))
  end.

(** [server.on("upgrade")]; on the terminal path the handshake is
    completed and the connection handler runs with [s]. *)
Definition on_upgrade (platform : string) (req : upgrade_request) (s : session)
    (activeSessions : gmap string nat) : gmap string nat * list effect :=
  if upgrade_auth_fails req then
    (activeSessions,
     [SocketWrite ("HTTP/1.1 401 Unauthorized" +:+ crlf +:+ crlf); SocketDestroy])
  else if String.eqb (up_url req) "/ws/terminal" then
    let '(sessions, effects) := on_connection platform s activeSessions in
    (sessions, HandleUpgrade :: effects)
  else
    (activeSessions,
     [SocketWrite ("HTTP/1.1 404 Not Found" +:+ crlf +:+ crlf); SocketDestroy]).

(** The events of the terminal server and the handler each one runs. *)
Inductive event : Type :=
| EvUpgrade (platform : string) (req : upgrade_request) (s : session)
| EvData (s : session) (ws_open : bool) (data : string)
| EvExit (s : session) (ws_open : bool) (exitCode signal : jsval)
| EvMessage (s : session) (text : string)
| EvClose (s : session).

Definition step (ev : event) (activeSessions : gmap string nat)
  : gmap string nat * list effect :=
  match ev with
  | EvUpgrade platform req s => on_upgrade platform req s activeSessions
  | EvData s ws_open data => (activeSessions, on_data s ws_open data)
  | EvExit s ws_open exitCode signal => on_exit s ws_open exitCode signal activeSessions
  | EvMessage s text => (activeSessions, on_message s text)
  | EvClose s => on_close s activeSessions
  end.

Fixpoint run (evs : list event) (activeSessions : gmap string nat)
  : gmap string nat * list effect :=
  match evs with
  | [] => (activeSessions, [])
  | ev :: evs' =>
      let '(sessions1, effects1) := step ev activeSessions in
      let '(sessions2, effects2) := run evs' sessions1 in
      (sessions2, effects1 ++ effects2)
  end.

(** [ev] is an upgrade that registers a session under [id]. *)
Definition opens (id : string) (ev : event) : Prop :=
  match ev with
  | EvUpgrade _ _ s => sessionId s = id
  | _ => False
  end.


Definition is_shell_write (e : effect) : bool :=
  match e with
  | ShellWrite _ _ => true
  | _ => false
  end.

(** What only the connection handler does. *)
Definition creates_session (e : effect) : bool :=
  match e with
  | HandleUpgrade | PtySpawn _ _ _ _ => true
  | _ => false
  end.

(** The [SIGTERM] handler asks every registered pseudo-terminal to stop. *)
Definition on_sigterm (activeSessions : gmap string nat) : list effect :=
  map (fun kv => ShellKill (snd kv)) (map_to_list activeSessions).

End WithConfig.
End Agent.

(** ** [child_process] *)
Module ChildProcess.

(** How a command behaves when nothing stops it: whether it can be started
    at all, after how many milliseconds it ends ([None]: never), with which
    exit code, and what it writes. *)
Record behaviour : Type := Behaviour {
  spawn_error : option string;
  duration : option Z;
  exit_code : Z;
  out : string;
  err : string
}.

(** The options object given to [exec] and [spawn]: for each key, whether
    it is present, and if so its value or [undefined]. *)
Record options : Type := Options {
  opt_cwd : option (option string);
  opt_timeout : option (option Z)
}.

(** [{ ...defaults, ...overrides }] for one key. *)
Definition spread {A} (default : option A) (override : option (option A))
  : option A :=
  match override with
  | Some v => v
  | None => default
  end.

Inductive outcome : Type :=
| SpawnFailed (msg : string)
| Exited (at_ms : Z) (code : Z)
| Killed (at_ms : Z)
| NeverEnds.

(** A child started with the [timeout] option is sent the kill signal when
    it is still running after that many milliseconds; without the option
    (or with [0]) it is left alone.  The child is taken to end when it is
    sent the signal: one that ignores [SIGTERM] and the limit [maxBuffer]
    on its output are not part of the model. *)
Definition run (timeout : option Z) (b : behaviour) : outcome :=
  match spawn_error b with
  | Some msg => SpawnFailed msg
  | None =>
      match timeout, duration b with
      | Some t, Some d =>
          if (0 <? t)%Z && (t <? d)%Z then Killed t else Exited d (exit_code b)
      | Some t, None => if (0 <? t)%Z then Killed t else NeverEnds
      | None, Some d => Exited d (exit_code b)
      | None, None => NeverEnds
      end
  end.

Definition was_killed (o : outcome) : bool :=
  match o with
  | Killed _ => true
  | _ => false
  end.

(** The error [util.promisify(exec)] rejects with. *)
Record exec_error : Type := ExecError {
  e_code : jsval;
  e_killed : bool;
  e_stdout : string;
  e_stderr : string;
  e_message : string
}.

(** [await execPromise(command, options)]: [None] while the promise never
    settles.  The message of the error is the line [Command failed: ...];
    the line break and the error output that Node appends to it are left
    out. *)
Definition exec (command : string) (timeout : option Z) (b : behaviour)
  : option (exec_error + string * string) :=
  let failed := "Command failed: " +:+ command in
  match run timeout b with
  | SpawnFailed msg => Some (inl (ExecError (JStr "ENOENT") false EmptyString EmptyString msg))
  | Exited _ code =>
      if (code =? 0)%Z then Some (inr (out b, err b))
      else Some (inl (ExecError (JNum (code <? 0)%Z (Z.abs_N code) 0) false
                        (out b) (err b) failed))
  | Killed _ => Some (inl (ExecError JNull true (out b) (err b) failed))
  | NeverEnds => None
  end.

End ChildProcess.

Definition is_trim_space (c : ascii) : bool :=
  let n := N_of_ascii c in
  (n =? 32)%N || ((9 <=? n)%N && (n <=? 13)%N).

Fixpoint trim_start (l : list ascii) : list ascii :=
  match l with
  | c :: l' => if is_trim_space c then trim_start l' else l
  | [] => []
  end.

(** [s.trim()] for the white space of ASCII; the other white space of
    Unicode that JavaScript strips is not part of the model. *)
Definition trim (s : string) : string :=
  string_of_list_ascii
    (rev (trim_start (rev (trim_start (list_ascii_of_string s))))).

(** ** The [ProjectManager] class

    The methods the transcribed handlers call. *)
Module ProjectManager.

Section WithBasePath.
(** [this.basePath] *)
Variable basePath : string.

Definition wrap {A} (what : string) (m : Fs.M A) : Fs.M A :=
  Fs.try_catch m
    (fun e => Fs.throw (Fs.Error EmptyString (what +:+ Fs.message e))).

(** [path.join(this.basePath, p)] for a value of the request. *)
Definition fullPathOf (p : jsval) : Fs.M string :=
  match p with
  | JStr s => Fs.ret (NodePath.join [basePath; s])
  | _ => Fs.throw (type_error "The path argument must be of type string")
  end.

(** [fs.writeFile(fullPath, content, 'utf8')] for a value of the request;
    as in the agent, a value that is not a string is taken to throw before
    anything is written. *)
Definition writeFile_value (fullPath : string) (content : jsval) : Fs.M unit :=
  match content with
  | JStr c => Fs.writeFile fullPath c
  | _ => Fs.throw (type_error "The data argument must be of type string")
  end.

Definition js_to_string (v : jsval) : string :=
  match v with
  | JStr s => s
  | _ => EmptyString
  end.

(** [createFile(filePath, content = '')] *)
Definition createFile (filePath content : jsval) : Fs.M jsval :=
  let content :=
    match content with
    | JUndefined => JStr EmptyString
    | _ => content
    end in
  fullPath <- fullPathOf filePath ;;
  wrap "Failed to create file: " (
    Fs.mkdir (NodePath.dirname fullPath) true ;;;
    writeFile_value fullPath content ;;;
    Fs.ret (JObj [("success", JBool true);
                  ("message", JStr ("File created: " +:+ js_to_string filePath));
                  ("path", JStr fullPath)])).

(** [readFile(filePath)] *)
Definition readFile (filePath : jsval) : Fs.M jsval :=
  fullPath <- fullPathOf filePath ;;
  wrap "Failed to read file: " (
    content <- Fs.readFile fullPath ;;
    Fs.ret (JObj [("success", JBool true);
                  ("content", JStr content);
                  ("path", JStr fullPath)])).

(** [updateFile(filePath, content)] *)
Definition updateFile (filePath content : jsval) : Fs.M jsval :=
  fullPath <- fullPathOf filePath ;;
  wrap "Failed to update file: " (
    writeFile_value fullPath content ;;;
    Fs.ret (JObj [("success", JBool true);
                  ("message", JStr ("File updated: " +:+ js_to_string filePath));
                  ("path", JStr fullPath)])).

(** [deletePath(targetPath)] *)
Definition deletePath (targetPath : jsval) : Fs.M jsval :=
  fullPath <- fullPathOf targetPath ;;
  wrap "Failed to delete path: " (
    st <- Fs.stat fullPath ;;
    match st with
    | Fs.Dir =>
        Fs.rm fullPath true true ;;;
        Fs.ret (JObj [("success", JBool true);
                      ("message", JStr ("Directory deleted: " +:+ js_to_string targetPath))])
    | Fs.File _ =>
        Fs.unlink fullPath ;;;
        Fs.ret (JObj [("success", JBool true);
                      ("message", JStr ("File deleted: " +:+ js_to_string targetPath))])
    end).

(** [getStats(targetPath)] *)
Definition getStats (targetPath : jsval) : Fs.M jsval :=
  fullPath <- fullPathOf targetPath ;;
  Fs.try_catch
    (st <- Fs.stat fullPath ;;
     let s := Agent.stats_of st in
     Fs.ret (JObj [("success", JBool true); ("exists", JBool true);
                   ("isFile", JBool (Agent.isFile s));
                   ("isDirectory", JBool (Agent.isDirectory s));
                   ("size", JNum false (Agent.size s) 0);
                   ("path", JStr fullPath)]))
    (fun e =>
       if String.eqb (Fs.code e) "ENOENT" then
         Fs.ret (JObj [("success", JBool true); ("exists", JBool false);
                       ("path", JStr fullPath)])
       else Fs.throw (Fs.Error EmptyString ("Failed to get stats: " +:+ Fs.message e))).

(** What became of the child process of a command. *)
Record run_report : Type := RunReport {
  (** the options the child was started with *)
  started_cwd : option string;
  started_timeout : option Z;
  (** whether the kill signal was sent to it *)
  kill_sent : bool
}.

(** [a || b] on strings *)
Definition str_or (a b : string) : string :=
  if String.eqb a EmptyString then b else a.

(** [runCommand(command, options)]: the object the promise resolves
    with, [None] while it never settles. *)
Definition runCommand (command : string) (options : ChildProcess.options)
    (b : ChildProcess.behaviour) : option jsval * run_report :=
  let cwd := ChildProcess.spread (Some basePath) (ChildProcess.opt_cwd options) in
  let timeout := ChildProcess.spread (Some 30000%Z) (ChildProcess.opt_timeout options) in
  let report := RunReport cwd timeout
                  (ChildProcess.was_killed (ChildProcess.run timeout b)) in
  match ChildProcess.exec command timeout b with
  | None => (None, report)
  | Some (inr (stdout, stderr)) =>
      (Some (JObj [("success", JBool true); ("command", JStr command);
                   ("stdout", JStr (trim stdout));
                   ("stderr", JStr (trim stderr));
                   ("exitCode", jnat 0)]), report)
  | Some (inl error) =>
      (Some (JObj [("success", JBool false); ("command", JStr command);
                   ("stdout", JStr (trim (ChildProcess.e_stdout error)));
                   ("stderr", JStr (str_or (trim (ChildProcess.e_stderr error))
                                           (ChildProcess.e_message error)));
                   ("exitCode", js_or (ChildProcess.e_code error) (jnat 1))]),
       report)
  end.

(** [runCommandStream(command, options)]: [inr] is what the promise
    resolves with on [close], [inl] what it rejects with on [error]. *)
Definition runCommandStream (command : string) (options : ChildProcess.options)
    (b : ChildProcess.behaviour) : option (jsval + jsval) * run_report :=
  let cwd := ChildProcess.spread (Some basePath) (ChildProcess.opt_cwd options) in
  let timeout := ChildProcess.spread None (ChildProcess.opt_timeout options) in
  let report := RunReport cwd timeout
                  (ChildProcess.was_killed (ChildProcess.run timeout b)) in
  let closed (code : jsval) (success : bool) :=
    Some (inr (JObj [("success", JBool success); ("command", JStr command);
                     ("stdout", JStr (trim (ChildProcess.out b)));
                     ("stderr", JStr (trim (ChildProcess.err b)));
                     ("exitCode", code)])) in
  match ChildProcess.run timeout b with
  | ChildProcess.SpawnFailed msg =>
      (Some (inl (JObj [("success", JBool false); ("command", JStr command);
                        ("error", JStr msg); ("exitCode", jnat 1)])), report)
  | ChildProcess.Exited _ code =>
      (closed (JNum (code <? 0)%Z (Z.abs_N code) 0) (code =? 0)%Z, report)
  | ChildProcess.Killed _ => (closed JNull false, report)
  | ChildProcess.NeverEnds => (None, report)
  end.

End WithBasePath.
End ProjectManager.

(** ** The express application over [ProjectManager]

    The handlers for creating, reading, updating, deleting, stat and shell
    commands; those for moving, copying and listing are not transcribed. *)
Module Server.

(** [new ProjectManager('../')] *)
Definition basePath : string := "../".

Definition failure (st : nat) (msg : jsval) : response :=
  Response st (JObj [("success", JBool false); ("error", msg)]).

(** [try { body } catch (error) { res.status(500).json(...) }] *)
Definition respond (body : Fs.M response) (w : Fs.world) : response * Fs.world :=
  match body w with
  | (inr r, w') => (r, w')
  | (inl e, w') => (failure 500 (JStr (Fs.message e)), w')
  end.

(** The [origin] callback given to [cors]: [true] when it calls back with
    the origin, [false] when it calls back with the error [CORS blocked];
    [None] is a request without an [Origin] header. *)
Definition origin_markers : list string :=
  [".app.github.dev"; "localhost"; ".scf.usercontent.goog"].

Definition origin_allowed (origin : option string) : bool :=
  match origin with
  | None => true
  | Some o =>
      String.eqb o EmptyString
      || includes o ".app.github.dev"
      || includes o "localhost"
      || includes o ".scf.usercontent.goog"
  end.

(** [app.get('/health')] *)
Definition get_health (req : request) (w : Fs.world) : response * Fs.world :=
  (Response 200 JUndefined, w).

(** [{ path: p, ...result }] *)
Definition with_path (p : jsval) (result : jsval) : jsval :=
  match result with
  | JObj props => JObj (("path", p) :: props)
  | _ => JObj [("path", p)]
  end.

(** [file.path] in a [catch] block: throws when [file] is [null]. *)
Definition path_of (file : jsval) : Fs.M jsval :=
  match file with
  | JUndefined | JNull =>
      Fs.throw (Fs.Error EmptyString "Cannot read properties of null (reading 'path')")
  | _ => Fs.ret (get_prop file "path")
  end.

Definition files_of (b : jsval) : option (list jsval) :=
  match get_prop b "files" with
  | JArr files => Some files
  | _ => None
  end.

(** [app.post('/api/files/create')]; the elements of the batch are taken
    in order, one after the other, where [Promise.all] has started every
    [createFile] before the first one settles: for a batch of one file the
    two agree, for a larger batch whose paths interfere they need not. *)
Definition post_files_create (req : request) (w : Fs.world) : response * Fs.world :=
  respond (
    b <- destructure (body req) ;;
    match files_of b with
    | None => Fs.ret (failure 400 (JStr "files must be an array of {path, content} objects"))
    | Some files =>
        results <- Agent.mapM (fun file =>
          Fs.try_catch
            (f <- destructure file ;;
             let p := get_prop f "path" in
             if negb (truthy p) then
               Fs.ret (JObj [("path", p); ("success", JBool false);
                             ("error", JStr "path is required")])
             else
               result <- ProjectManager.createFile basePath p
                           (js_or (get_prop f "content") (JStr EmptyString)) ;;
               Fs.ret (with_path p result))
            (fun e =>
               p <- path_of file ;;
               Fs.ret (JObj [("path", p); ("success", JBool false);
                             ("error", JStr (Fs.message e))]))) files ;;
        Fs.ret (json (JObj [("success", JBool true); ("files", JArr results)]))
    end) w.

(** [app.post('/api/files')]; the elements of the batch are taken in
    order. *)
Definition post_files (req : request) (w : Fs.world) : response * Fs.world :=
  respond (
    b <- destructure (body req) ;;
    match files_of b with
    | None => Fs.ret (failure 400 (JStr "files must be an array of file paths"))
    | Some files =>
        results <- Agent.mapM (fun filePath =>
          Fs.try_catch
            (result <- ProjectManager.readFile basePath filePath ;;
             Fs.ret (with_path filePath result))
            (fun e =>
               Fs.ret (JObj [("path", filePath); ("success", JBool false);
                             ("error", JStr (Fs.message e))]))) files ;;
        Fs.ret (json (JObj [("success", JBool true); ("files", JArr results)]))
    end) w.

(** [app.post('/api/files/update')] *)
Definition post_files_update (req : request) (w : Fs.world) : response * Fs.world :=
  respond (
    b <- destructure (body req) ;;
    result <- ProjectManager.updateFile basePath (get_prop b "path") (get_prop b "content") ;;
    Fs.ret (json result)) w.

(** [app.post('/api/files/delete')] *)
Definition post_files_delete (req : request) (w : Fs.world) : response * Fs.world :=
  respond (
    b <- destructure (body req) ;;
    result <- ProjectManager.deletePath basePath (get_prop b "path") ;;
    Fs.ret (json result)) w.

(** [app.post('/api/files/stats')] *)
Definition post_files_stats (req : request) (w : Fs.world) : response * Fs.world :=
  respond (
    b <- destructure (body req) ;;
    result <- ProjectManager.getStats basePath (get_prop b "path") ;;
    Fs.ret (json result)) w.

(** The [cwd] of the request as the key of an options object [{ cwd }];
    [None] when [child_process] rejects its type. *)
Definition cwd_option (v : jsval) : option (option string) :=
  match v with
  | JUndefined | JNull => Some None
  | JStr s => Some (Some s)
  | _ => None
  end.

(** [app.post('/api/shell')]: the response, [None] while the promise of
    the command never settles, and what became of the child process. *)
Definition post_shell (req : request) (b : ChildProcess.behaviour)
  : option response * option ProjectManager.run_report :=
  match body req with
  | JUndefined | JNull =>
      (Some (failure 500 (JStr "Cannot destructure property of undefined or null")), None)
  | bd =>
      let command := get_prop bd "command" in
      let stream := get_prop bd "stream" in
      if negb (truthy command) then
        (Some (failure 400 (JStr "command is required")), None)
      else
        match command, cwd_option (get_prop bd "cwd") with
        | JStr c, Some cwd =>
            let options := ChildProcess.Options (Some cwd) None in
            if truthy stream then
              match ProjectManager.runCommandStream basePath c options b with
              | (Some (inr result), report) => (Some (json result), Some report)
              | (Some (inl rejected), report) =>
                  (Some (failure 500 (get_prop rejected "message")), Some report)
              | (None, report) => (None, Some report)
              end
            else
              match ProjectManager.runCommand basePath c options b with
              | (Some result, report) => (Some (json result), Some report)
              | (None, report) => (None, Some report)
              end
        | _, _ =>
            (* [exec] and [spawn] throw a [TypeError] before any child is
               started: the [catch] of [runCommand] turns it into a result,
               the promise of [runCommandStream] rejects with it *)
            let msg := "The argument must be of type string" in
            if truthy stream then (Some (failure 500 (JStr msg)), None)
            else
              (Some (json (JObj [("success", JBool false); ("command", command);
                                 ("stdout", JStr EmptyString);
                                 ("stderr", JStr msg);
                                 ("exitCode", JStr "ERR_INVALID_ARG_TYPE")])), None)
        end
  end.

End Server.

(** ** A codespace, for the concrete cases *)

Definition cfg_cs : Agent.config :=
  Agent.Config "/workspaces/codespaces-blank" "secrets" None.

(** The agent is started inside [.codespace-agent]. *)
Definition cwd_cs : string := "/workspaces/codespaces-blank/.codespace-agent".

Definition files_cs : gmap string Fs.node :=
  list_to_map
    [("/", Fs.Dir);
     ("/etc", Fs.Dir);
     ("/etc/passwd", Fs.File "root:x:0:0:root:/root:/bin/bash");
     ("/workspaces", Fs.Dir);
     ("/workspaces/codespaces-blank", Fs.Dir);
     ("/workspaces/codespaces-blank/.codespace-agent", Fs.Dir);
     ("/workspaces/codespaces-blank/src", Fs.Dir);
     ("/workspaces/codespaces-blank/src/app.js", Fs.File "console.log(1)");
     ("/workspaces/codespaces-blank-backup", Fs.Dir);
     ("/workspaces/codespaces-blank-backup/secret.txt", Fs.File "hunter2")].

Definition world_cs : Fs.world := Fs.World files_cs cwd_cs [].

(** Requests that carry no [Authorization] header, to the application over
    [ProjectManager]. *)
Definition req_read_passwd : request :=
  Request "POST" "/api/files" None (JObj [])
    (JObj [("files", JArr [JStr "../../etc/passwd"])]).

Definition req_shell_id : request :=
  Request "POST" "/api/shell" None (JObj []) (JObj [("command", JStr "id")]).

Definition behaviour_id : ChildProcess.behaviour :=
  ChildProcess.Behaviour None (Some 5%Z) 0 "uid=1000(codespace)" EmptyString.

Definition req_shell_stream_sleep : request :=
  Request "POST" "/api/shell" None (JObj [])
    (JObj [("command", JStr "sleep 60"); ("stream", JBool true)]).

Definition req_shell_sleep : request :=
  Request "POST" "/api/shell" None (JObj []) (JObj [("command", JStr "sleep 60")]).

(** [sleep 60] ends on its own after a minute, with exit code [0]. *)
Definition behaviour_sleep60 : ChildProcess.behaviour :=
  ChildProcess.Behaviour None (Some 60000%Z) 0 EmptyString EmptyString.

Definition req_update_new : request :=
  Request "POST" "/api/files/update" None (JObj [])
    (JObj [("path", JStr "notes.txt"); ("content", JStr "draft")]).

Definition req_delete_src : request :=
  Request "POST" "/api/files/delete" None (JObj []) (JObj [("path", JStr "src")]).

(** Requests to the agent, with the credential. *)
Definition bearer_cs : option string := Some "Bearer secrets".

Definition req_put_new : request :=
  Request "PUT" "/api/files" bearer_cs (JObj [])
    (JObj [("path", JStr "notes.txt"); ("content", JStr "draft")]).

Definition req_delete_src_plain : request :=
  Request "DELETE" "/api/files" bearer_cs (JObj [("path", JStr "src")]) (JObj []).

Definition req_delete_src_recursive : request :=
  Request "DELETE" "/api/files" bearer_cs
    (JObj [("path", JStr "src"); ("recursive", JStr "true")]) (JObj []).

Definition req_get_wrong_token : request :=
  Request "GET" "/api/files" (Some "Bearer guess")
    (JObj [("path", JStr "src/app.js")]) (JObj []).

(** Frames of the terminal protocol. *)
Definition ping_frame : string :=
  "{" +:+ dq +:+ "type" +:+ dq +:+ ":" +:+ dq +:+ "ping" +:+ dq +:+ "}".


Definition session_cs : Agent.session := Agent.Session "k3x9qf" 7 3.

Definition no_sessions : gmap string nat := ∅.

Definition upgrade_wrong_token : Agent.upgrade_request :=
  Agent.UpgradeRequest (Some "Bearer guess") "/ws/terminal".

Definition upgrade_right_token : Agent.upgrade_request :=
  Agent.UpgradeRequest (Some "Bearer secrets") "/ws/terminal".

(** A command that never ends on its own. *)
Definition behaviour_forever : ChildProcess.behaviour :=
  ChildProcess.Behaviour None None 0 EmptyString EmptyString.

(** A configuration whose working directory is not absolute. *)
Definition cfg_relative : Agent.config := Agent.Config "workspace" "secrets" None.

(** A configuration that allows extensions written in upper case only. *)
Definition cfg_upper : Agent.config :=
  Agent.Config "/workspaces/codespaces-blank" "secrets" (Some [".JS"; "Md"]).

(** A configuration that allows JavaScript and Markdown files. *)
Definition cfg_js_md : Agent.config :=
  Agent.Config "/workspaces/codespaces-blank" "secrets" (Some [".js"; "md"]).

Definition req_post_script : request :=
  Request "POST" "/api/files" bearer_cs (JObj [])
    (JObj [("path", JStr "tools/run.SH"); ("content", JStr "echo hi")]).

Definition req_post_notes : request :=
  Request "POST" "/api/files" bearer_cs (JObj [])
    (JObj [("path", JStr "docs/notes.md"); ("content", JStr "draft")]).

Definition req_get_notes : request :=
  Request "GET" "/api/files" bearer_cs (JObj [("path", JStr "docs/notes.md")]) (JObj []).

Definition req_get_app : request :=
  Request "GET" "/api/files" bearer_cs (JObj [("path", JStr "src/app.js")]) (JObj []).

Definition req_get_missing : request :=
  Request "GET" "/api/files" bearer_cs (JObj [("path", JStr "src/none.js")]) (JObj []).

Definition req_get_src : request :=
  Request "GET" "/api/files" bearer_cs (JObj [("path", JStr "src")]) (JObj []).

Definition req_delete_app : request :=
  Request "DELETE" "/api/files" bearer_cs (JObj [("path", JStr "src/app.js")]) (JObj []).

Definition req_put_app : request :=
  Request "PUT" "/api/files" bearer_cs (JObj [])
    (JObj [("path", JStr "src/app.js"); ("content", JStr "console.log(2)")]).

Definition req_mkdir_nested : request :=
  Request "POST" "/api/mkdir" bearer_cs (JObj []) (JObj [("path", JStr "build/out/js")]).

Definition req_stat_nested : request :=
  Request "GET" "/api/stat" bearer_cs (JObj [("path", JStr "build/out/js")]) (JObj []).

Definition req_search_app : request :=
  Request "GET" "/api/search" bearer_cs (JObj [("query", JStr "APP")]) (JObj []).

Definition req_search_list : request :=
  Request "GET" "/api/search" bearer_cs
    (JObj [("query", JArr [JStr "app"; JStr "src"])]) (JObj []).

(** A second connection that drew the id of [session_cs]. *)
Definition session_cs_again : Agent.session := Agent.Session "k3x9qf" 8 4.


(** A listing of the working directory: no [path], no [detailed]. *)
Definition req_ls_root : request :=
  Request "GET" "/api/ls" bearer_cs (JObj []) (JObj []).

(** A command whose working directory does not exist: the shell cannot be
    started. *)
Definition behaviour_no_cwd : ChildProcess.behaviour :=
  ChildProcess.Behaviour (Some "spawn /bin/sh ENOENT") None 0 EmptyString EmptyString.

Definition req_get_escape : request :=
  Request "GET" "/api/files" bearer_cs (JObj [("path", JStr "../../etc/passwd")])
    (JObj []).

(** A read of a file in the directory next to the working directory,
    whose name extends the name of the working directory. *)
Definition req_get_sibling : request :=
  Request "GET" "/api/files" bearer_cs
    (JObj [("path", JStr "../codespaces-blank-backup/secret.txt")]) (JObj []).

(** [w] is a prefix of [r] and differs from it. *)
Definition strict_prefix (w r : string) : Prop :=
  startsWith r w = true /\ w <> r.

(** The sandbox property in its strict reading: every candidate either
    resolves strictly below the working directory or is refused. *)
Definition strictly_sandboxed (cfg : Agent.config) (cwd : string) : Prop :=
  forall p : jsval,
    (exists r, Agent.safePath cfg cwd p = inr r /\ strict_prefix (Agent.WORKDIR cfg) r)
    \/ (exists e, Agent.safePath cfg cwd p = inl e).

(** The flag of C9 read on the application over [ProjectManager]: a delete
    request without it fails on a non-empty directory and leaves it. *)
Definition server_delete_needs_flag : Prop :=
  forall (req : request) (w : Fs.world) (p : string),
    get_prop (body req) "path" = JStr p ->
    get_prop (body req) "recursive" = JUndefined ->
    let d := Fs.key w (NodePath.join [Server.basePath; p]) in
    Fs.non_empty_dir (Fs.files w) d ->
    status (fst (Server.post_files_delete req w)) <> 200
    /\ Fs.files (snd (Server.post_files_delete req w)) !! d = Some Fs.Dir.

(** The first sentence of C5 as it is worded: whatever frame parses to a
    message whose [type] is [ping] is answered by one [pong] and by nothing
    else. *)
Definition ping_answered_by_parse : Prop :=
  forall (s : Agent.session) (text : string) (json : jsval),
    Json.parse text = Some json ->
    get_prop json "type" = JStr "ping" ->
    Agent.on_message s text
    = [Agent.WsSend (Agent.ws s) (Agent.JsonFrame (JObj [("type", JStr "pong")]))].

(** * Properties *)

(** ** The path sandbox *)

Lemma prefix_nil (r : string) : String.prefix EmptyString r = true.
Proof. destruct r; reflexivity. Qed.

Lemma prefix_cons (a b : ascii) (w r : string) :
  String.prefix (String a w) (String b r)
  = if ascii_dec a b then String.prefix w r else false.
Proof. reflexivity. Qed.

Lemma startsWith_absolute (w r : string) :
  startsWith r w = true ->
  NodePath.isAbsolute w = true -> NodePath.isAbsolute r = true.
Proof.
  unfold NodePath.isAbsolute, startsWith.
  destruct w as [|a w]; [discriminate|].
  destruct r as [|b r]; [discriminate|].
  rewrite !prefix_cons, !prefix_nil.
  destruct (ascii_dec a b) as [->|]; [|discriminate].
  intros _ H. exact H.
Qed.

Lemma safePath_falsy cfg cwd p :
  truthy p = false ->
  Agent.safePath cfg cwd p = inl (Fs.Error EmptyString "Path is required").
Proof. intros H. unfold Agent.safePath. now rewrite H. Qed.

(** Whatever [safePath] returns is the resolution of a non-empty string
    candidate and starts with [WORKDIR]. *)
Lemma safePath_inr cfg cwd p r :
  Agent.safePath cfg cwd p = inr r ->
  (exists s, p = JStr s /\ s <> EmptyString
             /\ r = NodePath.resolve cwd [Agent.WORKDIR cfg; s])
  /\ startsWith r (Agent.WORKDIR cfg) = true.
Proof.
  unfold Agent.safePath.
  destruct (truthy p) eqn:Ht; cbn [negb]; [|discriminate].
  destruct p; try discriminate.
  destruct (startsWith _ _) eqn:Hs; cbn [negb]; [|discriminate].
  intros [= <-]. split; [|exact Hs].
  exists s. repeat split.
  intros ->. discriminate.
Qed.

(** The traversal that the string test of [safePath] lets through: a
    directory next to the working directory whose name extends its name. *)
Lemma safePath_sibling_directory :
  Agent.safePath cfg_cs cwd_cs (JStr "../codespaces-blank-backup/secret.txt")
  = inr "/workspaces/codespaces-blank-backup/secret.txt".
Proof. vm_compute. reflexivity. Qed.

(** The candidate [.] resolves to the working directory itself, which is
    returned although it is not a strict extension of it: the listing of
    the working directory relies on it. *)
Lemma safePath_dot_is_workdir : ~ strictly_sandboxed cfg_cs cwd_cs.
Proof.
  intros H. destruct (H (JStr ".")) as [[r [Hr [_ Hne]]] | [e He]].
  - vm_compute in Hr. injection Hr as <-. apply Hne. reflexivity.
  - vm_compute in He. discriminate.
Qed.

(** What [safePath] does: for every candidate it either returns
    [path.resolve(WORKDIR, p)] for a non-empty string [p], a path that starts
    with [WORKDIR] (and may be [WORKDIR] itself) and is absolute when
    [WORKDIR] is, or throws one of its two errors or the [TypeError] of
    [path.resolve]; it consults no file.  In the codespace
    [../../etc/passwd] and [/etc/passwd] are refused, [src/app.js] resolves
    below the working directory and [.] to the working directory. *)
Theorem safePath_sound :
  (forall (cfg : Agent.config) (cwd : string) (p : jsval),
      match Agent.safePath cfg cwd p with
      | inr r =>
          (exists s, p = JStr s /\ s <> EmptyString
                     /\ r = NodePath.resolve cwd [Agent.WORKDIR cfg; s])
          /\ startsWith r (Agent.WORKDIR cfg) = true
          /\ (NodePath.isAbsolute (Agent.WORKDIR cfg) = true ->
              NodePath.isAbsolute r = true)
      | inl e =>
          e = Fs.Error EmptyString "Path is required"
          \/ e = Fs.Error EmptyString "Invalid path: outside working directory"
          \/ Fs.code e = "ERR_INVALID_ARG_TYPE"
      end)
  /\ Agent.safePath cfg_cs cwd_cs (JStr "../../etc/passwd")
     = inl (Fs.Error EmptyString "Invalid path: outside working directory")
  /\ Agent.safePath cfg_cs cwd_cs (JStr "/etc/passwd")
     = inl (Fs.Error EmptyString "Invalid path: outside working directory")
  /\ Agent.safePath cfg_cs cwd_cs (JStr "src/app.js")
     = inr "/workspaces/codespaces-blank/src/app.js"
  /\ Agent.safePath cfg_cs cwd_cs (JStr ".") = inr "/workspaces/codespaces-blank".
Proof.
  split; [|repeat split; vm_compute; reflexivity].
  intros cfg cwd p.
  destruct (Agent.safePath cfg cwd p) as [e|r] eqn:E.
  - unfold Agent.safePath in E.
    destruct (truthy p); cbn [negb] in E.
    + destruct p; try (injection E as <-; right; right; reflexivity).
      destruct (startsWith _ _); cbn [negb] in E; [discriminate|].
      injection E as <-. right; left; reflexivity.
    + injection E as <-. left; reflexivity.
  - destruct (safePath_inr _ _ _ _ E) as [Hs Hp].
    split; [exact Hs|]. split; [exact Hp|].
    intros Ha. exact (startsWith_absolute _ _ Hp Ha).
Qed.

(** C1: [safePath] tests that the resolved path starts with [WORKDIR] as a
    string, not that it lies in the working directory.  In the codespace
    the candidate [../codespaces-blank-backup/secret.txt], a [..]
    traversal, is not refused: it resolves to a file of the directory next
    to the working directory, which is neither the working directory nor
    below it, and an authorised read answers [200] with the content of
    that file.  The claim wants every traversal out of the working
    directory refused, as [../../etc/passwd] is. *)
Theorem safePath_lets_sibling_through :
  Agent.safePath cfg_cs cwd_cs (JStr "../codespaces-blank-backup/secret.txt")
  = inr "/workspaces/codespaces-blank-backup/secret.txt"
  /\ "/workspaces/codespaces-blank-backup/secret.txt" <> Agent.WORKDIR cfg_cs
  /\ Fs.below (Agent.WORKDIR cfg_cs) "/workspaces/codespaces-blank-backup/secret.txt"
     = false
  /\ fst (Agent.get_files cfg_cs req_get_sibling world_cs)
     = Response 200
         (JObj [("path", JStr "../codespaces-blank-backup/secret.txt");
                ("content", JStr "hunter2");
                ("stats", JObj [("size", JNum false 7 0);
                                ("isDirectory", JBool false);
                                ("isFile", JBool true)])])
  /\ Agent.safePath cfg_cs cwd_cs (JStr "../../etc/passwd")
     = inl (Fs.Error EmptyString "Invalid path: outside working directory").
Proof.
  split; [reflexivity|]. split; [discriminate|]. split; [reflexivity|].
  split; reflexivity.
Qed.

(** ** The bearer gate *)

Lemma assertAuth_rejects cfg req :
  authorization req <> Some ("Bearer " +:+ Agent.AGENT_TOKEN cfg) ->
  Agent.assertAuth cfg req = Some Agent.unauthorized.
Proof.
  intros H. unfold Agent.assertAuth.
  destruct (authorization req) as [auth|]; [|reflexivity].
  destruct (String.eqb auth EmptyString); [reflexivity|].
  destruct (String.eqb_spec auth ("Bearer " +:+ Agent.AGENT_TOKEN cfg)) as [->|];
    [congruence | reflexivity].
Qed.

Lemma assertAuth_accepts cfg req :
  authorization req = Some ("Bearer " +:+ Agent.AGENT_TOKEN cfg) ->
  Agent.assertAuth cfg req = None.
Proof.
  intros H. unfold Agent.assertAuth. rewrite H.
  rewrite String.eqb_refl. reflexivity.
Qed.

(** Every handler of the agent but the health check answers [401] to a
    request without the credential, and asks nothing of the filesystem. *)
Lemma agent_handlers_unauthorized cfg req w :
  authorization req <> Some ("Bearer " +:+ Agent.AGENT_TOKEN cfg) ->
  Forall (fun h : request -> Fs.world -> response * Fs.world =>
            h req w = (Agent.unauthorized, w))
    [Agent.get_files cfg; Agent.post_files cfg; Agent.put_files cfg;
     Agent.delete_files cfg; Agent.get_ls cfg; Agent.post_mkdir cfg;
     Agent.get_stat cfg; Agent.get_search cfg].
Proof.
  intros H. pose proof (assertAuth_rejects cfg req H) as E.
  repeat constructor;
    unfold Agent.get_files, Agent.post_files, Agent.put_files, Agent.delete_files,
      Agent.get_ls, Agent.post_mkdir, Agent.get_stat, Agent.get_search;
    rewrite E; reflexivity.
Qed.

(** The same through the table of routes: without the credential a request
    gets the [401], the health check, or the [404] of a method and path
    that are not in the table. *)
Lemma agent_app_unauthorized cfg req w :
  authorization req <> Some ("Bearer " +:+ Agent.AGENT_TOKEN cfg) ->
  Agent.app cfg req w = (Agent.unauthorized, w)
  \/ (method req = "GET" /\ url req = "/health"
      /\ Agent.app cfg req w = Agent.get_health cfg req w)
  \/ Agent.app cfg req w = (Response 404 JUndefined, w).
Proof.
  intros H. pose proof (agent_handlers_unauthorized cfg req w H) as F.
  repeat match type of F with
         | Forall _ (_ :: _) =>
             let E := fresh "E" in
             apply Forall_cons_iff in F; destruct F as [E F]
         end.
  unfold Agent.app.
  destruct (find _ _) as [[[m u] h]|] eqn:Hf; [|auto].
  apply find_some in Hf as [Hin Hp]. cbn [fst snd] in Hp.
  apply andb_prop in Hp as [Hm Hu].
  apply String.eqb_eq in Hm, Hu.
  unfold Agent.routes in Hin. cbn [In] in Hin.
  destruct Hin as [[= <- <- <-]|Hin]; [right; left; auto|].
  repeat (destruct Hin as [[= <- <- <-]|Hin]; [left; assumption|]).
  contradiction.
Qed.

(** A guessed token in the codespace. *)
Example get_files_wrong_token :
  Agent.app cfg_cs req_get_wrong_token world_cs = (Agent.unauthorized, world_cs).
Proof. reflexivity. Qed.

(** ** The sandbox as the first step of the agent's handlers *)

Lemma guarded_safePath_refused cfg p (k : string -> Fs.M response) w e :
  Agent.safePath cfg (Fs.cwd w) p = inl e ->
  Agent.guarded (Fs.bind (Agent.safePathM cfg p) k) w
  = (Response 400 (JObj [("error", JStr (Fs.message e))]), w).
Proof.
  intros H. unfold Agent.guarded, Fs.bind, Agent.safePathM. rewrite H. reflexivity.
Qed.

Lemma bind_ret {A B} (a : A) (k : A -> Fs.M B) : Fs.bind (Fs.ret a) k = k a.
Proof. reflexivity. Qed.

Lemma truthy_prop_object (b : jsval) (k : string) :
  truthy (get_prop b k) = true -> exists props, b = JObj props.
Proof. destruct b; try discriminate. eauto. Qed.

(** X28: a candidate that [safePath] refuses ends the handler with a [400]
    that carries the message of [safePath], before anything is asked of the
    filesystem. *)
Lemma agent_sandbox_first cfg req w e :
  authorization req = Some ("Bearer " +:+ Agent.AGENT_TOKEN cfg) ->
  let refused := (Response 400 (JObj [("error", JStr (Fs.message e))]), w) in
  (Agent.safePath cfg (Fs.cwd w) (get_prop (query req) "path") = inl e ->
   Agent.get_files cfg req w = refused
   /\ Agent.delete_files cfg req w = refused
   /\ Agent.get_stat cfg req w = refused)
  /\ (Agent.safePath cfg (Fs.cwd w) (js_or (get_prop (query req) "path") (JStr ".")) = inl e ->
      Agent.get_ls cfg req w = refused)
  /\ (truthy (get_prop (body req) "path") = true ->
      Agent.safePath cfg (Fs.cwd w) (get_prop (body req) "path") = inl e ->
      Agent.post_mkdir cfg req w = refused
      /\ (get_prop (body req) "content" <> JUndefined ->
          Agent.post_files cfg req w = refused
          /\ Agent.put_files cfg req w = refused)).
Proof.
  intros Ha refused. pose proof (assertAuth_accepts cfg req Ha) as E.
  unfold Agent.get_files, Agent.delete_files, Agent.get_stat, Agent.get_ls,
    Agent.post_mkdir, Agent.post_files, Agent.put_files.
  rewrite E. cbn [fst negb].
  split; [|split].
  - intros H. repeat split; apply guarded_safePath_refused; exact H.
  - intros H. apply guarded_safePath_refused; exact H.
  - intros Ht H. destruct (truthy_prop_object _ _ Ht) as [props Hb].
    rewrite Hb in *. unfold destructure. rewrite !bind_ret.
    rewrite Ht. cbn [negb orb].
    split; [apply guarded_safePath_refused; exact H|].
    intros Hc.
    assert (Agent.is_undefined (get_prop (JObj props) "content") = false) as Hu
      by (destruct (get_prop (JObj props) "content") eqn:Eq; auto; congruence).
    rewrite Hu.
    split; apply guarded_safePath_refused; exact H.
Qed.

(** ** The application over [ProjectManager] *)

(** No handler of this application reads the [Authorization] header. *)
Lemma server_ignores_authorization m u a a' q b w beh :
  let req := Request m u a q b in
  let req' := Request m u a' q b in
  Server.post_files_create req w = Server.post_files_create req' w
  /\ Server.post_files req w = Server.post_files req' w
  /\ Server.post_files_update req w = Server.post_files_update req' w
  /\ Server.post_files_delete req w = Server.post_files_delete req' w
  /\ Server.post_files_stats req w = Server.post_files_stats req' w
  /\ Server.post_shell req beh = Server.post_shell req' beh.
Proof. cbv zeta. repeat split. Qed.

(** The path [ProjectManager] hands to [fs] is [path.join(basePath, p)],
    whatever [p] is. *)
Lemma projectManager_readFile_unchecked basePath (p : string) w :
  ProjectManager.readFile basePath (JStr p) w
  = ProjectManager.wrap "Failed to read file: "
      (content <- Fs.readFile (NodePath.join [basePath; p]) ;;
       Fs.ret (JObj [("success", JBool true); ("content", JStr content);
                     ("path", JStr (NodePath.join [basePath; p]))])) w.
Proof. reflexivity. Qed.

(** C2: [POST /api/files] of the application over [ProjectManager], given
    [../../etc/passwd], reads [/etc/passwd], which lies outside the
    directory [../] it serves, and returns its content; the claim wants
    every path confined to the working directory. *)
Theorem server_reads_outside_root :
  let '(res, w') := Server.post_files req_read_passwd world_cs in
  res = json (JObj [("success", JBool true);
                    ("files", JArr [JObj [("path", JStr "../../etc/passwd");
                                          ("success", JBool true);
                                          ("content", JStr "root:x:0:0:root:/root:/bin/bash");
                                          ("path", JStr "../../../etc/passwd")]])])
  /\ Fs.calls w' = [Fs.FsReadFile "../../../etc/passwd"]
  /\ Fs.key world_cs "../../../etc/passwd" = "/etc/passwd"
  /\ Fs.key world_cs Server.basePath = "/workspaces/codespaces-blank"
  /\ startsWith "/etc/passwd" "/workspaces/codespaces-blank" = false.
Proof. vm_compute. repeat split. Qed.

(** C3: [POST /api/shell] of the application over [ProjectManager] runs the
    command of a request that has no [Authorization] header and answers
    [200] with its output; the claim wants a [401]. *)
Theorem server_shell_without_credential :
  authorization req_shell_id = None
  /\ Server.post_shell req_shell_id behaviour_id
     = (Some (json (JObj [("success", JBool true); ("command", JStr "id");
                          ("stdout", JStr "uid=1000(codespace)");
                          ("stderr", JStr EmptyString);
                          ("exitCode", jnat 0)])),
        Some (ProjectManager.RunReport None (Some 30000%Z) false)).
Proof. vm_compute. split; reflexivity. Qed.

(** ** The terminal *)

Lemma skip_ws_brace l : Json.skip_ws ("{"%char :: l) = "{"%char :: l.
Proof. reflexivity. Qed.

Lemma parse_value_object fuel l v rest :
  Json.parse_value fuel ("{"%char :: l) = Json.Parsed v rest ->
  exists props, v = JObj props.
Proof.
  destruct fuel as [|fuel]; [discriminate|].
  cbn [Json.parse_value]. rewrite skip_ws_brace.
  change (Ascii.eqb "{" "{") with true. cbv iota.
  destruct (Json.strip _ _); [intros [= <- _]; eauto|].
  destruct (Json.parse_members fuel l); cbn [Json.map_result];
    intros [= <- _]; eauto.
Qed.

(** A text that starts with a brace parses, if at all, to an object. *)
Lemma parse_object text v :
  startsWith text "{" = true -> Json.parse text = Some v ->
  exists props, v = JObj props.
Proof.
  destruct text as [|c t]; [discriminate|].
  unfold startsWith. rewrite prefix_cons.
  destruct (ascii_dec "{" c) as [<-|]; [|discriminate].
  intros _. unfold Json.parse.
  change (list_ascii_of_string (String "{" t)) with ("{"%char :: list_ascii_of_string t).
  destruct (Json.parse_value _ _) as [| |v' rest] eqn:E; try discriminate.
  apply parse_value_object in E. destruct E as [props ->].
  destruct (Json.skip_ws rest); [|discriminate].
  intros [= <-]. eauto.
Qed.

Lemma strict_eq_str_true v s : strict_eq_str v s = true -> v = JStr s.
Proof.
  destruct v; try discriminate. cbn. intros H.
  apply String.eqb_eq in H. congruence.
Qed.

(** C5, as stated, fails: the ping message after a space parses to the
    ping message, and is written to the pseudo-terminal instead of being
    answered. *)
Lemma on_message_ping_after_space : ~ ping_answered_by_parse.
Proof.
  intros H.
  specialize (H session_cs (" " +:+ ping_frame) (JObj [("type", JStr "ping")])).
  assert (Json.parse (" " +:+ ping_frame) = Some (JObj [("type", JStr "ping")])) as Hp
    by (vm_compute; reflexivity).
  specialize (H Hp eq_refl). vm_compute in H. discriminate H.
Qed.

(** C5, amended: the handler takes a frame for a control message exactly
    when its text starts with a brace.  Such a frame is never written to
    the pseudo-terminal: when [JSON.parse] rejects it nothing happens; when
    it parses it is an object, [type] [ping] is answered by exactly one
    [{"type":"pong"}], and a [type] other than [ping] and [resize] does
    nothing.  Every other frame, whether it parses or not, is written to
    the pseudo-terminal as it is.  [{"type":"ping"}] gets one
    [{"type":"pong"}]. *)
Theorem on_message_control (s : Agent.session) (text : string) :
  (startsWith text "{" = true ->
   (forall sh data, ~ In (Agent.ShellWrite sh data) (Agent.on_message s text))
   /\ match Json.parse text with
      | None => Agent.on_message s text = []
      | Some json =>
          (exists props, json = JObj props)
          /\ (get_prop json "type" = JStr "ping" ->
              Agent.on_message s text
              = [Agent.WsSend (Agent.ws s)
                   (Agent.JsonFrame (JObj [("type", JStr "pong")]))])
          /\ (get_prop json "type" <> JStr "ping" ->
              get_prop json "type" <> JStr "resize" ->
              Agent.on_message s text = [])
      end)
  /\ (startsWith text "{" = false ->
      Agent.on_message s text = [Agent.ShellWrite (Agent.shell s) text])
  /\ (Agent.on_message s text <> [Agent.ShellWrite (Agent.shell s) text] ->
      Agent.on_message s text <> [] ->
      startsWith text "{" = true
      /\ exists props, Json.parse text = Some (JObj props))
  /\ Agent.on_message s ping_frame
     = [Agent.WsSend (Agent.ws s) (Agent.JsonFrame (JObj [("type", JStr "pong")]))].
Proof.
  split; [|split; [|split]].
  - intros Hb. unfold Agent.on_message. rewrite Hb.
    destruct (Json.parse text) as [json|] eqn:Ep.
    + destruct (parse_object _ _ Hb Ep) as [props ->].
      destruct (strict_eq_str (get_prop (JObj props) "type") "resize") eqn:Er.
      * apply strict_eq_str_true in Er.
        split; [intros sh data [H|[]]; discriminate H|].
        split; [eauto|]. split; [congruence|]. intros _ H. contradiction.
      * destruct (strict_eq_str (get_prop (JObj props) "type") "ping") eqn:Eg.
        -- apply strict_eq_str_true in Eg.
           split; [intros sh data [H|[]]; discriminate H|].
           split; [eauto|]. split; [reflexivity|]. intros H. contradiction.
        -- split; [intros sh data []|]. split; [eauto|].
           split; [|reflexivity].
           intros H. rewrite H in Eg. discriminate.
    + split; [intros sh data [] | reflexivity].
  - intros Hb. unfold Agent.on_message. rewrite Hb. reflexivity.
  - unfold Agent.on_message.
    destruct (startsWith text "{") eqn:Hb; [|congruence].
    destruct (Json.parse text) as [json|] eqn:Ep; [|congruence].
    destruct (parse_object _ _ Hb Ep) as [props ->]. eauto.
  - reflexivity.
Qed.

(** The theorem at the ping frame, at a frame that does not parse, and at
    the ping frame after a space. *)
Lemma on_message_control_witness :
  (startsWith ping_frame "{" = true /\ Json.parse ping_frame <> None
   /\ Agent.on_message session_cs ping_frame
      = [Agent.WsSend 3 (Agent.JsonFrame (JObj [("type", JStr "pong")]))])
  /\ (startsWith "{oops" "{" = true /\ Json.parse "{oops" = None
      /\ Agent.on_message session_cs "{oops" = [])
  /\ (startsWith (" " +:+ ping_frame) "{" = false
      /\ Agent.on_message session_cs (" " +:+ ping_frame)
         = [Agent.ShellWrite 7 (" " +:+ ping_frame)]).
Proof.
  split; [|split].
  - split; [reflexivity|]. split; [vm_compute; discriminate|].
    exact (proj2 (proj2 (proj2 (on_message_control session_cs ping_frame)))).
  - split; [reflexivity|]. split; [reflexivity|].
    pose proof (proj1 (on_message_control session_cs "{oops") eq_refl) as [_ H].
    exact H.
  - split; [reflexivity|].
    exact (proj1 (proj2 (on_message_control session_cs (" " +:+ ping_frame))) eq_refl).
Defined.

Lemma upgrade_auth_fails_iff cfg req :
  Agent.upgrade_auth_fails cfg req = false
  <-> Agent.up_authorization req = Some ("Bearer " +:+ Agent.AGENT_TOKEN cfg).
Proof.
  unfold Agent.upgrade_auth_fails.
  destruct (Agent.up_authorization req) as [auth|]; [|split; discriminate].
  destruct (String.eqb_spec auth ("Bearer " +:+ Agent.AGENT_TOKEN cfg)) as [->|Hne];
    cbn [negb]; split; try reflexivity; try discriminate.
  intros [= ->]. contradiction.
Qed.

(** C4: an upgrade request whose [Authorization] header is not exactly
    [Bearer <token>] is answered [401 Unauthorized] on the raw socket, the
    socket is destroyed, and the table of sessions is left as it was; the
    handshake and the spawn of a pseudo-terminal happen only for a request
    that carries the exact credential. *)
Theorem upgrade_requires_credential (cfg : Agent.config) (platform : string)
    (req : Agent.upgrade_request) (s : Agent.session)
    (activeSessions : gmap string nat) :
  (Agent.up_authorization req <> Some ("Bearer " +:+ Agent.AGENT_TOKEN cfg) ->
   Agent.on_upgrade cfg platform req s activeSessions
   = (activeSessions,
      [Agent.SocketWrite ("HTTP/1.1 401 Unauthorized" +:+ Agent.crlf +:+ Agent.crlf);
       Agent.SocketDestroy]))
  /\ (forall e, In e (snd (Agent.on_upgrade cfg platform req s activeSessions)) ->
      Agent.creates_session e = true ->
      Agent.up_authorization req = Some ("Bearer " +:+ Agent.AGENT_TOKEN cfg))
  /\ (fst (Agent.on_upgrade cfg platform req s activeSessions) <> activeSessions ->
      Agent.up_authorization req = Some ("Bearer " +:+ Agent.AGENT_TOKEN cfg)).
Proof.
  unfold Agent.on_upgrade.
  destruct (Agent.upgrade_auth_fails cfg req) eqn:Ea.
  - split; [reflexivity|]. split.
    + cbn [snd In]. intros e [<-|[<-|[]]]; discriminate.
    + cbn [fst]. contradiction.
  - apply upgrade_auth_fails_iff in Ea.
    split; [contradiction|]. split; intros; exact Ea.
Qed.

(** The theorem at a request with a guessed token, and at one with the
    configured token, which opens a session. *)
Lemma upgrade_requires_credential_witness :
  Agent.on_upgrade cfg_cs "linux" upgrade_wrong_token session_cs no_sessions
  = (no_sessions, [Agent.SocketWrite ("HTTP/1.1 401 Unauthorized" +:+ Agent.crlf +:+ Agent.crlf);
         Agent.SocketDestroy])
  /\ fst (Agent.on_upgrade cfg_cs "linux" upgrade_right_token session_cs no_sessions)
       !! "k3x9qf" = Some 7.
Proof.
  split.
  - apply (proj1 (upgrade_requires_credential cfg_cs "linux" upgrade_wrong_token
                    session_cs no_sessions)).
    discriminate.
  - reflexivity.
Defined.

Lemma step_keeps_absent cfg ev (activeSessions : gmap string nat) id :
  activeSessions !! id = None ->
  ~ Agent.opens id ev ->
  fst (Agent.step cfg ev activeSessions) !! id = None.
Proof.
  intros Hn Ho. destruct ev as [platform req s| | s ? ? ? | | s]; cbn [Agent.step fst].
  - unfold Agent.on_upgrade, Agent.on_connection.
    destruct (Agent.upgrade_auth_fails cfg req); [exact Hn|].
    destruct (String.eqb _ _); [|exact Hn].
    cbn [fst]. cbn [Agent.opens] in Ho.
    rewrite lookup_insert_ne; [exact Hn | exact Ho].
  - exact Hn.
  - unfold Agent.on_exit. cbn [fst].
    destruct (decide (Agent.sessionId s = id)) as [->|Hne].
    + apply lookup_delete_eq.
    + rewrite lookup_delete_ne; [exact Hn | exact Hne].
  - exact Hn.
  - unfold Agent.on_close. cbn [fst].
    destruct (decide (Agent.sessionId s = id)) as [->|Hne].
    + apply lookup_delete_eq.
    + rewrite lookup_delete_ne; [exact Hn | exact Hne].
Qed.

Lemma run_keeps_absent cfg evs (activeSessions : gmap string nat) id :
  activeSessions !! id = None ->
  Forall (fun ev => ~ Agent.opens id ev) evs ->
  fst (Agent.run cfg evs activeSessions) !! id = None.
Proof.
  revert activeSessions.
  induction evs as [|ev evs IH]; intros activeSessions Hn Hf; [exact Hn|].
  apply Forall_cons_iff in Hf as [Ho Hf].
  cbn [Agent.run].
  pose proof (step_keeps_absent cfg ev activeSessions id Hn Ho) as H1.
  destruct (Agent.step cfg ev activeSessions) as [sessions1 effects1].
  specialize (IH sessions1 H1 Hf).
  destruct (Agent.run cfg evs sessions1) as [sessions2 effects2].
  exact IH.
Qed.

(** C6: the close handler of a session asks its pseudo-terminal to stop, in
    the handler itself, and deletes the session from the table; the id stays
    absent through every later event, until an upgrade registers a session
    under that id again. *)
Theorem close_kills_and_removes (cfg : Agent.config) (s : Agent.session)
    (activeSessions : gmap string nat) (later : list Agent.event) :
  Forall (fun ev => ~ Agent.opens (Agent.sessionId s) ev) later ->
  snd (Agent.on_close s activeSessions) = [Agent.ShellKill (Agent.shell s)]
  /\ fst (Agent.on_close s activeSessions) !! Agent.sessionId s = None
  /\ fst (Agent.run cfg later (fst (Agent.on_close s activeSessions)))
       !! Agent.sessionId s = None.
Proof.
  intros Hf.
  assert (fst (Agent.on_close s activeSessions) !! Agent.sessionId s = None) as Hn
    by apply lookup_delete_eq.
  split; [reflexivity|]. split; [exact Hn|].
  apply run_keeps_absent; assumption.
Qed.

(** The theorem at a session that is opened, closed, and whose shell then
    exits. *)
Lemma close_kills_and_removes_witness :
  let opened := fst (Agent.on_upgrade cfg_cs "linux" upgrade_right_token session_cs no_sessions) in
  opened !! "k3x9qf" = Some 7
  /\ snd (Agent.on_close session_cs opened) = [Agent.ShellKill 7]
  /\ fst (Agent.run cfg_cs [Agent.EvExit session_cs false JNull (jnat 15)]
            (fst (Agent.on_close session_cs opened))) !! "k3x9qf" = None.
Proof.
  cbv zeta. split; [reflexivity|].
  pose proof (close_kills_and_removes cfg_cs session_cs
                (fst (Agent.on_upgrade cfg_cs "linux" upgrade_right_token session_cs no_sessions))
                [Agent.EvExit session_cs false JNull (jnat 15)]) as H.
  destruct H as [Hk [_ Hr]].
  - repeat constructor. cbn. tauto.
  - split; [exact Hk | exact Hr].
Defined.



(** ** Update and delete *)

Lemma bind_inr {A B} (m : Fs.M A) (k : A -> Fs.M B) w a w' :
  m w = (inr a, w') -> Fs.bind m k w = k a w'.
Proof. intros H. unfold Fs.bind. rewrite H. reflexivity. Qed.

Lemma bind_inl {A B} (m : Fs.M A) (k : A -> Fs.M B) w e w' :
  m w = (inl e, w') -> Fs.bind m k w = (inl e, w').
Proof. intros H. unfold Fs.bind. rewrite H. reflexivity. Qed.

Lemma fileExists_present p w n :
  Fs.files w !! Fs.key w p = Some n ->
  Agent.fileExists p w = (inr true, Fs.record (Fs.FsAccess p) w).
Proof.
  intros H. unfold Agent.fileExists, Fs.try_catch, Fs.bind, Fs.access.
  cbn [Fs.files Fs.record]. change (Fs.key (Fs.record _ w) p) with (Fs.key w p).
  rewrite H. reflexivity.
Qed.

Lemma fileExists_absent p w :
  Fs.files w !! Fs.key w p = None ->
  Agent.fileExists p w = (inr false, Fs.record (Fs.FsAccess p) w).
Proof.
  intros H. unfold Agent.fileExists, Fs.try_catch, Fs.bind, Fs.access.
  cbn [Fs.files Fs.record]. change (Fs.key (Fs.record _ w) p) with (Fs.key w p).
  rewrite H. reflexivity.
Qed.

Lemma getFileStats_present p w n :
  Fs.files w !! Fs.key w p = Some n ->
  Agent.getFileStats p w
  = (inr (Some (Agent.stats_of n)), Fs.record (Fs.FsStat p) w).
Proof.
  intros H. unfold Agent.getFileStats, Fs.try_catch, Fs.bind, Fs.stat.
  cbn [Fs.files Fs.record]. change (Fs.key (Fs.record _ w) p) with (Fs.key w p).
  rewrite H. reflexivity.
Qed.

Lemma rm_directory_recursive p force w :
  Fs.files w !! Fs.key w p = Some Fs.Dir ->
  Fs.rm p true force w
  = (inr tt, Fs.set_files (Fs.remove_tree (Fs.key w p) (Fs.files w))
               (Fs.record (Fs.FsRm p true force) w)).
Proof.
  intros H. unfold Fs.rm.
  cbn [Fs.files Fs.record]. change (Fs.key (Fs.record _ w) p) with (Fs.key w p).
  rewrite H. reflexivity.
Qed.

Lemma rm_directory_plain p force w :
  Fs.files w !! Fs.key w p = Some Fs.Dir ->
  Fs.rm p false force w
  = (inl Fs.err_fs_eisdir, Fs.record (Fs.FsRm p false force) w).
Proof.
  intros H. unfold Fs.rm.
  cbn [Fs.files Fs.record]. change (Fs.key (Fs.record _ w) p) with (Fs.key w p).
  rewrite H. reflexivity.
Qed.

Lemma remove_tree_root d (fs : gmap string Fs.node) : Fs.remove_tree d fs !! d = None.
Proof.
  unfold Fs.remove_tree. apply map_lookup_filter_None. right.
  intros n _. cbn [fst]. rewrite String.eqb_refl. discriminate.
Qed.

Lemma remove_tree_below d k (fs : gmap string Fs.node) :
  Fs.below d k = true -> Fs.remove_tree d fs !! k = None.
Proof.
  intros Hb. unfold Fs.remove_tree. apply map_lookup_filter_None. right.
  intros n _. cbn [fst]. rewrite Hb, orb_true_r. discriminate.
Qed.

Lemma remove_tree_elsewhere d k (fs : gmap string Fs.node) :
  k <> d -> Fs.below d k = false -> Fs.remove_tree d fs !! k = fs !! k.
Proof.
  intros Hne Hb. unfold Fs.remove_tree.
  destruct (fs !! k) as [n|] eqn:E.
  - apply map_lookup_filter_Some. split; [exact E|].
    cbn [fst]. rewrite Hb, orb_false_r.
    destruct (String.eqb_spec k d); [contradiction | reflexivity].
  - apply map_lookup_filter_None. left. exact E.
Qed.

Lemma strict_eq_str_false v s : v <> JStr s -> strict_eq_str v s = false.
Proof.
  destruct v; try reflexivity. cbn. intros H.
  destruct (String.eqb_spec s0 s); [subst; contradiction | reflexivity].
Qed.

(** [PUT /api/files] of the agent on a path that does not exist: [404], and
    the table of files is as before. *)
Lemma put_files_missing cfg req w r :
  authorization req = Some ("Bearer " +:+ Agent.AGENT_TOKEN cfg) ->
  truthy (get_prop (body req) "path") = true ->
  get_prop (body req) "content" <> JUndefined ->
  Agent.safePath cfg (Fs.cwd w) (get_prop (body req) "path") = inr r ->
  Fs.files w !! Fs.key w r = None ->
  Agent.put_files cfg req w
  = (Agent.error_response 404 "File not found", Fs.record (Fs.FsAccess r) w).
Proof.
  intros Ha Ht Hc Hs Hn.
  unfold Agent.put_files. rewrite (assertAuth_accepts _ _ Ha). cbn [fst negb].
  destruct (truthy_prop_object _ _ Ht) as [props Hb]. rewrite Hb in *.
  unfold destructure. rewrite bind_ret. rewrite Ht.
  assert (Agent.is_undefined (get_prop (JObj props) "content") = false) as Hu
    by (destruct (get_prop (JObj props) "content") eqn:Eq; auto; congruence).
  rewrite Hu. cbn [negb orb].
  unfold Agent.guarded.
  erewrite bind_inr by (unfold Agent.safePathM; rewrite Hs; reflexivity).
  erewrite bind_inr by (apply fileExists_absent; exact Hn).
  reflexivity.
Qed.

(** C8: [POST /api/files/update] of the application over [ProjectManager],
    on a path where no file exists, answers [200] and the file exists
    afterwards; the claim wants a [404] and no new file.  [PUT /api/files]
    of the agent answers [404] to the same update and leaves the files as
    they are. *)
Theorem server_update_creates_file :
  Fs.files world_cs !! "/workspaces/codespaces-blank/notes.txt" = None
  /\ fst (Server.post_files_update req_update_new world_cs)
     = json (JObj [("success", JBool true);
                   ("message", JStr "File updated: notes.txt");
                   ("path", JStr "../notes.txt")])
  /\ Fs.files (snd (Server.post_files_update req_update_new world_cs))
       !! "/workspaces/codespaces-blank/notes.txt" = Some (Fs.File "draft")
  /\ Agent.put_files cfg_cs req_put_new world_cs
     = (Agent.error_response 404 "File not found",
        Fs.record (Fs.FsAccess "/workspaces/codespaces-blank/notes.txt") world_cs).
Proof.
  split; [vm_compute; reflexivity|].
  split; [vm_compute; reflexivity|].
  split; [vm_compute; reflexivity|].
  apply put_files_missing; try reflexivity. discriminate.
Qed.

(** [DELETE /api/files] of the agent on a directory. *)
Lemma agent_delete_directory cfg req w r :
  authorization req = Some ("Bearer " +:+ Agent.AGENT_TOKEN cfg) ->
  Agent.safePath cfg (Fs.cwd w) (get_prop (query req) "path") = inr r ->
  Fs.files w !! Fs.key w r = Some Fs.Dir ->
  Agent.delete_files cfg req w
  = if strict_eq_str (get_prop (query req) "recursive") "true" then
      (json (JObj [("success", JBool true);
                   ("path", get_prop (query req) "path");
                   ("deleted", JBool true)]),
       Fs.set_files (Fs.remove_tree (Fs.key w r) (Fs.files w))
         (Fs.record (Fs.FsRm r true true)
            (Fs.record (Fs.FsStat r) (Fs.record (Fs.FsAccess r) w))))
    else
      (Agent.error_response 400 "Path is a directory",
       Fs.record (Fs.FsRm r false true)
         (Fs.record (Fs.FsStat r) (Fs.record (Fs.FsAccess r) w))).
Proof.
  intros Ha Hs Hd.
  unfold Agent.delete_files. rewrite (assertAuth_accepts _ _ Ha). cbn [fst negb].
  unfold Agent.guarded.
  erewrite bind_inr by (unfold Agent.safePathM; rewrite Hs; reflexivity).
  erewrite bind_inr by (apply fileExists_present with (n := Fs.Dir); exact Hd).
  cbn [negb].
  erewrite bind_inr by (apply getFileStats_present with (n := Fs.Dir); exact Hd).
  erewrite bind_inr by reflexivity.
  cbn [Agent.stats_of Agent.isDirectory].
  destruct (strict_eq_str _ _).
  - erewrite bind_inr by (apply rm_directory_recursive; exact Hd). reflexivity.
  - erewrite bind_inl by (apply rm_directory_plain; exact Hd). reflexivity.
Qed.

(** [deletePath] of [ProjectManager] on a directory. *)
Lemma server_delete_directory m u a q b p w :
  get_prop b "path" = JStr p ->
  let fullPath := NodePath.join [Server.basePath; p] in
  Fs.files w !! Fs.key w fullPath = Some Fs.Dir ->
  Server.post_files_delete (Request m u a q b) w
  = (json (JObj [("success", JBool true);
                 ("message", JStr ("Directory deleted: " +:+ p))]),
     Fs.set_files (Fs.remove_tree (Fs.key w fullPath) (Fs.files w))
       (Fs.record (Fs.FsRm fullPath true true) (Fs.record (Fs.FsStat fullPath) w))).
Proof.
  intros Hp fullPath Hd.
  unfold Server.post_files_delete, Server.respond. cbn [body].
  assert (exists props, b = JObj props) as [props ->]
    by (destruct b; try discriminate; eauto).
  unfold destructure. rewrite bind_ret. rewrite Hp.
  unfold ProjectManager.deletePath, ProjectManager.fullPathOf.
  rewrite bind_ret. fold fullPath.
  erewrite bind_inr; [reflexivity|].
  unfold ProjectManager.wrap, Fs.try_catch.
  erewrite bind_inr.
  2:{ unfold Fs.stat. cbn [Fs.files Fs.record].
      change (Fs.key (Fs.record _ w) fullPath) with (Fs.key w fullPath).
      rewrite Hd. reflexivity. }
  cbv beta iota.
  erewrite bind_inr by (apply rm_directory_recursive; exact Hd).
  reflexivity.
Qed.

(** C9, as stated, fails on the application over [ProjectManager]: its
    delete request has no recursive flag, and on the non-empty directory
    [src] it answers [200] and removes the directory with its file. *)
Lemma server_delete_without_flag : ~ server_delete_needs_flag.
Proof.
  intros H.
  destruct (H req_delete_src world_cs "src" eq_refl eq_refl) as [Hs _].
  - split; [reflexivity|].
    exists "/workspaces/codespaces-blank/src/app.js", (Fs.File "console.log(1)").
    split; reflexivity.
  - apply Hs. vm_compute. reflexivity.
Qed.

(** C9, amended: [DELETE /api/files] of the agent on a non-empty directory
    answers [400] and leaves every file and directory in place unless the
    query has [recursive=true]; with it the request succeeds, the directory
    and all below it are gone and [fileExists] reports the path absent.
    [POST /api/files/delete] of the application over [ProjectManager] takes
    no flag: it succeeds and removes the directory and all below it. *)
Theorem delete_directory :
  (forall (cfg : Agent.config) (req : request) (w : Fs.world) (r : string),
      authorization req = Some ("Bearer " +:+ Agent.AGENT_TOKEN cfg) ->
      Agent.safePath cfg (Fs.cwd w) (get_prop (query req) "path") = inr r ->
      Fs.non_empty_dir (Fs.files w) (Fs.key w r) ->
      let res := Agent.delete_files cfg req w in
      (get_prop (query req) "recursive" <> JStr "true" ->
       status (fst res) = 400 /\ Fs.files (snd res) = Fs.files w)
      /\ (get_prop (query req) "recursive" = JStr "true" ->
          status (fst res) = 200
          /\ Fs.files (snd res) !! Fs.key w r = None
          /\ (forall k, Fs.below (Fs.key w r) k = true -> Fs.files (snd res) !! k = None)
          /\ fst (Agent.fileExists r (snd res)) = inr false))
  /\ (forall (req : request) (w : Fs.world) (p : string),
         get_prop (body req) "path" = JStr p ->
         let d := Fs.key w (NodePath.join [Server.basePath; p]) in
         Fs.non_empty_dir (Fs.files w) d ->
         let res := Server.post_files_delete req w in
         status (fst res) = 200
         /\ Fs.files (snd res) !! d = None
         /\ (forall k, Fs.below d k = true -> Fs.files (snd res) !! k = None)).
Proof.
  split.
  - intros cfg req w r Ha Hs [Hd _] res. subst res.
    rewrite (agent_delete_directory cfg req w r Ha Hs Hd).
    split.
    + intros Hr. rewrite (strict_eq_str_false _ _ Hr). split; reflexivity.
    + intros Hr. rewrite Hr. cbn [strict_eq_str]. rewrite String.eqb_refl.
      cbn [fst snd status json].
      split; [reflexivity|].
      split; [apply remove_tree_root|].
      split; [intros k Hk; apply remove_tree_below; exact Hk|].
      erewrite fileExists_absent; [reflexivity|].
      apply remove_tree_root.
  - intros [m u a q b] w p Hp d [Hd _] res. subst res. cbn [body] in Hp.
    rewrite (server_delete_directory m u a q b p w Hp Hd).
    cbn [fst snd status json].
    split; [reflexivity|].
    split; [apply remove_tree_root|].
    intros k Hk. apply remove_tree_below. exact Hk.
Qed.

(** The theorem in the codespace, on the directory [src] and its file. *)
Lemma delete_directory_witness :
  Fs.non_empty_dir files_cs "/workspaces/codespaces-blank/src"
  /\ (status (fst (Agent.delete_files cfg_cs req_delete_src_plain world_cs)) = 400
      /\ Fs.files (snd (Agent.delete_files cfg_cs req_delete_src_plain world_cs))
         = files_cs)
  /\ (status (fst (Agent.delete_files cfg_cs req_delete_src_recursive world_cs)) = 200
      /\ Fs.files (snd (Agent.delete_files cfg_cs req_delete_src_recursive world_cs))
           !! "/workspaces/codespaces-blank/src" = None)
  /\ Fs.files (snd (Server.post_files_delete req_delete_src world_cs))
       !! "/workspaces/codespaces-blank/src" = None.
Proof.
  assert (Fs.non_empty_dir files_cs "/workspaces/codespaces-blank/src") as Hne.
  { split; [reflexivity|].
    exists "/workspaces/codespaces-blank/src/app.js", (Fs.File "console.log(1)").
    split; reflexivity. }
  split; [exact Hne|].
  destruct delete_directory as [Hagent Hserver].
  split; [|split].
  - apply (proj1 (Hagent cfg_cs req_delete_src_plain world_cs
                    "/workspaces/codespaces-blank/src" eq_refl eq_refl Hne)).
    discriminate.
  - pose proof (proj2 (Hagent cfg_cs req_delete_src_recursive world_cs
                         "/workspaces/codespaces-blank/src" eq_refl eq_refl Hne)
                  eq_refl) as [H1 [H2 _]].
    split; [exact H1 | exact H2].
  - exact (proj1 (proj2 (Hserver req_delete_src world_cs "src" eq_refl Hne))).
Defined.

(** ** Commands and their timeout *)

(** [runCommand] with the options [{ cwd }] of the handler: a command that
    is still running after 30 seconds is sent the kill signal and the
    promise resolves with [success: false]. *)
Lemma runCommand_timeout_kills basePath command cwd b :
  ChildProcess.spawn_error b = None ->
  match ChildProcess.duration b with
  | Some d => (30000 < d)%Z
  | None => True
  end ->
  ProjectManager.runCommand basePath command (ChildProcess.Options (Some cwd) None) b
  = (Some (JObj [("success", JBool false); ("command", JStr command);
                 ("stdout", JStr (trim (ChildProcess.out b)));
                 ("stderr", JStr (ProjectManager.str_or (trim (ChildProcess.err b))
                                    ("Command failed: " +:+ command)));
                 ("exitCode", jnat 1)]),
     ProjectManager.RunReport cwd (Some 30000%Z) true).
Proof.
  intros Hs Hd.
  unfold ProjectManager.runCommand, ChildProcess.exec, ChildProcess.run,
    ChildProcess.spread.
  cbn [ChildProcess.opt_cwd ChildProcess.opt_timeout]. rewrite Hs.
  destruct (ChildProcess.duration b) as [d|].
  - apply Z.ltb_lt in Hd. rewrite Hd. reflexivity.
  - reflexivity.
Qed.

(** [runCommandStream] with the options [{ cwd }] of the handler starts the
    child without a timeout and never sends it the kill signal. *)
Lemma runCommandStream_never_kills basePath command cwd b :
  snd (ProjectManager.runCommandStream basePath command
         (ChildProcess.Options (Some cwd) None) b)
  = ProjectManager.RunReport cwd None false.
Proof.
  unfold ProjectManager.runCommandStream, ChildProcess.run, ChildProcess.spread.
  cbn [ChildProcess.opt_cwd ChildProcess.opt_timeout].
  destruct (ChildProcess.spawn_error b); [reflexivity|].
  destruct (ChildProcess.duration b); reflexivity.
Qed.

(** C7: [POST /api/shell] with [stream: true] and a command that runs for a
    minute, twice the 30 seconds of the buffered path, starts the child
    without a timeout, never sends it the kill signal and answers
    [success: true] when it ends; with a command that never ends it never
    answers.  The claim wants [success: false] and the child killed.  The
    same command without [stream] is killed at 30 seconds and answered with
    [success: false]. *)
Theorem stream_command_outlives_timeout :
  Server.post_shell req_shell_stream_sleep behaviour_sleep60
  = (Some (json (JObj [("success", JBool true); ("command", JStr "sleep 60");
                       ("stdout", JStr EmptyString); ("stderr", JStr EmptyString);
                       ("exitCode", jnat 0)])),
     Some (ProjectManager.RunReport None None false))
  /\ Server.post_shell req_shell_stream_sleep behaviour_forever
     = (None, Some (ProjectManager.RunReport None None false))
  /\ Server.post_shell req_shell_sleep behaviour_sleep60
     = (Some (json (JObj [("success", JBool false); ("command", JStr "sleep 60");
                          ("stdout", JStr EmptyString);
                          ("stderr", JStr "Command failed: sleep 60");
                          ("exitCode", jnat 1)])),
        Some (ProjectManager.RunReport None (Some 30000%Z) true)).
Proof. repeat split; vm_compute; reflexivity. Qed.

(** ** The fuel of the JSON parser *)

Lemma skip_ws_length l : length (Json.skip_ws l) <= length l.
Proof.
  induction l as [|c l IH]; cbn [Json.skip_ws length]; [lia|].
  destruct (Json.is_ws c); cbn [length]; lia.
Qed.

Lemma parse_digits_length l : forall acc count,
  length (snd (Json.parse_digits acc count l)) <= length l.
Proof.
  induction l as [|c l IH]; intros acc count; cbn [Json.parse_digits]; [cbn; lia|].
  destruct (Json.digit_val c); cbn [snd length]; [|lia].
  specialize (IH (acc * 10 + n)%N (S count)). lia.
Qed.


Lemma strip_length c l r : Json.strip c l = Some r -> length l = S (length r).
Proof.
  destruct l as [|x l]; [discriminate|]. cbn [Json.strip].
  destruct (Ascii.eqb x c); [|discriminate]. intros [= ->]. reflexivity.
Qed.

Lemma strip_word_length w : forall l r,
  Json.strip_word w l = Some r -> length r <= length l.
Proof.
  induction w as [|c w IH]; intros l r; cbn [Json.strip_word].
  - intros [= ->]. lia.
  - destruct (Json.strip c l) as [r0|] eqn:E; [|discriminate].
    intros H. apply IH in H. apply strip_length in E. lia.
Qed.

Lemma continue_parsed bytes x s r :
  Json.continue bytes x = Json.Parsed s r -> exists s', x = Json.Parsed s' r.
Proof. destruct x; try discriminate. intros [= _ ->]. eauto. Qed.

Lemma continue_fuel bytes x :
  Json.continue bytes x = Json.OutOfFuel -> x = Json.OutOfFuel.
Proof. destruct x; try discriminate. reflexivity. Qed.

(** A string literal needs no fuel and consumes its closing quote. *)
Lemma parse_string_body_length n : forall l,
  length l <= n ->
  Json.parse_string_body l <> Json.OutOfFuel
  /\ forall s r, Json.parse_string_body l = Json.Parsed s r -> length r < length l.
Proof.
  induction n as [|n IH]; intros l Hl.
  - destruct l; [|cbn in Hl; lia]. split; [discriminate|]. intros s r [=].
  - destruct l as [|c rest]; [split; [discriminate | intros s r [=]]|].
    cbn [length] in Hl.
    assert (forall l' bytes, length l' <= n ->
              Json.continue bytes (Json.parse_string_body l') <> Json.OutOfFuel
              /\ forall s r, Json.continue bytes (Json.parse_string_body l')
                             = Json.Parsed s r -> length r < length l') as Hc.
    { intros l' bytes Hl'. destruct (IH l' Hl') as [Hf Hp]. split.
      - intros H. apply continue_fuel in H. contradiction.
      - intros s r H. apply continue_parsed in H as [s' H]. eapply Hp, H. }
    cbn [Json.parse_string_body].
    destruct (Ascii.eqb c "034").
    { split; [discriminate|]. intros s r [= _ <-]. cbn [length]. lia. }
    destruct (Ascii.eqb c "\").
    2:{ destruct (N_of_ascii c <? 32)%N; [split; [discriminate | intros s r [=]]|].
        destruct (Hc rest [c] ltac:(lia)) as [Hf Hp]. split; [exact Hf|].
        intros s r H. apply Hp in H. cbn [length]. lia. }
    destruct rest as [|e rest0]; [split; [discriminate | intros s r [=]]|].
    cbn [length] in *.
    destruct (Ascii.eqb e "u").
    2:{ destruct (Json.simple_escape e) as [ch|];
          [|split; [discriminate | intros s r [=]]].
        destruct (Hc rest0 [ch] ltac:(lia)) as [Hf Hp]. split; [exact Hf|].
        intros s r H. apply Hp in H. lia. }
    destruct rest0 as [|a [|b [|c0 [|d rest1]]]];
      try (split; [discriminate | intros s r [=]]).
    cbn [length] in *.
    destruct (Json.hex4 a b c0 d) as [u|]; [|split; [discriminate | intros s r [=]]].
    assert (Json.continue (Json.utf8 u) (Json.parse_string_body rest1)
            <> Json.OutOfFuel
            /\ forall s r, Json.continue (Json.utf8 u) (Json.parse_string_body rest1)
                           = Json.Parsed s r -> length r < S (S (S (S (S (S (length rest1)))))))
      as Hplain.
    { destruct (Hc rest1 (Json.utf8 u) ltac:(lia)) as [Hf Hp]. split; [exact Hf|].
      intros s r H. apply Hp in H. lia. }
    destruct rest1 as [|bs [|u' [|a' [|b' [|c' [|d' rest2]]]]]]; try exact Hplain.
    destruct (if Json.is_high_surrogate u
              then Json.low_surrogate bs u' a' b' c' d' else None) as [low|];
      [|exact Hplain].
    cbn [length] in *.
    destruct (Hc rest2 (Json.utf8 (65536 + (u - 55296) * 1024 + (low - 56320)))
                ltac:(lia)) as [Hf Hp].
    split; [exact Hf|]. intros s r H. apply Hp in H. lia.
Qed.

Lemma parse_digits1_length acc l n k r :
  Json.parse_digits1 acc l = Some (n, k, r) -> length r <= length l.
Proof.
  unfold Json.parse_digits1.
  pose proof (parse_digits_length l acc 0) as H.
  destruct (Json.parse_digits acc 0 l) as [[n' k'] r']. cbn [snd] in H.
  destruct k'; [discriminate|]. intros [= _ _ <-]. exact H.
Qed.

Lemma parse_exponent_length l e r :
  Json.parse_exponent l = Some (Some (e, r)) -> length r <= length l.
Proof.
  unfold Json.parse_exponent.
  assert (forall r0, match Json.strip "e" l with
                     | Some r1 => Some r1
                     | None => Json.strip "E" l
                     end = Some r0 -> length l = S (length r0)) as He.
  { intros r0. destruct (Json.strip "e" l) eqn:E1.
    - intros [= <-]. exact (strip_length _ _ _ E1).
    - apply strip_length. }
  destruct (match Json.strip "e" l with
            | Some r1 => Some r1
            | None => Json.strip "E" l
            end) as [r0|]; [|discriminate].
  specialize (He r0 eq_refl).
  assert (forall sign r', (match Json.strip "+" r0 with
                           | Some r' => (1%Z, r')
                           | None => match Json.strip "-" r0 with
                                     | Some r' => ((-1)%Z, r')
                                     | None => (1%Z, r0)
                                     end
                           end) = (sign, r') -> length r' <= length r0) as Hs.
  { intros sign r'. destruct (Json.strip "+" r0) eqn:E1.
    - intros [= _ <-]. apply strip_length in E1. lia.
    - destruct (Json.strip "-" r0) eqn:E2.
      + intros [= _ <-]. apply strip_length in E2. lia.
      + intros [= _ <-]. lia. }
  destruct (match Json.strip "+" r0 with
            | Some r' => (1%Z, r')
            | None => match Json.strip "-" r0 with
                      | Some r' => ((-1)%Z, r')
                      | None => (1%Z, r0)
                      end
            end) as [sign r'].
  specialize (Hs sign r' eq_refl).
  destruct (Json.parse_digits1 0 r') as [[[e' k] r'']|] eqn:Ed; [|discriminate].
  apply parse_digits1_length in Ed. intros [= _ <-]. lia.
Qed.

Lemma parse_number_length l v r :
  Json.parse_number l = Json.Parsed v r -> length r <= length l.
Proof.
  unfold Json.parse_number.
  assert (forall neg l1, (match Json.strip "-" l with
                          | Some r => (true, r)
                          | None => (false, l)
                          end) = (neg, l1) -> length l1 <= length l) as Hn.
  { intros neg l1. destruct (Json.strip "-" l) eqn:E.
    - intros [= _ <-]. apply strip_length in E. lia.
    - intros [= _ <-]. lia. }
  destruct (match Json.strip "-" l with
            | Some r => (true, r)
            | None => (false, l)
            end) as [neg l1].
  specialize (Hn neg l1 eq_refl).
  assert (forall n k l2, (match Json.strip "0" l1 with
                          | Some r => Some (0%N, O, r)
                          | None => Json.parse_digits1 0 l1
                          end) = Some (n, k, l2) -> length l2 <= length l1) as Hi.
  { intros n k l2. destruct (Json.strip "0" l1) eqn:E.
    - intros [= _ _ <-]. apply strip_length in E. lia.
    - apply parse_digits1_length. }
  destruct (match Json.strip "0" l1 with
            | Some r => Some (0%N, O, r)
            | None => Json.parse_digits1 0 l1
            end) as [[[n k0] l2]|]; [|discriminate].
  specialize (Hi n k0 l2 eq_refl).
  assert (forall m k l3, (match Json.strip "." l2 with
                          | Some r => Json.parse_digits1 n r
                          | None => Some (n, O, l2)
                          end) = Some (m, k, l3) -> length l3 <= length l2) as Hf.
  { intros m k l3. destruct (Json.strip "." l2) eqn:E.
    - intros H. apply parse_digits1_length in H. apply strip_length in E. lia.
    - intros [= _ _ <-]. lia. }
  destruct (match Json.strip "." l2 with
            | Some r => Json.parse_digits1 n r
            | None => Some (n, O, l2)
            end) as [[[m k] l3]|]; [|discriminate].
  specialize (Hf m k l3 eq_refl).
  destruct (Json.parse_exponent l3) as [[[e r']|]|] eqn:Ee; try discriminate.
  - apply parse_exponent_length in Ee. intros [= _ <-]. lia.
  - intros [= _ <-]. lia.
Qed.

Lemma parse_number_fuel l : Json.parse_number l <> Json.OutOfFuel.
Proof.
  unfold Json.parse_number.
  destruct (match Json.strip "-" l with
            | Some r => (true, r)
            | None => (false, l)
            end) as [neg l1].
  destruct (match Json.strip "0" l1 with
            | Some r => Some (0%N, O, r)
            | None => Json.parse_digits1 0 l1
            end) as [[[n k0] l2]|]; [|discriminate].
  destruct (match Json.strip "." l2 with
            | Some r => Json.parse_digits1 n r
            | None => Some (n, O, l2)
            end) as [[[m k] l3]|]; [|discriminate].
  destruct (Json.parse_exponent l3) as [[[e r']|]|]; discriminate.
Qed.

Lemma parse_literal_length l v r :
  Json.parse_literal l = Json.Parsed v r -> length r <= length l.
Proof.
  unfold Json.parse_literal.
  destruct (Json.strip_word (Json.word "true") l) eqn:E1;
    [intros [= _ <-]; eapply strip_word_length, E1|].
  destruct (Json.strip_word (Json.word "false") l) eqn:E2;
    [intros [= _ <-]; eapply strip_word_length, E2|].
  destruct (Json.strip_word (Json.word "null") l) eqn:E3;
    [intros [= _ <-]; eapply strip_word_length, E3|].
  apply parse_number_length.
Qed.

Lemma parse_literal_fuel l : Json.parse_literal l <> Json.OutOfFuel.
Proof.
  unfold Json.parse_literal.
  destruct (Json.strip_word (Json.word "true") l); [discriminate|].
  destruct (Json.strip_word (Json.word "false") l); [discriminate|].
  destruct (Json.strip_word (Json.word "null") l); [discriminate|].
  apply parse_number_fuel.
Qed.

Lemma map_result_parsed {A B} (f : A -> B) x v r :
  Json.map_result f x = Json.Parsed v r -> exists a, x = Json.Parsed a r.
Proof. destruct x; try discriminate. intros [= _ ->]. eauto. Qed.

Lemma map_result_fuel {A B} (f : A -> B) x :
  Json.map_result f x = Json.OutOfFuel -> x = Json.OutOfFuel.
Proof. destruct x; try discriminate. reflexivity. Qed.

(** What a parser leaves is no longer than what it was given. *)
Lemma parse_length fuel :
  (forall l v r, Json.parse_value fuel l = Json.Parsed v r -> length r <= length l)
  /\ (forall l v r, Json.parse_members fuel l = Json.Parsed v r -> length r <= length l)
  /\ (forall l v r, Json.parse_elements fuel l = Json.Parsed v r -> length r <= length l).
Proof.
  induction fuel as [|fuel [IHv [IHm IHe]]]; [repeat split; intros l v r [=]|].
  repeat split; intros l v r.
  - cbn [Json.parse_value].
    pose proof (skip_ws_length l) as Hw.
    destruct (Json.skip_ws l) as [|c l0]; [discriminate|]. cbn [length] in Hw.
    destruct (Ascii.eqb c "{").
    { destruct (Json.strip "}" (Json.skip_ws l0)) eqn:E.
      - intros [= _ <-]. apply strip_length in E.
        pose proof (skip_ws_length l0). lia.
      - intros H. apply map_result_parsed in H as [a H]. apply IHm in H. lia. }
    destruct (Ascii.eqb c "[").
    { destruct (Json.strip "]" (Json.skip_ws l0)) eqn:E.
      - intros [= _ <-]. apply strip_length in E.
        pose proof (skip_ws_length l0). lia.
      - intros H. apply map_result_parsed in H as [a H]. apply IHe in H. lia. }
    destruct (Ascii.eqb c "034").
    { intros H. apply map_result_parsed in H as [a H].
      apply (parse_string_body_length (length l0) l0 (le_n _)) in H. lia. }
    intros H. apply parse_literal_length in H. cbn [length] in H. lia.
  - cbn [Json.parse_members].
    pose proof (skip_ws_length l) as Hw.
    destruct (Json.strip "034" (Json.skip_ws l)) as [r0|] eqn:E0; [|discriminate].
    apply strip_length in E0.
    destruct (Json.parse_string_body r0) as [| |k r1] eqn:Es; try discriminate.
    apply (parse_string_body_length (length r0) r0 (le_n _)) in Es.
    pose proof (skip_ws_length r1) as Hw1.
    destruct (Json.strip ":" (Json.skip_ws r1)) as [r2|] eqn:E2; [|discriminate].
    apply strip_length in E2.
    destruct (Json.parse_value fuel r2) as [| |v0 r3] eqn:Ev; try discriminate.
    apply IHv in Ev.
    pose proof (skip_ws_length r3) as Hw3.
    destruct (Json.skip_ws r3) as [|c r4]; [discriminate|]. cbn [length] in Hw3.
    destruct (Ascii.eqb c ",").
    { intros H. apply map_result_parsed in H as [a H]. apply IHm in H. lia. }
    destruct (Ascii.eqb c "}"); [|discriminate].
    intros [= _ <-]. lia.
  - cbn [Json.parse_elements].
    destruct (Json.parse_value fuel l) as [| |v0 r1] eqn:Ev; try discriminate.
    apply IHv in Ev.
    pose proof (skip_ws_length r1) as Hw1.
    destruct (Json.skip_ws r1) as [|c r2]; [discriminate|]. cbn [length] in Hw1.
    destruct (Ascii.eqb c ",").
    { intros H. apply map_result_parsed in H as [a H]. apply IHe in H. lia. }
    destruct (Ascii.eqb c "]"); [|discriminate].
    intros [= _ <-]. lia.
Qed.

(** With two units of fuel for each character the descent never runs out. *)
Lemma parse_fuel fuel :
  (forall l, 2 * length l < fuel -> Json.parse_value fuel l <> Json.OutOfFuel)
  /\ (forall l, 2 * length l < fuel -> Json.parse_members fuel l <> Json.OutOfFuel)
  /\ (forall l, 2 * length l + 1 < fuel -> Json.parse_elements fuel l <> Json.OutOfFuel).
Proof.
  induction fuel as [|fuel [IHv [IHm IHe]]]; [repeat split; intros l H; lia|].
  destruct (parse_length fuel) as [Lv [Lm Le]].
  repeat split; intros l Hf.
  - cbn [Json.parse_value].
    pose proof (skip_ws_length l) as Hw.
    destruct (Json.skip_ws l) as [|c l0]; [discriminate|]. cbn [length] in Hw.
    destruct (Ascii.eqb c "{").
    { destruct (Json.strip "}" (Json.skip_ws l0)); [discriminate|].
      intros H. apply map_result_fuel in H. revert H. apply IHm. lia. }
    destruct (Ascii.eqb c "[").
    { destruct (Json.strip "]" (Json.skip_ws l0)); [discriminate|].
      intros H. apply map_result_fuel in H. revert H. apply IHe. lia. }
    destruct (Ascii.eqb c "034").
    { intros H. apply map_result_fuel in H. revert H.
      apply (proj1 (parse_string_body_length (length l0) l0 (le_n _))). }
    apply parse_literal_fuel.
  - cbn [Json.parse_members].
    pose proof (skip_ws_length l) as Hw.
    destruct (Json.strip "034" (Json.skip_ws l)) as [r0|] eqn:E0; [|discriminate].
    apply strip_length in E0.
    destruct (Json.parse_string_body r0) as [| |k r1] eqn:Es; try discriminate.
    { exfalso. revert Es.
      apply (proj1 (parse_string_body_length (length r0) r0 (le_n _))). }
    apply (parse_string_body_length (length r0) r0 (le_n _)) in Es.
    pose proof (skip_ws_length r1) as Hw1.
    destruct (Json.strip ":" (Json.skip_ws r1)) as [r2|] eqn:E2; [|discriminate].
    apply strip_length in E2.
    destruct (Json.parse_value fuel r2) as [| |v0 r3] eqn:Ev; try discriminate.
    { exfalso. revert Ev. apply IHv. lia. }
    apply Lv in Ev.
    pose proof (skip_ws_length r3) as Hw3.
    destruct (Json.skip_ws r3) as [|c r4]; [discriminate|]. cbn [length] in Hw3.
    destruct (Ascii.eqb c ",").
    { intros H. apply map_result_fuel in H. revert H. apply IHm. lia. }
    destruct (Ascii.eqb c "}"); discriminate.
  - cbn [Json.parse_elements].
    destruct (Json.parse_value fuel l) as [| |v0 r1] eqn:Ev; try discriminate.
    { exfalso. revert Ev. apply IHv. lia. }
    apply Lv in Ev.
    pose proof (skip_ws_length r1) as Hw1.
    destruct (Json.skip_ws r1) as [|c r2]; [discriminate|]. cbn [length] in Hw1.
    destruct (Ascii.eqb c ",").
    { intros H. apply map_result_fuel in H. revert H. apply IHe. lia. }
    destruct (Ascii.eqb c "]"); discriminate.
Qed.

(** The fuel [JSON.parse] starts with is enough for every text: a [None]
    of [Json.parse] is a syntax error, never exhaustion. *)
Lemma parse_value_fuel (text : string) :
  let l := list_ascii_of_string text in
  Json.parse_value (2 * S (length l)) l <> Json.OutOfFuel.
Proof. intros l. apply (parse_fuel (2 * S (length l))). lia. Qed.

(** The working directory a request names for its command is handed to
    [child_process] as it is. *)
Lemma server_shell_cwd_unchecked :
  snd (Server.post_shell
         (Request "POST" "/api/shell" None (JObj [])
            (JObj [("command", JStr "ls"); ("cwd", JStr "/etc")]))
         behaviour_id)
  = Some (ProjectManager.RunReport (Some "/etc") (Some 30000%Z) false).
Proof. vm_compute. reflexivity. Qed.

(** ** The paths the agent's handlers hand to the filesystem *)

Lemma only_touches_ret {A} r (a : A) : Fs.only_touches r (Fs.ret a).
Proof. intros w. exists []. split; [symmetry; apply app_nil_r | constructor]. Qed.

Lemma only_touches_throw {A} r e : Fs.only_touches r (@Fs.throw A e).
Proof. intros w. exists []. split; [symmetry; apply app_nil_r | constructor]. Qed.

Lemma only_touches_bind {A B} r (m : Fs.M A) (k : A -> Fs.M B) :
  Fs.only_touches r m -> (forall a, Fs.only_touches r (k a)) ->
  Fs.only_touches r (Fs.bind m k).
Proof.
  intros Hm Hk w. unfold Fs.bind.
  destruct (Hm w) as [cs [E F]]. destruct (m w) as [[e|a] w']; cbn [snd] in *.
  - exists cs. split; assumption.
  - destruct (Hk a w') as [cs' [E' F']].
    exists (cs ++ cs'). split; [|apply Forall_app; split; assumption].
    rewrite E', E. symmetry. apply app_assoc.
Qed.

Lemma only_touches_try_catch {A} r (m : Fs.M A) (h : Fs.error -> Fs.M A) :
  Fs.only_touches r m -> (forall e, Fs.only_touches r (h e)) ->
  Fs.only_touches r (Fs.try_catch m h).
Proof.
  intros Hm Hh w. unfold Fs.try_catch.
  destruct (Hm w) as [cs [E F]]. destruct (m w) as [[e|a] w']; cbn [snd] in *.
  - destruct (Hh e w') as [cs' [E' F']].
    exists (cs ++ cs'). split; [|apply Forall_app; split; assumption].
    rewrite E', E. symmetry. apply app_assoc.
  - exists cs. split; assumption.
Qed.

Lemma only_touches_primitives r :
  Fs.only_touches r (Fs.access r)
  /\ Fs.only_touches r (Fs.stat r)
  /\ Fs.only_touches r (Fs.readFile r)
  /\ (forall c, Fs.only_touches r (Fs.writeFile r c))
  /\ (forall b, Fs.only_touches r (Fs.mkdir r b))
  /\ (forall b f, Fs.only_touches r (Fs.rm r b f))
  /\ Fs.only_touches r (Fs.unlink r).
Proof.
  repeat split; intros; intros w;
    match goal with
    | |- context [snd (?op w)] =>
        exists (skipn (length (Fs.calls w)) (Fs.calls (snd (op w))))
    end.
  all: unfold Fs.access, Fs.stat, Fs.readFile, Fs.writeFile, Fs.mkdir, Fs.rm, Fs.unlink.
  all: cbv zeta.
  all: repeat match goal with
         | |- context [match ?x with _ => _ end] => destruct x
         end.
  all: cbn [snd Fs.calls Fs.record Fs.set_files].
  all: rewrite skipn_app, skipn_all, Nat.sub_diag; cbn [skipn app].
  all: split; [reflexivity | repeat constructor].
Qed.

Lemma guarded_calls (m : Fs.M response) w :
  Fs.calls (snd (Agent.guarded m w)) = Fs.calls (snd (m w)).
Proof. unfold Agent.guarded. destruct (m w) as [[e|r] w']; reflexivity. Qed.

Ltac touches :=
  repeat first
    [ apply only_touches_ret
    | apply only_touches_throw
    | apply only_touches_bind
    | apply only_touches_try_catch
    | apply only_touches_primitives
    | progress intros
    | match goal with
      | |- Fs.only_touches _ (if ?b then _ else _) => destruct b
      | |- Fs.only_touches _ (match ?x with _ => _ end) => destruct x
      end
    | progress unfold Agent.fileExists, Agent.getFileStats, Agent.stats_field,
        Agent.writeFile_value, Agent.mkdir_value ].

(** X29: once [safePath] has returned [r], the handlers for reading,
    updating, deleting, stat and mkdir ask the filesystem about [r] and
    nothing else. *)
Lemma agent_touches_resolved cfg req w r :
  authorization req = Some ("Bearer " +:+ Agent.AGENT_TOKEN cfg) ->
  let touches_r (h : request -> Fs.world -> response * Fs.world) :=
    exists cs, Fs.calls (snd (h req w)) = Fs.calls w ++ cs
               /\ Forall (fun c => Fs.call_path c = r) cs in
  (Agent.safePath cfg (Fs.cwd w) (get_prop (query req) "path") = inr r ->
   touches_r (Agent.get_files cfg) /\ touches_r (Agent.delete_files cfg)
   /\ touches_r (Agent.get_stat cfg))
  /\ (Agent.safePath cfg (Fs.cwd w) (get_prop (body req) "path") = inr r ->
      touches_r (Agent.put_files cfg) /\ touches_r (Agent.post_mkdir cfg)).
Proof.
  intros Ha touches_r. subst touches_r. cbv beta.
  pose proof (assertAuth_accepts cfg req Ha) as E.
  unfold Agent.get_files, Agent.delete_files, Agent.get_stat, Agent.put_files,
    Agent.post_mkdir.
  rewrite E.
  split.
  - intros Hs. repeat split; rewrite guarded_calls;
      (erewrite bind_inr by (unfold Agent.safePathM; rewrite Hs; reflexivity));
      match goal with
      | |- context [snd (?m w)] => assert (Fs.only_touches r m) as H by touches
      end; apply H.
  - intros Hs.
    destruct (safePath_inr _ _ _ _ Hs) as [[s [Hp [Hne _]]] _].
    assert (truthy (get_prop (body req) "path") = true) as Ht.
    { rewrite Hp. cbn. destruct s; [contradiction | reflexivity]. }
    destruct (truthy_prop_object _ _ Ht) as [props Hb]. rewrite Hb in *.
    unfold destructure. rewrite !bind_ret. rewrite Ht. cbn [negb orb].
    split; rewrite guarded_calls.
    + destruct (Agent.is_undefined _).
      * exists []. split; [symmetry; apply app_nil_r | constructor].
      * erewrite bind_inr by (unfold Agent.safePathM; rewrite Hs; reflexivity).
        match goal with
        | |- context [snd (?m w)] => assert (Fs.only_touches r m) as H by touches
        end. apply H.
    + erewrite bind_inr by (unfold Agent.safePathM; rewrite Hs; reflexivity).
      match goal with
      | |- context [snd (?m w)] => assert (Fs.only_touches r m) as H by touches
      end. apply H.
Qed.

(** For the handler a frame is a control message from its first character
    on: the ping message after a space is terminal input, and a lone brace
    typed in the terminal is dropped. *)
Lemma on_message_first_character :
  Agent.on_message session_cs (" " +:+ ping_frame)
  = [Agent.ShellWrite 7 (" " +:+ ping_frame)]
  /\ Agent.on_message session_cs "{" = [].
Proof. split; reflexivity. Qed.


(** * Further properties *)

(** ** Normal forms of paths *)

Lemma append_assoc (a b c : string) : (a +:+ b) +:+ c = a +:+ (b +:+ c).
Proof.
  induction a as [|x a IH]; [reflexivity|].
  change (String x ((a +:+ b) +:+ c) = String x (a +:+ (b +:+ c))).
  now rewrite IH.
Qed.

Lemma append_nil_r (a : string) : a +:+ EmptyString = a.
Proof.
  induction a as [|x a IH]; [reflexivity|].
  change (String x (a +:+ EmptyString) = String x a). now rewrite IH.
Qed.

Lemma split_nonempty s : NodePath.split s <> [].
Proof.
  destruct s as [|c s]; cbn; [discriminate|].
  destruct (NodePath.is_sep c); [discriminate|].
  destruct (NodePath.split s); discriminate.
Qed.

(** Splitting distributes over a separator. *)
Lemma split_app (a b : string) :
  NodePath.split (a +:+ "/" +:+ b) = NodePath.split a ++ NodePath.split b.
Proof.
  induction a as [|c a IH]; [reflexivity|].
  change (String c a +:+ "/" +:+ b) with (String c (a +:+ "/" +:+ b)).
  cbn [NodePath.split]. rewrite IH.
  destruct (NodePath.is_sep c); [reflexivity|].
  pose proof (split_nonempty a) as Hn.
  destruct (NodePath.split a); [contradiction | reflexivity].
Qed.

Lemma split_no_sep s : NodePath.has_sep s = false -> NodePath.split s = [s].
Proof.
  induction s as [|c s IH]; [reflexivity|].
  cbn [NodePath.has_sep NodePath.split]. intros H.
  apply orb_false_elim in H as [Hc Hs]. rewrite Hc, (IH Hs). reflexivity.
Qed.

Lemma split_segments s : Forall (fun x => NodePath.has_sep x = false) (NodePath.split s).
Proof.
  induction s as [|c s IH]; [repeat constructor|].
  cbn [NodePath.split]. destruct (NodePath.is_sep c) eqn:Hc.
  - constructor; [reflexivity | exact IH].
  - destruct (NodePath.split s) as [|seg segs]; [repeat constructor; cbn; now rewrite Hc|].
    apply Forall_cons_iff in IH as [H1 H2].
    constructor; [cbn; now rewrite Hc, H1 | exact H2].
Qed.

Lemma clean_segment_spec s :
  NodePath.clean_segment s = true ->
  NodePath.has_sep s = false /\ String.eqb s EmptyString = false
  /\ String.eqb s "." = false /\ String.eqb s ".." = false.
Proof.
  unfold NodePath.clean_segment. intros H.
  repeat (apply andb_prop in H as [H ?]).
  repeat split; apply negb_true_iff; assumption.
Qed.

(** Normalisation runs over a list in pieces. *)
Lemma normalizeSegs_app a l1 : forall res l2,
  NodePath.normalizeSegs a res (l1 ++ l2)
  = NodePath.normalizeSegs a (rev (NodePath.normalizeSegs a res l1)) l2.
Proof.
  induction l1 as [|seg l1 IH]; intros res l2.
  - cbn. now rewrite rev_involutive.
  - cbn [app NodePath.normalizeSegs].
    destruct (String.eqb seg EmptyString || String.eqb seg "."); [apply IH|].
    destruct (String.eqb seg ".."); [|apply IH].
    destruct res as [|top res']; [apply IH|].
    destruct (String.eqb top ".."); apply IH.
Qed.

(** Clean segments are kept, in order. *)
Lemma normalizeSegs_clean a segs : forall res,
  Forall (fun s => NodePath.clean_segment s = true) segs ->
  NodePath.normalizeSegs a res segs = rev res ++ segs.
Proof.
  induction segs as [|seg segs IH]; intros res H.
  - cbn. now rewrite app_nil_r.
  - apply Forall_cons_iff in H as [Hs H].
    destruct (clean_segment_spec _ Hs) as [_ [H1 [H2 H3]]].
    cbn [NodePath.normalizeSegs]. rewrite H1, H2, H3. cbn [orb].
    rewrite (IH _ H). cbn [rev]. now rewrite <- app_assoc.
Qed.

(** Without leave to climb above the root, what normalisation keeps is
    clean. *)
Lemma normalizeSegs_gives_clean segs : forall res,
  Forall (fun x => NodePath.has_sep x = false) segs ->
  Forall (fun s => NodePath.clean_segment s = true) res ->
  Forall (fun s => NodePath.clean_segment s = true)
    (NodePath.normalizeSegs false res segs).
Proof.
  induction segs as [|seg segs IH]; intros res Hs Hr.
  - cbn. apply Forall_rev. exact Hr.
  - apply Forall_cons_iff in Hs as [H1 Hs].
    cbn [NodePath.normalizeSegs].
    destruct (String.eqb seg EmptyString) eqn:E1; [apply IH; assumption|].
    destruct (String.eqb seg ".") eqn:E2; [apply IH; assumption|]. cbn [orb].
    destruct (String.eqb seg "..") eqn:E3.
    + destruct res as [|top res']; [apply IH; assumption|].
      apply Forall_cons_iff in Hr as [Ht Hr'].
      destruct (String.eqb top ".."); apply IH; try assumption.
      constructor; assumption.
    + apply IH; [assumption|]. constructor; [|assumption].
      unfold NodePath.clean_segment. now rewrite H1, E1, E2, E3.
Qed.

Lemma resolve_loop_absolute cwd l : forall acc,
  NodePath.isAbsolute cwd = true ->
  snd (NodePath.resolve_loop (l ++ [cwd]) acc) = true.
Proof.
  induction l as [|p l IH]; intros acc Hc.
  - cbn [app NodePath.resolve_loop].
    destruct (String.eqb_spec cwd EmptyString) as [->|]; [discriminate|].
    rewrite Hc. reflexivity.
  - cbn [app NodePath.resolve_loop].
    destruct (String.eqb p EmptyString); [apply IH; exact Hc|].
    destruct (NodePath.isAbsolute p); [reflexivity | apply IH; exact Hc].
Qed.

(** In a process whose working directory is absolute, [path.resolve]
    returns an absolute path in normal form. *)
Lemma resolve_canonical cwd args :
  NodePath.isAbsolute cwd = true -> NodePath.canonical (NodePath.resolve cwd args).
Proof.
  intros Hc. unfold NodePath.resolve.
  pose proof (resolve_loop_absolute cwd (rev args) EmptyString Hc) as Ha.
  destruct (NodePath.resolve_loop (rev args ++ [cwd]) EmptyString) as [rp abs].
  cbn [snd] in Ha. subst abs. cbn [negb].
  exists (NodePath.normalizeSegs false [] (NodePath.split rp)).
  split; [reflexivity|].
  apply normalizeSegs_gives_clean; [apply split_segments | constructor].
Qed.

(** The segments of a path in normal form, with or without a trailing
    separator, are its clean segments. *)
Lemma split_concat segs :
  Forall (fun s => NodePath.clean_segment s = true) segs ->
  forall res a,
    NodePath.normalizeSegs a res (NodePath.split (String.concat "/" segs))
    = rev res ++ segs.
Proof.
  induction segs as [|x segs IH]; intros H res a.
  - cbn. now rewrite app_nil_r.
  - pose proof H as H'. apply Forall_cons_iff in H' as [Hx Hr].
    destruct segs as [|y segs].
    + cbn [String.concat].
      destruct (clean_segment_spec _ Hx) as [Hs _].
      rewrite (split_no_sep _ Hs). apply normalizeSegs_clean. exact H.
    + change (String.concat "/" (x :: y :: segs))
        with (x +:+ "/" +:+ String.concat "/" (y :: segs)).
      rewrite split_app.
      destruct (clean_segment_spec _ Hx) as [Hs _].
      rewrite (split_no_sep _ Hs).
      rewrite normalizeSegs_app.
      rewrite (normalizeSegs_clean a [x] res) by (constructor; [exact Hx | constructor]).
      rewrite (IH Hr). rewrite rev_involutive. now rewrite <- app_assoc.
Qed.

Lemma normalize_canonical_slash segs a :
  Forall (fun s => NodePath.clean_segment s = true) segs ->
  NodePath.normalizeString (("/" +:+ String.concat "/" segs) +:+ "/") a
  = String.concat "/" segs.
Proof.
  intros H. unfold NodePath.normalizeString.
  rewrite append_assoc.
  change ("/" +:+ String.concat "/" segs +:+ "/")
    with (EmptyString +:+ "/" +:+ (String.concat "/" segs +:+ "/" +:+ EmptyString)).
  rewrite split_app, split_app.
  rewrite !normalizeSegs_app.
  change (NodePath.normalizeSegs a [] (NodePath.split EmptyString)) with (@nil string).
  cbn [rev].
  rewrite (split_concat segs H [] a). cbn [rev app].
  change (NodePath.split EmptyString) with [EmptyString].
  cbn [NodePath.normalizeSegs]. cbn. now rewrite rev_involutive.
Qed.

(** [path.resolve] leaves an absolute path in normal form as it is,
    whatever comes before it. *)
Lemma resolve_canonical_id cwd before p :
  NodePath.canonical p -> NodePath.resolve cwd (before ++ [p]) = p.
Proof.
  intros [segs [-> H]]. unfold NodePath.resolve.
  rewrite rev_app_distr. cbn [rev app NodePath.resolve_loop].
  change (String.eqb ("/" +:+ String.concat "/" segs) EmptyString) with false.
  cbv iota.
  change (NodePath.isAbsolute ("/" +:+ String.concat "/" segs))
    with (String.prefix "/" (String "/" (String.concat "/" segs))).
  rewrite prefix_cons, prefix_nil.
  destruct (ascii_dec "/" "/") as [_|n]; [|contradiction].
  cbn [negb].
  replace (("/" +:+ String.concat "/" segs) +:+ "/" +:+ EmptyString)
    with (("/" +:+ String.concat "/" segs) +:+ "/")
    by (now rewrite (append_nil_r "/")).
  rewrite (normalize_canonical_slash segs false H). reflexivity.
Qed.

(** ** More on the path sandbox *)

Lemma canonical_absolute p : NodePath.canonical p -> NodePath.isAbsolute p = true.
Proof.
  intros [segs [-> _]]. unfold NodePath.isAbsolute, startsWith.
  change ("/" +:+ String.concat "/" segs) with (String "/" (String.concat "/" segs)).
  rewrite prefix_cons, prefix_nil.
  destruct (ascii_dec "/" "/"); [reflexivity | contradiction].
Qed.

(** X1: in a process whose working directory is absolute, what [safePath]
    returns is in normal form: the root followed by segments none of which
    is empty, [.] or [..]. *)
Theorem safePath_canonical (cfg : Agent.config) (cwd : string) (p : jsval) (r : string) :
  NodePath.isAbsolute cwd = true ->
  Agent.safePath cfg cwd p = inr r ->
  NodePath.canonical r.
Proof.
  intros Hc H. destruct (safePath_inr _ _ _ _ H) as [[s [_ [_ ->]]] _].
  apply resolve_canonical. exact Hc.
Qed.

Lemma safePath_canonical_witness :
  NodePath.canonical "/workspaces/codespaces-blank/src/app.js".
Proof.
  apply (safePath_canonical cfg_cs cwd_cs (JStr "src/./lib/../app.js")); reflexivity.
Defined.

(** X2: [safePath] is idempotent: a path it has returned is accepted again
    and returned unchanged. *)
Theorem safePath_idempotent (cfg : Agent.config) (cwd : string) (p : jsval) (r : string) :
  NodePath.isAbsolute cwd = true ->
  Agent.safePath cfg cwd p = inr r ->
  Agent.safePath cfg cwd (JStr r) = inr r.
Proof.
  intros Hc H.
  assert (NodePath.canonical r) as Hr.
  { destruct (safePath_inr _ _ _ _ H) as [[s [_ [_ ->]]] _].
    apply resolve_canonical. exact Hc. }
  destruct (safePath_inr _ _ _ _ H) as [_ Hp].
  unfold Agent.safePath.
  assert (truthy (JStr r) = true) as Ht.
  { destruct Hr as [segs [-> _]]. reflexivity. }
  rewrite Ht. cbn [negb].
  pose proof (resolve_canonical_id cwd [Agent.WORKDIR cfg] r Hr) as Hid.
  cbn [app] in Hid. rewrite Hid, Hp. reflexivity.
Qed.

Lemma safePath_idempotent_witness :
  Agent.safePath cfg_cs cwd_cs (JStr "/workspaces/codespaces-blank/src/app.js")
  = inr "/workspaces/codespaces-blank/src/app.js".
Proof.
  apply (safePath_idempotent cfg_cs cwd_cs (JStr "src/app.js")); reflexivity.
Defined.

(** X3: when [WORKDIR] is not empty and not absolute, [safePath] refuses
    every candidate: what [path.resolve] returns is absolute and cannot
    start with it. *)
Theorem safePath_relative_workdir (cfg : Agent.config) (cwd : string) (p : jsval) :
  NodePath.isAbsolute cwd = true ->
  Agent.WORKDIR cfg <> EmptyString ->
  NodePath.isAbsolute (Agent.WORKDIR cfg) = false ->
  exists e, Agent.safePath cfg cwd p = inl e.
Proof.
  intros Hc Hne Hw.
  destruct (Agent.safePath cfg cwd p) as [e|r] eqn:E; [eauto|].
  exfalso.
  pose proof (safePath_canonical cfg cwd p r Hc E) as [segs [-> _]].
  destruct (safePath_inr _ _ _ _ E) as [_ Hp].
  unfold startsWith, NodePath.isAbsolute, startsWith in *.
  destruct (Agent.WORKDIR cfg) as [|a w]; [contradiction|].
  change ("/" +:+ String.concat "/" segs) with (String "/" (String.concat "/" segs)) in Hp.
  rewrite prefix_cons in Hp. rewrite prefix_cons, prefix_nil in Hw.
  destruct (ascii_dec a "/") as [->|]; [|discriminate].
  destruct (ascii_dec "/" "/"); [discriminate | contradiction].
Qed.

Lemma safePath_relative_workdir_witness :
  exists e, Agent.safePath cfg_relative cwd_cs (JStr "src/app.js") = inl e.
Proof.
  apply (safePath_relative_workdir cfg_relative cwd_cs (JStr "src/app.js"));
    [reflexivity | discriminate | reflexivity].
Defined.

Lemma prefix_append (a b : string) : String.prefix a (a +:+ b) = true.
Proof.
  induction a as [|c a IH]; [apply prefix_nil|].
  change (String c a +:+ b) with (String c (a +:+ b)).
  rewrite prefix_cons. destruct (ascii_dec c c); [exact IH | contradiction].
Qed.

Lemma concat_app_nonempty (x : string) (a b : list string) :
  b <> [] ->
  String.concat "/" ((x :: a) ++ b)
  = String.concat "/" (x :: a) +:+ "/" +:+ String.concat "/" b.
Proof.
  intros Hb. revert x. induction a as [|y a IH]; intros x.
  - destruct b as [|z b]; [contradiction | reflexivity].
  - change (String.concat "/" ((x :: y :: a) ++ b))
      with (x +:+ "/" +:+ String.concat "/" ((y :: a) ++ b)).
    rewrite IH.
    change (String.concat "/" (x :: y :: a))
      with (x +:+ "/" +:+ String.concat "/" (y :: a)).
    now rewrite !append_assoc.
Qed.

Lemma concat_app_prefix (a b : list string) :
  String.prefix (String.concat "/" a) (String.concat "/" (a ++ b)) = true.
Proof.
  destruct a as [|x a]; [apply prefix_nil|].
  destruct b as [|z b].
  - rewrite app_nil_r. rewrite <- (append_nil_r (String.concat "/" (x :: a))) at 2.
    apply prefix_append.
  - rewrite concat_app_nonempty by discriminate. apply prefix_append.
Qed.

(** A list of clean segments, joined, starts with a character that is not
    the separator. *)
Lemma concat_clean_head x segs :
  Forall (fun s => NodePath.clean_segment s = true) (x :: segs) ->
  exists c t, String.concat "/" (x :: segs) = String c t /\ NodePath.is_sep c = false.
Proof.
  intros H. apply Forall_cons_iff in H as [Hx _].
  destruct (clean_segment_spec _ Hx) as [Hs [Hn _]].
  destruct x as [|c x']; [discriminate|].
  cbn [NodePath.has_sep] in Hs. apply orb_false_elim in Hs as [Hc _].
  destruct segs as [|y segs]; [exists c, x'; split; [reflexivity | exact Hc]|].
  exists c, (x' +:+ "/" +:+ String.concat "/" (y :: segs)).
  split; [reflexivity | exact Hc].
Qed.

(** X4: when [WORKDIR] is in normal form, a candidate made of clean segments
    is accepted and resolves to those segments below [WORKDIR]. *)
Theorem safePath_child (cfg : Agent.config) (cwd : string)
    (root segs : list string) (x : string) :
  Agent.WORKDIR cfg = "/" +:+ String.concat "/" root ->
  Forall (fun s => NodePath.clean_segment s = true) root ->
  Forall (fun s => NodePath.clean_segment s = true) (x :: segs) ->
  Agent.safePath cfg cwd (JStr (String.concat "/" (x :: segs)))
  = inr ("/" +:+ String.concat "/" (root ++ x :: segs)).
Proof.
  intros HW Hroot Hsegs.
  destruct (concat_clean_head x segs Hsegs) as [c [t [Hs Hc]]].
  unfold Agent.safePath.
  assert (truthy (JStr (String.concat "/" (x :: segs))) = true) as Ht
    by (rewrite Hs; reflexivity).
  rewrite Ht. cbn [negb].
  assert (NodePath.resolve cwd [Agent.WORKDIR cfg; String.concat "/" (x :: segs)]
          = "/" +:+ String.concat "/" (root ++ x :: segs)) as Hr.
  { assert (String.eqb (String.concat "/" (x :: segs)) EmptyString = false) as Hne
      by (rewrite Hs; reflexivity).
    assert (NodePath.isAbsolute (String.concat "/" (x :: segs)) = false) as Hna.
    { rewrite Hs. unfold NodePath.isAbsolute, startsWith. rewrite prefix_cons.
      destruct (ascii_dec "/" c) as [<-|]; [discriminate | reflexivity]. }
    unfold NodePath.resolve. cbn [rev app NodePath.resolve_loop].
    rewrite Hne, Hna. rewrite HW.
    change (String.eqb ("/" +:+ String.concat "/" root) EmptyString) with false.
    cbv iota.
    rewrite (canonical_absolute ("/" +:+ String.concat "/" root))
      by (exists root; split; [reflexivity | exact Hroot]).
    cbn [negb]. f_equal.
    unfold NodePath.normalizeString.
    change (("/" +:+ String.concat "/" root) +:+ "/"
            +:+ String.concat "/" (x :: segs) +:+ "/" +:+ EmptyString)
      with ((EmptyString +:+ "/" +:+ String.concat "/" root) +:+ "/"
            +:+ String.concat "/" (x :: segs) +:+ "/" +:+ EmptyString).
    rewrite !split_app, !normalizeSegs_app.
    change (NodePath.normalizeSegs false [] (NodePath.split EmptyString)) with (@nil string).
    cbn [rev].
    rewrite (split_concat root Hroot [] false). cbn [rev app].
    rewrite (split_concat (x :: segs) Hsegs (rev root) false).
    rewrite rev_involutive.
    change (NodePath.split EmptyString) with [EmptyString].
    cbn [NodePath.normalizeSegs]. cbn [String.eqb orb].
    now rewrite rev_involutive. }
  rewrite Hr. rewrite HW. unfold startsWith.
  change ("/" +:+ String.concat "/" (root ++ x :: segs))
    with (String "/" (String.concat "/" (root ++ x :: segs))).
  change ("/" +:+ String.concat "/" root) with (String "/" (String.concat "/" root)).
  rewrite prefix_cons. destruct (ascii_dec "/" "/"); [|contradiction].
  rewrite concat_app_prefix. reflexivity.
Qed.

Lemma safePath_child_witness :
  Agent.safePath cfg_cs cwd_cs (JStr "src/app.js")
  = inr "/workspaces/codespaces-blank/src/app.js".
Proof.
  apply (safePath_child cfg_cs cwd_cs ["workspaces"; "codespaces-blank"] ["app.js"] "src");
    [reflexivity | repeat constructor | repeat constructor].
Defined.

(** ** The extension allow-list *)

Lemma lower_char_idempotent c : lower_char (lower_char c) = lower_char c.
Proof. destruct c as [[] [] [] [] [] [] [] []]; reflexivity. Qed.

Lemma toLowerCase_idempotent s : toLowerCase (toLowerCase s) = toLowerCase s.
Proof.
  induction s as [|c s IH]; [reflexivity|].
  cbn [toLowerCase]. now rewrite lower_char_idempotent, IH.
Qed.

Lemma toLowerCase_substring s : forall n m,
  toLowerCase (String.substring n m s) = String.substring n m (toLowerCase s).
Proof.
  induction s as [|c s IH]; intros n m.
  - destruct n, m; reflexivity.
  - destruct n as [|n]; [destruct m as [|m]|]; cbn [String.substring toLowerCase].
    + reflexivity.
    + now rewrite IH.
    + apply IH.
Qed.

Lemma in_list_true x l : Agent.in_list x l = true -> In x l.
Proof.
  unfold Agent.in_list. intros H. apply existsb_exists in H as [y [Hy E]].
  apply String.eqb_eq in E. now subst.
Qed.

Lemma lower_char_capital c :
  (let n := N_of_ascii c in (65 <=? n)%N && (n <=? 90)%N) = true ->
  lower_char c <> c.
Proof. destruct c as [[] [] [] [] [] [] [] []]; cbv; congruence. Qed.

Lemma has_capital_lower e : has_capital e = true -> toLowerCase e <> e.
Proof.
  unfold has_capital. induction e as [|c e IH]; [discriminate|].
  cbn [list_ascii_of_string existsb toLowerCase]. intros H [= Hc He].
  apply orb_true_iff in H as [H|H].
  - exact (lower_char_capital c H Hc).
  - exact (IH H He).
Qed.

(** X5: the extension of the file is compared in lower case with the
    entries of [ALLOWED_EXTENSIONS] as they are written: when every entry
    has one of the letters [A] to [Z], no file whose path is made of ASCII
    characters is allowed. *)
Theorem isAllowedExtension_upper_case (cfg : Agent.config) (allowed : list string)
    (filePath : string) :
  Agent.ALLOWED_EXTENSIONS cfg = Some allowed ->
  Forall (fun e => has_capital e = true) allowed ->
  is_ascii_string filePath = true ->
  Agent.isAllowedExtension cfg filePath = false.
Proof.
  intros Ha Hu _. unfold Agent.isAllowedExtension. rewrite Ha.
  rewrite Forall_forall in Hu.
  apply orb_false_intro.
  - destruct (Agent.in_list _ allowed) eqn:E; [|reflexivity].
    apply in_list_true in E. exfalso.
    apply (has_capital_lower _ (Hu _ (proj2 (list_elem_of_In _ _) E))).
    apply toLowerCase_idempotent.
  - destruct (Agent.in_list (String.substring _ _ _) allowed) eqn:E; [|reflexivity].
    apply in_list_true in E. exfalso.
    apply (has_capital_lower _ (Hu _ (proj2 (list_elem_of_In _ _) E))).
    rewrite <- toLowerCase_substring. apply toLowerCase_idempotent.
Qed.

Lemma isAllowedExtension_upper_case_witness :
  Agent.isAllowedExtension cfg_upper "/workspaces/codespaces-blank/src/app.JS" = false
  /\ Agent.isAllowedExtension cfg_js_md "/workspaces/codespaces-blank/src/app.JS" = true.
Proof.
  split; [|reflexivity].
  apply (isAllowedExtension_upper_case cfg_upper [".JS"; "Md"]);
    [reflexivity | repeat constructor | reflexivity].
Defined.

(** X6: a write whose resolved path is made of ASCII characters and has an
    extension that is not allowed is answered [403] with the list of
    allowed extensions, and nothing is asked of the filesystem: no
    directory and no file is created. *)
Theorem post_files_forbidden (cfg : Agent.config) (req : request) (w : Fs.world)
    (r : string) :
  authorization req = Some ("Bearer " +:+ Agent.AGENT_TOKEN cfg) ->
  get_prop (body req) "content" <> JUndefined ->
  Agent.safePath cfg (Fs.cwd w) (get_prop (body req) "path") = inr r ->
  is_ascii_string r = true ->
  Agent.isAllowedExtension cfg r = false ->
  Agent.post_files cfg req w
  = (Response 403 (JObj [("error", JStr "File extension not allowed");
                         ("allowed", Agent.allowed_json cfg)]), w).
Proof.
  intros Ha Hc Hs _ Hx.
  destruct (safePath_inr _ _ _ _ Hs) as [[s [Hp [Hne _]]] _].
  assert (truthy (get_prop (body req) "path") = true) as Ht.
  { rewrite Hp. cbn. destruct s; [contradiction | reflexivity]. }
  destruct (truthy_prop_object _ _ Ht) as [props Hb].
  unfold Agent.post_files. rewrite (assertAuth_accepts _ _ Ha).
  rewrite Hb in *. unfold destructure. rewrite bind_ret. rewrite Ht.
  assert (Agent.is_undefined (get_prop (JObj props) "content") = false) as Hu
    by (destruct (get_prop (JObj props) "content") eqn:Eq; auto; congruence).
  rewrite Hu. cbn [negb orb]. unfold Agent.guarded.
  erewrite bind_inr by (unfold Agent.safePathM; rewrite Hs; reflexivity).
  rewrite Hx. reflexivity.
Qed.

Lemma post_files_forbidden_witness :
  Agent.post_files cfg_js_md req_post_script world_cs
  = (Response 403 (JObj [("error", JStr "File extension not allowed");
                         ("allowed", JArr [JStr ".js"; JStr "md"])]), world_cs).
Proof.
  apply (post_files_forbidden cfg_js_md req_post_script world_cs
           "/workspaces/codespaces-blank/tools/run.SH");
    [reflexivity | discriminate | reflexivity | reflexivity | reflexivity].
Defined.

(** ** Handlers that only read *)

Lemma read_only_ret {A} (a : A) : Fs.read_only (Fs.ret a).
Proof. intros w. split; reflexivity. Qed.

Lemma read_only_throw {A} e : Fs.read_only (@Fs.throw A e).
Proof. intros w. split; reflexivity. Qed.

Lemma read_only_bind {A B} (m : Fs.M A) (k : A -> Fs.M B) :
  Fs.read_only m -> (forall a, Fs.read_only (k a)) -> Fs.read_only (Fs.bind m k).
Proof.
  intros Hm Hk w. unfold Fs.bind.
  destruct (Hm w) as [Hf Hc]. destruct (m w) as [[e|a] w']; cbn [snd] in *.
  - split; assumption.
  - destruct (Hk a w') as [Hf' Hc']. split; congruence.
Qed.

Lemma read_only_try_catch {A} (m : Fs.M A) (h : Fs.error -> Fs.M A) :
  Fs.read_only m -> (forall e, Fs.read_only (h e)) -> Fs.read_only (Fs.try_catch m h).
Proof.
  intros Hm Hh w. unfold Fs.try_catch.
  destruct (Hm w) as [Hf Hc]. destruct (m w) as [[e|a] w']; cbn [snd] in *.
  - destruct (Hh e w') as [Hf' Hc']. split; congruence.
  - split; assumption.
Qed.

Lemma read_only_primitives p :
  Fs.read_only (Fs.access p) /\ Fs.read_only (Fs.stat p)
  /\ Fs.read_only (Fs.readFile p) /\ Fs.read_only (Fs.readdir p).
Proof.
  repeat split; unfold Fs.access, Fs.stat, Fs.readFile, Fs.readdir; cbv zeta;
    repeat match goal with
      | |- context [match ?x with _ => _ end] => destruct x
      end; reflexivity.
Qed.

Lemma read_only_safePathM cfg p : Fs.read_only (Agent.safePathM cfg p).
Proof. intros w. split; reflexivity. Qed.

Lemma read_only_mapM {A B} (f : A -> Fs.M B) l :
  (forall a, Fs.read_only (f a)) -> Fs.read_only (Agent.mapM f l).
Proof.
  intros Hf. induction l as [|a l IH]; cbn [Agent.mapM].
  - apply read_only_ret.
  - apply read_only_bind; [apply Hf|]. intros b.
    apply read_only_bind; [exact IH|]. intros bs. apply read_only_ret.
Qed.

Ltac reads :=
  repeat first
    [ apply read_only_ret
    | apply read_only_throw
    | apply read_only_safePathM
    | apply read_only_bind
    | apply read_only_try_catch
    | apply read_only_mapM
    | apply read_only_primitives
    | progress intros
    | match goal with
      | |- Fs.read_only (if ?b then _ else _) => destruct b
      | |- Fs.read_only (match ?x with _ => _ end) => destruct x
      end
    | progress unfold Agent.fileExists, Agent.getFileStats, Agent.stats_field, destructure ].

Lemma guarded_world (m : Fs.M response) w :
  snd (Agent.guarded m w) = snd (m w).
Proof. unfold Agent.guarded. destruct (m w) as [[e|r] w']; reflexivity. Qed.

Lemma searchRecursive_read_only cfg levels q : forall dir results w,
  Fs.files (snd (Agent.searchRecursive cfg levels q dir results w)) = Fs.files w
  /\ Fs.cwd (snd (Agent.searchRecursive cfg levels q dir results w)) = Fs.cwd w.
Proof.
  induction levels as [|levels IH]; intros dir results w; [split; reflexivity|].
  cbn [Agent.searchRecursive].
  destruct (proj2 (proj2 (proj2 (read_only_primitives dir))) w) as [Hf Hc].
  destruct (Fs.readdir dir w) as [[e|entries] w']; cbn [snd] in Hf, Hc;
    [split; assumption|].
  destruct q; try (split; assumption).
  rewrite <- Hf, <- Hc. clear Hf Hc.
  revert results w'. induction entries as [|[name n] entries IHe]; intros results w';
    [split; reflexivity|].
  destruct n as [c|].
  - apply IHe.
  - destruct (negb (startsWith name ".")).
    + match goal with
      | |- context [Agent.searchRecursive cfg levels ?q ?d ?r ?w0] =>
          destruct (IH d r w0) as [Hf Hc];
          destruct (Agent.searchRecursive cfg levels q d r w0) as [r2 w2]
      end.
      cbn [snd] in Hf, Hc. rewrite <- Hf, <- Hc. apply IHe.
    + apply IHe.
Qed.

Lemma read_only_search cfg q dir :
  Fs.read_only (fun w => let '(r, w') := Agent.searchRecursive cfg 6 q dir [] w in
                         (@inr Fs.error _ r, w')).
Proof.
  intros w. pose proof (searchRecursive_read_only cfg 6 q dir [] w) as H.
  destruct (Agent.searchRecursive cfg 6 q dir [] w) as [r w']. exact H.
Qed.

(** X7: the handlers that read (the health check, file read, directory
    listing, stat and search) leave every file and directory as it is,
    whatever the request. *)
Theorem get_handlers_read_only (cfg : Agent.config) (req : request) (w : Fs.world) :
  Forall (fun h : request -> Fs.world -> response * Fs.world =>
            Fs.files (snd (h req w)) = Fs.files w)
    [Agent.get_health cfg; Agent.get_files cfg; Agent.get_ls cfg;
     Agent.get_stat cfg; Agent.get_search cfg].
Proof.
  repeat constructor;
    unfold Agent.get_health, Agent.get_files, Agent.get_ls, Agent.get_stat,
      Agent.get_search;
    try reflexivity;
    (destruct (Agent.assertAuth cfg req); [reflexivity|]);
    rewrite guarded_world;
    match goal with
    | |- Fs.files (snd (?m w)) = _ => assert (Fs.read_only m) as H
    end;
    try (apply H).
  all: reads.
  all: apply read_only_search.
Qed.

(** ** Reading and writing files *)

Lemma readFile_file p w c :
  Fs.files w !! Fs.key w p = Some (Fs.File c) ->
  Fs.readFile p w = (inr c, Fs.record (Fs.FsReadFile p) w).
Proof.
  intros H. unfold Fs.readFile.
  cbn [Fs.files Fs.record]. change (Fs.key (Fs.record _ w) p) with (Fs.key w p).
  rewrite H. reflexivity.
Qed.

Lemma get_files_spec cfg req w r :
  authorization req = Some ("Bearer " +:+ Agent.AGENT_TOKEN cfg) ->
  Agent.safePath cfg (Fs.cwd w) (get_prop (query req) "path") = inr r ->
  let w2 := Fs.record (Fs.FsStat r) (Fs.record (Fs.FsAccess r) w) in
  Agent.get_files cfg req w
  = match Fs.files w !! Fs.key w r with
    | None => (Agent.error_response 404 "File not found", Fs.record (Fs.FsAccess r) w)
    | Some Fs.Dir => (Agent.error_response 400 "Path is a directory, not a file", w2)
    | Some (Fs.File c) =>
        let size := N.of_nat (String.length c) in
        if (Agent.MAX_FILE_SIZE <? size)%N then
          (Response 413 (JObj [("error", JStr "File too large (max 10MB)");
                               ("size", JNum false size 0)]), w2)
        else
          (json (JObj [("path", get_prop (query req) "path");
                       ("content", JStr c);
                       ("stats", Agent.stats_json
                                   (Some (Agent.Stats size false true)))]),
           Fs.record (Fs.FsReadFile r) w2)
    end.
Proof.
  intros Ha Hs w2. subst w2.
  unfold Agent.get_files. rewrite (assertAuth_accepts _ _ Ha).
  unfold Agent.guarded.
  erewrite bind_inr by (unfold Agent.safePathM; rewrite Hs; reflexivity).
  destruct (Fs.files w !! Fs.key w r) as [n|] eqn:E.
  2:{ erewrite bind_inr by (apply fileExists_absent; exact E). reflexivity. }
  erewrite bind_inr by (apply fileExists_present with (n := n); exact E).
  cbn [negb].
  erewrite bind_inr by (apply getFileStats_present with (n := n); exact E).
  erewrite bind_inr by reflexivity.
  destruct n as [c|]; cbn [Agent.stats_of Agent.isDirectory]; [|reflexivity].
  erewrite bind_inr by reflexivity. cbn [Agent.size].
  cbv zeta. destruct (Agent.MAX_FILE_SIZE <? _)%N; [reflexivity|].
  erewrite bind_inr by (apply readFile_file; exact E).
  reflexivity.
Qed.

Lemma guarded_bind {A} (m : Fs.M A) (k : A -> Fs.M response) w :
  Agent.guarded (Fs.bind m k) w
  = match m w with
    | (inl e, w1) => (Response 400 (JObj [("error", JStr (Fs.message e))]), w1)
    | (inr a, w1) => Agent.guarded (k a) w1
    end.
Proof. unfold Agent.guarded, Fs.bind. destruct (m w) as [[e|a] w1]; reflexivity. Qed.

Lemma writeFile_inr p c w w' :
  Fs.writeFile p c w = (inr tt, w') ->
  Fs.files w' !! Fs.key w p = Some (Fs.File c)
  /\ Fs.cwd w' = Fs.cwd w
  /\ forall k, k <> Fs.key w p -> Fs.files w' !! k = Fs.files w !! k.
Proof.
  unfold Fs.writeFile. cbv zeta.
  cbn [Fs.files Fs.record]. change (Fs.key (Fs.record _ w) p) with (Fs.key w p).
  destruct (Fs.files w !! Fs.key w p) as [[c0|]|];
    destruct (Fs.files w !! Fs.parent (Fs.key w p)) as [[c1|]|];
    intros [= <-]; cbn [Fs.files Fs.cwd Fs.set_files Fs.record];
    (split; [apply lookup_insert_eq|]); (split; [reflexivity|]);
    intros k Hk; apply lookup_insert_ne; intros E; apply Hk; symmetry; exact E.
Qed.

Lemma mkdir_keeps_cwd p b : Fs.keeps_cwd (Fs.mkdir p b).
Proof.
  intros w. unfold Fs.mkdir. cbv zeta.
  repeat match goal with
    | |- context [if ?x then _ else _] => destruct x
    | |- context [match ?x with _ => _ end] => destruct x
    end; reflexivity.
Qed.

Lemma getFileStats_read_only p : Fs.read_only (Agent.getFileStats p).
Proof. reads. Qed.

(** What a write that was answered [200] has done. *)
Lemma post_files_written cfg req w p C :
  authorization req = Some ("Bearer " +:+ Agent.AGENT_TOKEN cfg) ->
  get_prop (body req) "path" = JStr p ->
  get_prop (body req) "content" = JStr C ->
  status (fst (Agent.post_files cfg req w)) = 200 ->
  exists r, Agent.safePath cfg (Fs.cwd w) (JStr p) = inr r
    /\ Fs.cwd (snd (Agent.post_files cfg req w)) = Fs.cwd w
    /\ Fs.files (snd (Agent.post_files cfg req w)) !! Fs.key w r = Some (Fs.File C).
Proof.
  intros Ha Hp Hc.
  unfold Agent.post_files. rewrite (assertAuth_accepts _ _ Ha).
  assert (exists props, body req = JObj props) as [props Hb]
    by (destruct (body req); try discriminate; eauto).
  rewrite Hb in *. unfold destructure. rewrite bind_ret. rewrite Hp, Hc.
  match goal with
  | |- context [Agent.guarded ?m w] => remember (Agent.guarded m w) as res eqn:Hres
  end.
  destruct (truthy (JStr p)); cbn [negb orb Agent.is_undefined] in Hres;
    [|subst res; discriminate].
  rewrite guarded_bind in Hres. unfold Agent.safePathM in Hres.
  destruct (Agent.safePath cfg (Fs.cwd w) (JStr p)) as [e|r] eqn:Es;
    [subst res; discriminate|].
  destruct (Agent.isAllowedExtension cfg r); cbn [negb] in Hres;
    [|subst res; discriminate].
  rewrite guarded_bind in Hres.
  match type of Hres with
  | context [(if ?b then Fs.mkdir ?d true else Fs.ret tt) w] =>
      assert (Fs.cwd (snd ((if b then Fs.mkdir d true else Fs.ret tt) w)) = Fs.cwd w)
        as Hcwd by (destruct b; [apply mkdir_keeps_cwd | reflexivity]);
      destruct ((if b then Fs.mkdir d true else Fs.ret tt) w) as [[e|[]] w1]
  end; [subst res; discriminate|]. cbn [snd] in Hcwd.
  rewrite guarded_bind in Hres. cbn [Agent.writeFile_value] in Hres.
  destruct (Fs.writeFile r C w1) as [[e|[]] w2] eqn:Ew; [subst res; discriminate|].
  apply writeFile_inr in Ew as [Hf [Hc2 _]].
  rewrite guarded_bind in Hres.
  destruct (getFileStats_read_only r w2) as [Hf3 Hc3].
  destruct (Agent.getFileStats r w2) as [[e|st] w3]; [subst res; discriminate|].
  cbn [snd] in Hf3, Hc3. cbn [Agent.guarded Fs.ret] in Hres. subst res.
  intros _. exists r. split; [reflexivity|]. cbn [snd].
  split; [congruence|].
  rewrite Hf3. unfold Fs.key in *. rewrite <- Hcwd. exact Hf.
Qed.

(** X8: an authorised read of a path that [safePath] accepts is answered by
    what the path names: [404] when nothing, [400] when a directory, [413]
    with the size when a file of more than 10 MB, whose content is then not
    read, and otherwise [200] with the content and the size of the file. *)
Theorem get_files_outcomes (cfg : Agent.config) (req : request) (w : Fs.world)
    (r : string) :
  authorization req = Some ("Bearer " +:+ Agent.AGENT_TOKEN cfg) ->
  Agent.safePath cfg (Fs.cwd w) (get_prop (query req) "path") = inr r ->
  let res := Agent.get_files cfg req w in
  (Fs.files w !! Fs.key w r = None ->
   fst res = Agent.error_response 404 "File not found")
  /\ (Fs.files w !! Fs.key w r = Some Fs.Dir ->
      fst res = Agent.error_response 400 "Path is a directory, not a file")
  /\ (forall c, Fs.files w !! Fs.key w r = Some (Fs.File c) ->
      let size := N.of_nat (String.length c) in
      if (Agent.MAX_FILE_SIZE <? size)%N then
        fst res = Response 413 (JObj [("error", JStr "File too large (max 10MB)");
                                      ("size", JNum false size 0)])
        /\ Fs.calls (snd res) = Fs.calls w ++ [Fs.FsAccess r; Fs.FsStat r]
      else
        fst res = json (JObj [("path", get_prop (query req) "path");
                              ("content", JStr c);
                              ("stats", JObj [("size", JNum false size 0);
                                              ("isDirectory", JBool false);
                                              ("isFile", JBool true)])])).
Proof.
  intros Ha Hs res. subst res. rewrite (get_files_spec cfg req w r Ha Hs).
  split; [|split].
  - intros ->. reflexivity.
  - intros ->. reflexivity.
  - intros c ->. cbv zeta.
    destruct (Agent.MAX_FILE_SIZE <? _)%N; [|reflexivity].
    split; [reflexivity|]. cbn [snd Fs.calls Fs.record].
    now rewrite <- app_assoc.
Qed.

Lemma get_files_outcomes_witness :
  fst (Agent.get_files cfg_cs req_get_missing world_cs)
  = Agent.error_response 404 "File not found"
  /\ fst (Agent.get_files cfg_cs req_get_src world_cs)
     = Agent.error_response 400 "Path is a directory, not a file"
  /\ fst (Agent.get_files cfg_cs req_get_app world_cs)
     = json (JObj [("path", JStr "src/app.js");
                   ("content", JStr "console.log(1)");
                   ("stats", JObj [("size", JNum false 14 0);
                                   ("isDirectory", JBool false);
                                   ("isFile", JBool true)])]).
Proof.
  split; [|split].
  - apply (proj1 (get_files_outcomes cfg_cs req_get_missing world_cs
                    "/workspaces/codespaces-blank/src/none.js" eq_refl eq_refl)).
    reflexivity.
  - apply (proj1 (proj2 (get_files_outcomes cfg_cs req_get_src world_cs
                           "/workspaces/codespaces-blank/src" eq_refl eq_refl))).
    reflexivity.
  - exact (proj2 (proj2 (get_files_outcomes cfg_cs req_get_app world_cs
                           "/workspaces/codespaces-blank/src/app.js" eq_refl eq_refl))
             "console.log(1)" eq_refl).
Defined.

(** X9: a write that was answered [200], followed by a read of the same
    path, returns the content written, when that is at most 10 MB long. *)
Theorem write_then_read (cfg : Agent.config) (write read : request) (w : Fs.world)
    (p C : string) :
  authorization write = Some ("Bearer " +:+ Agent.AGENT_TOKEN cfg) ->
  authorization read = Some ("Bearer " +:+ Agent.AGENT_TOKEN cfg) ->
  get_prop (body write) "path" = JStr p ->
  get_prop (body write) "content" = JStr C ->
  get_prop (query read) "path" = JStr p ->
  (Agent.MAX_FILE_SIZE <? N.of_nat (String.length C))%N = false ->
  status (fst (Agent.post_files cfg write w)) = 200 ->
  fst (Agent.get_files cfg read (snd (Agent.post_files cfg write w)))
  = json (JObj [("path", JStr p); ("content", JStr C);
                ("stats", JObj [("size", JNum false (N.of_nat (String.length C)) 0);
                                ("isDirectory", JBool false);
                                ("isFile", JBool true)])]).
Proof.
  intros Hw Hr Hp Hc Hq Hsize H200.
  destruct (post_files_written cfg write w p C Hw Hp Hc H200) as [r [Hs [Hcwd Hf]]].
  set (w' := snd (Agent.post_files cfg write w)) in *.
  assert (Agent.safePath cfg (Fs.cwd w') (get_prop (query read) "path") = inr r) as Hs'
    by (rewrite Hq, Hcwd; exact Hs).
  rewrite (get_files_spec cfg read w' r Hr Hs').
  assert (Fs.key w' r = Fs.key w r) as Hk by (unfold Fs.key; now rewrite Hcwd).
  rewrite Hk, Hf. cbv zeta. rewrite Hsize, Hq. reflexivity.
Qed.

Lemma write_then_read_witness :
  fst (Agent.get_files cfg_cs req_get_notes (snd (Agent.post_files cfg_cs req_post_notes world_cs)))
  = json (JObj [("path", JStr "docs/notes.md"); ("content", JStr "draft");
                ("stats", JObj [("size", JNum false 5 0);
                                ("isDirectory", JBool false);
                                ("isFile", JBool true)])]).
Proof.
  apply (write_then_read cfg_cs req_post_notes req_get_notes world_cs
           "docs/notes.md" "draft"); reflexivity.
Defined.

Lemma unlink_file p w c :
  Fs.files w !! Fs.key w p = Some (Fs.File c) ->
  Fs.unlink p w
  = (inr tt, Fs.set_files (delete (Fs.key w p) (Fs.files w))
               (Fs.record (Fs.FsUnlink p) w)).
Proof.
  intros H. unfold Fs.unlink.
  cbn [Fs.files Fs.record]. change (Fs.key (Fs.record _ w) p) with (Fs.key w p).
  rewrite H. reflexivity.
Qed.

Lemma writeFile_file p c w c0 :
  Fs.files w !! Fs.key w p = Some (Fs.File c0) ->
  Fs.files w !! Fs.parent (Fs.key w p) = Some Fs.Dir ->
  Fs.writeFile p c w
  = (inr tt, Fs.set_files (<[Fs.key w p := Fs.File c]> (Fs.files w))
               (Fs.record (Fs.FsWriteFile p c) w)).
Proof.
  intros H Hp. unfold Fs.writeFile.
  cbn [Fs.files Fs.record]. change (Fs.key (Fs.record _ w) p) with (Fs.key w p).
  rewrite H, Hp. reflexivity.
Qed.

(** X10: an authorised update of an existing file, in a directory that
    exists, is answered [200]; afterwards the file holds the new content
    and every other entry is as before. *)
Theorem put_files_overwrites (cfg : Agent.config) (req : request) (w : Fs.world)
    (r C c0 : string) :
  authorization req = Some ("Bearer " +:+ Agent.AGENT_TOKEN cfg) ->
  get_prop (body req) "content" = JStr C ->
  Agent.safePath cfg (Fs.cwd w) (get_prop (body req) "path") = inr r ->
  Fs.files w !! Fs.key w r = Some (Fs.File c0) ->
  Fs.files w !! Fs.parent (Fs.key w r) = Some Fs.Dir ->
  let res := Agent.put_files cfg req w in
  status (fst res) = 200
  /\ Fs.files (snd res) !! Fs.key w r = Some (Fs.File C)
  /\ forall k, k <> Fs.key w r -> Fs.files (snd res) !! k = Fs.files w !! k.
Proof.
  intros Ha Hc Hs Hf Hp res. subst res.
  destruct (safePath_inr _ _ _ _ Hs) as [[s [Hpath [Hne _]]] _].
  assert (truthy (get_prop (body req) "path") = true) as Ht.
  { rewrite Hpath. cbn. destruct s; [contradiction | reflexivity]. }
  destruct (truthy_prop_object _ _ Ht) as [props Hb].
  unfold Agent.put_files. rewrite (assertAuth_accepts _ _ Ha).
  rewrite Hb in *. unfold destructure. rewrite bind_ret. rewrite Ht, Hc.
  cbn [negb orb Agent.is_undefined]. unfold Agent.guarded.
  erewrite bind_inr by (unfold Agent.safePathM; rewrite Hs; reflexivity).
  erewrite bind_inr by (apply fileExists_present with (n := Fs.File c0); exact Hf).
  cbn [negb Agent.writeFile_value].
  erewrite bind_inr by (apply writeFile_file with (c0 := c0); [exact Hf | exact Hp]).
  erewrite bind_inr.
  2:{ apply getFileStats_present with (n := Fs.File C).
      cbn [Fs.files Fs.set_files Fs.record].
      change (Fs.key (Fs.set_files _ _) r) with (Fs.key w r).
      apply lookup_insert_eq. }
  cbn [fst snd status json Fs.ret Fs.files Fs.set_files Fs.record].
  change (Fs.key (Fs.record _ w) r) with (Fs.key w r).
  split; [reflexivity|]. split; [apply lookup_insert_eq|].
  intros k Hk. apply lookup_insert_ne. congruence.
Qed.

Lemma put_files_overwrites_witness :
  status (fst (Agent.put_files cfg_cs req_put_app world_cs)) = 200
  /\ Fs.files (snd (Agent.put_files cfg_cs req_put_app world_cs))
       !! "/workspaces/codespaces-blank/src/app.js" = Some (Fs.File "console.log(2)").
Proof.
  pose proof (put_files_overwrites cfg_cs req_put_app world_cs
                "/workspaces/codespaces-blank/src/app.js" "console.log(2)"
                "console.log(1)" eq_refl eq_refl eq_refl eq_refl eq_refl)
    as [H1 [H2 _]].
  split; [exact H1 | exact H2].
Defined.

(** X11: after a delete that was answered [200] the path names nothing,
    and every entry that is neither the path nor below it is as before. *)
Theorem delete_files_removes_only_target (cfg : Agent.config) (req : request)
    (w : Fs.world) (r : string) :
  authorization req = Some ("Bearer " +:+ Agent.AGENT_TOKEN cfg) ->
  Agent.safePath cfg (Fs.cwd w) (get_prop (query req) "path") = inr r ->
  let res := Agent.delete_files cfg req w in
  status (fst res) = 200 ->
  Fs.files (snd res) !! Fs.key w r = None
  /\ forall k, k <> Fs.key w r -> Fs.below (Fs.key w r) k = false ->
               Fs.files (snd res) !! k = Fs.files w !! k.
Proof.
  intros Ha Hs res. subst res.
  destruct (Fs.files w !! Fs.key w r) as [[c|]|] eqn:E.
  - unfold Agent.delete_files. rewrite (assertAuth_accepts _ _ Ha).
    unfold Agent.guarded.
    erewrite bind_inr by (unfold Agent.safePathM; rewrite Hs; reflexivity).
    erewrite bind_inr by (apply fileExists_present with (n := Fs.File c); exact E).
    cbn [negb].
    erewrite bind_inr by (apply getFileStats_present with (n := Fs.File c); exact E).
    erewrite bind_inr by reflexivity.
    cbn [Agent.stats_of Agent.isDirectory].
    erewrite bind_inr by (apply unlink_file with (c := c); exact E).
    intros _. cbn [snd Fs.ret Fs.files Fs.set_files Fs.record].
    change (Fs.key (Fs.record _ (Fs.record _ w)) r) with (Fs.key w r).
    split; [apply lookup_delete_eq|].
    intros k Hk _. apply lookup_delete_ne. congruence.
  - rewrite (agent_delete_directory cfg req w r Ha Hs E).
    destruct (strict_eq_str _ _); [|discriminate].
    intros _. cbn [snd Fs.files Fs.set_files].
    split; [apply remove_tree_root|].
    intros k Hk Hb. apply remove_tree_elsewhere; assumption.
  - unfold Agent.delete_files. rewrite (assertAuth_accepts _ _ Ha).
    unfold Agent.guarded.
    erewrite bind_inr by (unfold Agent.safePathM; rewrite Hs; reflexivity).
    erewrite bind_inr by (apply fileExists_absent; exact E).
    discriminate.
Qed.

Lemma delete_files_removes_only_target_witness :
  Fs.files (snd (Agent.delete_files cfg_cs req_delete_app world_cs))
    !! "/workspaces/codespaces-blank/src/app.js" = None
  /\ Fs.files (snd (Agent.delete_files cfg_cs req_delete_app world_cs))
       !! "/workspaces/codespaces-blank/src" = Some Fs.Dir.
Proof.
  pose proof (delete_files_removes_only_target cfg_cs req_delete_app world_cs
                "/workspaces/codespaces-blank/src/app.js" eq_refl eq_refl eq_refl)
    as [H1 H2].
  split; [exact H1|].
  rewrite (H2 "/workspaces/codespaces-blank/src"); [reflexivity | discriminate | reflexivity].
Defined.

(** ** Creating directories *)

Lemma canonical_segments k segs :
  k = "/" +:+ String.concat "/" segs ->
  Forall (fun s => NodePath.clean_segment s = true) segs ->
  NodePath.normalizeSegs false [] (NodePath.split k) = segs.
Proof.
  intros -> H.
  change ("/" +:+ String.concat "/" segs)
    with (EmptyString +:+ "/" +:+ String.concat "/" segs).
  rewrite split_app, normalizeSegs_app.
  change (NodePath.normalizeSegs false [] (NodePath.split EmptyString)) with (@nil string).
  cbn [rev]. apply (split_concat segs H [] false).
Qed.

Lemma ancestors_self k : NodePath.canonical k -> In k (Fs.ancestors k).
Proof.
  intros [segs [Hk H]]. unfold Fs.ancestors.
  rewrite (canonical_segments k segs Hk H).
  destruct segs as [|x segs]; [left; now subst|].
  right. apply in_map_iff. exists (length (x :: segs)). split.
  - rewrite firstn_all. now subst.
  - apply in_seq. cbn [length]. lia.
Qed.

Lemma fold_insert_dir (l : list string) (fs : gmap string Fs.node) k :
  In k l -> fold_right (fun a m => <[a := Fs.Dir]> m) fs l !! k = Some Fs.Dir.
Proof.
  induction l as [|a l IH]; [contradiction|].
  intros [->|Hin]; cbn [fold_right]; [apply lookup_insert_eq|].
  destruct (decide (a = k)) as [->|Hne]; [apply lookup_insert_eq|].
  rewrite lookup_insert_ne by exact Hne. apply IH. exact Hin.
Qed.

Lemma mkdir_inr p b w w' :
  NodePath.canonical (Fs.key w p) ->
  Fs.mkdir p b w = (inr tt, w') ->
  Fs.files w' !! Fs.key w p = Some Fs.Dir /\ Fs.cwd w' = Fs.cwd w.
Proof.
  intros Hk. unfold Fs.mkdir. cbv zeta.
  cbn [Fs.files Fs.record]. change (Fs.key (Fs.record _ w) p) with (Fs.key w p).
  destruct b.
  - destruct (Fs.is_file _ _); [discriminate|].
    destruct (existsb _ _); [discriminate|].
    intros [= <-]. cbn [Fs.files Fs.cwd Fs.set_files Fs.record].
    split; [|reflexivity].
    apply (fold_insert_dir (Fs.ancestors (Fs.key w p))), ancestors_self, Hk.
  - destruct (Fs.files w !! Fs.key w p); [discriminate|].
    destruct (Fs.files w !! Fs.parent (Fs.key w p)) as [[c|]|]; try discriminate.
    intros [= <-]. cbn [Fs.files Fs.cwd Fs.set_files Fs.record].
    split; [apply lookup_insert_eq | reflexivity].
Qed.

Lemma get_stat_present cfg req w r n :
  authorization req = Some ("Bearer " +:+ Agent.AGENT_TOKEN cfg) ->
  Agent.safePath cfg (Fs.cwd w) (get_prop (query req) "path") = inr r ->
  Fs.files w !! Fs.key w r = Some n ->
  fst (Agent.get_stat cfg req w)
  = json (JObj [("path", get_prop (query req) "path");
                ("stats", Agent.stats_json (Some (Agent.stats_of n)))]).
Proof.
  intros Ha Hs E.
  unfold Agent.get_stat. rewrite (assertAuth_accepts _ _ Ha). unfold Agent.guarded.
  erewrite bind_inr by (unfold Agent.safePathM; rewrite Hs; reflexivity).
  erewrite bind_inr by (apply fileExists_present with (n := n); exact E).
  cbn [negb].
  erewrite bind_inr by (apply getFileStats_present with (n := n); exact E).
  reflexivity.
Qed.

(** X12: a directory creation that was answered [200], followed by a stat
    of the same path, reports a directory (in a process whose working
    directory is absolute). *)
Theorem mkdir_then_stat (cfg : Agent.config) (create probe : request) (w : Fs.world)
    (p : string) :
  NodePath.isAbsolute (Fs.cwd w) = true ->
  authorization create = Some ("Bearer " +:+ Agent.AGENT_TOKEN cfg) ->
  authorization probe = Some ("Bearer " +:+ Agent.AGENT_TOKEN cfg) ->
  get_prop (body create) "path" = JStr p ->
  get_prop (query probe) "path" = JStr p ->
  status (fst (Agent.post_mkdir cfg create w)) = 200 ->
  fst (Agent.get_stat cfg probe (snd (Agent.post_mkdir cfg create w)))
  = json (JObj [("path", JStr p);
                ("stats", JObj [("size", JNum false Agent.dir_size 0);
                                ("isDirectory", JBool true);
                                ("isFile", JBool false)])]).
Proof.
  intros Habs Hc Hq Hp Hpq.
  assert (exists props, body create = JObj props) as [props Hb]
    by (destruct (body create); try discriminate; eauto).
  unfold Agent.post_mkdir at 1 2. rewrite (assertAuth_accepts _ _ Hc).
  rewrite Hb in *. unfold destructure. rewrite bind_ret. rewrite Hp.
  match goal with
  | |- context [Agent.guarded ?m w] => remember (Agent.guarded m w) as res eqn:Hres
  end.
  destruct (truthy (JStr p)); cbn [negb] in Hres; [|subst res; discriminate].
  rewrite guarded_bind in Hres. unfold Agent.safePathM in Hres.
  destruct (Agent.safePath cfg (Fs.cwd w) (JStr p)) as [e|r] eqn:Es;
    [subst res; discriminate|].
  rewrite guarded_bind in Hres.
  assert (NodePath.canonical (Fs.key w r)) as Hk
    by (apply resolve_canonical; exact Habs).
  match type of Hres with
  | context [Agent.mkdir_value r ?v w] =>
      destruct (Agent.mkdir_value r v w) as [[e|[]] w1] eqn:Em;
        [subst res; discriminate|];
      assert (Fs.files w1 !! Fs.key w r = Some Fs.Dir /\ Fs.cwd w1 = Fs.cwd w)
        as [Hf Hcwd]
        by (destruct v; try discriminate; apply (mkdir_inr r b w w1 Hk Em))
  end.
  cbn [Agent.guarded Fs.ret] in Hres. subst res. intros _. cbn [snd].
  assert (Agent.safePath cfg (Fs.cwd w1) (get_prop (query probe) "path") = inr r) as Hs'
    by (rewrite Hpq, Hcwd; exact Es).
  assert (Fs.key w1 r = Fs.key w r) as Hk1 by (unfold Fs.key; now rewrite Hcwd).
  rewrite (get_stat_present cfg probe w1 r Fs.Dir Hq Hs') by (rewrite Hk1; exact Hf).
  rewrite Hpq. reflexivity.
Qed.

Lemma mkdir_then_stat_witness :
  fst (Agent.get_stat cfg_cs req_stat_nested
         (snd (Agent.post_mkdir cfg_cs req_mkdir_nested world_cs)))
  = json (JObj [("path", JStr "build/out/js");
                ("stats", JObj [("size", JNum false 4096 0);
                                ("isDirectory", JBool true);
                                ("isFile", JBool false)])]).
Proof.
  apply (mkdir_then_stat cfg_cs req_mkdir_nested req_stat_nested world_cs
           "build/out/js"); reflexivity.
Defined.

(** ** Search *)

Lemma searchRecursive_hits cfg (P : jsval -> Prop) qs
    (HP : forall name path type,
        includes (toLowerCase name) (toLowerCase qs) = true ->
        P (JObj [("name", JStr name); ("path", path); ("type", type)]))
    levels : forall dir results w,
  Forall P results ->
  Forall P (fst (Agent.searchRecursive cfg levels (JStr qs) dir results w)).
Proof.
  induction levels as [|levels IH]; intros dir results w Hr; [exact Hr|].
  cbn [Agent.searchRecursive].
  destruct (Fs.readdir dir w) as [[e|entries] w']; [exact Hr|].
  revert results w' Hr.
  induction entries as [|[name n] entries IHe]; intros results w' Hr; [exact Hr|].
  match goal with
  | |- context [if ?c then results ++ ?hit else results] =>
      assert (Forall P (if c then results ++ hit else results)) as Hr1
        by (destruct c eqn:Ec; [apply Forall_app; split;
                                  [exact Hr | repeat constructor; apply HP, Ec]
                               | exact Hr]);
      generalize dependent (if c then results ++ hit else results)
  end.
  intros results1 Hr1.
  destruct n as [c|].
  - apply IHe, Hr1.
  - destruct (negb (startsWith name ".")).
    + match goal with
      | |- context [Agent.searchRecursive cfg levels ?q ?d ?r ?w0] =>
          pose proof (IH d r w0 Hr1) as H2;
          destruct (Agent.searchRecursive cfg levels q d r w0) as [r2 w2]
      end.
      apply IHe, H2.
    + apply IHe, Hr1.
Qed.

(** X13: where the query and the paths of all files and directories are
    made of ASCII characters, a search that is answered [200] for a string
    query reports only entries whose name contains the query, the case of
    the letters [A] to [Z] apart, echoes the query, and counts the results
    it lists. *)
Theorem get_search_hits (cfg : Agent.config) (req : request) (w : Fs.world)
    (qs : string) :
  authorization req = Some ("Bearer " +:+ Agent.AGENT_TOKEN cfg) ->
  get_prop (query req) "query" = JStr qs ->
  is_ascii_string qs = true ->
  map_Forall (fun k (_ : Fs.node) => is_ascii_string k = true) (Fs.files w) ->
  status (fst (Agent.get_search cfg req w)) = 200 ->
  exists rs,
    fst (Agent.get_search cfg req w)
    = json (JObj [("query", JStr qs); ("results", JArr rs);
                  ("count", jnat (length rs))])
    /\ Forall (fun v => exists name,
                   get_prop v "name" = JStr name
                   /\ includes (toLowerCase name) (toLowerCase qs) = true) rs.
Proof.
  intros Ha Hq _ _.
  assert (exists props, query req = JObj props) as [props Hb]
    by (destruct (query req); try discriminate; eauto).
  unfold Agent.get_search. rewrite (assertAuth_accepts _ _ Ha).
  rewrite Hb in *. unfold destructure. rewrite bind_ret. rewrite Hq.
  match goal with
  | |- context [Agent.guarded ?m w] => remember (Agent.guarded m w) as res eqn:Hres
  end.
  destruct (truthy (JStr qs)); cbn [negb] in Hres; [|subst res; discriminate].
  rewrite guarded_bind in Hres. unfold Agent.safePathM in Hres.
  match type of Hres with
  | context [Agent.safePath cfg (Fs.cwd w) ?v] =>
      destruct (Agent.safePath cfg (Fs.cwd w) v) as [e|r]; [subst res; discriminate|]
  end.
  rewrite guarded_bind in Hres.
  pose proof (searchRecursive_hits cfg
                (fun v => exists name, get_prop v "name" = JStr name
                          /\ includes (toLowerCase name) (toLowerCase qs) = true)
                qs) as Hhits.
  specialize (Hhits ltac:(intros name path type H; exists name; split;
                            [reflexivity | exact H]) 6 r [] w (List.Forall_nil _)).
  destruct (Agent.searchRecursive cfg 6 (JStr qs) r [] w) as [rs w1].
  cbn [Agent.guarded Fs.ret] in Hres. subst res. intros _.
  exists rs. split; [reflexivity | exact Hhits].
Qed.

Lemma get_search_hits_witness :
  exists rs,
    fst (Agent.get_search cfg_cs req_search_app world_cs)
    = json (JObj [("query", JStr "APP"); ("results", JArr rs);
                  ("count", jnat (length rs))])
    /\ Forall (fun v => exists name,
                   get_prop v "name" = JStr name
                   /\ includes (toLowerCase name) (toLowerCase "APP") = true) rs.
Proof.
  apply (get_search_hits cfg_cs req_search_app world_cs "APP");
    try reflexivity.
  intros k n H. cbn [Fs.files world_cs] in H. unfold files_cs in H.
  apply elem_of_list_to_map_2, list_elem_of_In in H. cbn [In] in H.
  repeat (destruct H as [H|H]; [injection H as <- _; reflexivity|]).
  contradiction.
Defined.

Lemma searchRecursive_other cfg levels q dir results w :
  (forall qs, q <> JStr qs) ->
  fst (Agent.searchRecursive cfg levels q dir results w) = results.
Proof.
  intros Hq. destruct levels as [|levels]; [reflexivity|].
  cbn [Agent.searchRecursive].
  destruct (Fs.readdir dir w) as [[e|entries] w']; [reflexivity|].
  destruct q; try reflexivity. now destruct (Hq s).
Qed.

(** X14: a query that is present and is no string (a repeated [query]
    parameter arrives as a list) is never answered with a result: the
    answer is [200] with an empty result list, or a [400]. *)
Theorem get_search_non_string (cfg : Agent.config) (req : request) (w : Fs.world) :
  authorization req = Some ("Bearer " +:+ Agent.AGENT_TOKEN cfg) ->
  truthy (get_prop (query req) "query") = true ->
  (forall qs, get_prop (query req) "query" <> JStr qs) ->
  fst (Agent.get_search cfg req w)
  = json (JObj [("query", get_prop (query req) "query"); ("results", JArr []);
                ("count", jnat 0)])
  \/ status (fst (Agent.get_search cfg req w)) = 400.
Proof.
  intros Ha Ht Hq.
  destruct (truthy_prop_object _ _ Ht) as [props Hb].
  unfold Agent.get_search. rewrite (assertAuth_accepts _ _ Ha).
  rewrite Hb in *. unfold destructure. rewrite bind_ret. rewrite Ht. cbn [negb].
  rewrite guarded_bind. unfold Agent.safePathM.
  match goal with
  | |- context [Agent.safePath cfg (Fs.cwd w) ?v] =>
      destruct (Agent.safePath cfg (Fs.cwd w) v) as [e|r]; [right; reflexivity|]
  end.
  rewrite guarded_bind.
  pose proof (searchRecursive_other cfg 6 _ r [] w Hq) as Hs.
  destruct (Agent.searchRecursive cfg 6 _ r [] w) as [rs w1].
  cbn [fst] in Hs. subst rs. left. reflexivity.
Qed.

Lemma get_search_non_string_witness :
  fst (Agent.get_search cfg_cs req_search_list world_cs)
  = json (JObj [("query", JArr [JStr "app"; JStr "src"]); ("results", JArr []);
                ("count", jnat 0)])
  \/ status (fst (Agent.get_search cfg_cs req_search_list world_cs)) = 400.
Proof.
  apply (get_search_non_string cfg_cs req_search_list world_cs);
    [reflexivity | reflexivity | intros qs; discriminate].
Defined.

(** ** The table of terminal sessions *)

Lemma on_upgrade_accepted cfg platform req s (m : gmap string nat) :
  Agent.up_authorization req = Some ("Bearer " +:+ Agent.AGENT_TOKEN cfg) ->
  Agent.up_url req = "/ws/terminal" ->
  Agent.on_upgrade cfg platform req s m
  = (<[Agent.sessionId s := Agent.shell s]> m,
     Agent.HandleUpgrade :: snd (Agent.on_connection cfg platform s m)).
Proof.
  intros Ha Hu. unfold Agent.on_upgrade.
  rewrite (proj2 (upgrade_auth_fails_iff cfg req) Ha), Hu. reflexivity.
Qed.

Lemma step_registered cfg ev (m : gmap string nat) id sh :
  fst (Agent.step cfg ev m) !! id = Some sh ->
  m !! id = Some sh
  \/ exists platform req s,
       ev = Agent.EvUpgrade platform req s
       /\ Agent.sessionId s = id /\ Agent.shell s = sh
       /\ Agent.up_authorization req = Some ("Bearer " +:+ Agent.AGENT_TOKEN cfg)
       /\ Agent.up_url req = "/ws/terminal".
Proof.
  destruct ev as [platform req s| | s ? ? ? | | s]; cbn [Agent.step fst].
  - unfold Agent.on_upgrade.
    destruct (Agent.upgrade_auth_fails cfg req) eqn:Ea; [now left|].
    destruct (String.eqb_spec (Agent.up_url req) "/ws/terminal") as [Hu|_]; [|now left].
    unfold Agent.on_connection. cbn [fst].
    destruct (decide (Agent.sessionId s = id)) as [Hid|Hne].
    + rewrite Hid, lookup_insert_eq. intros [= <-]. right.
      exists platform, req, s. apply upgrade_auth_fails_iff in Ea. auto.
    + rewrite lookup_insert_ne by exact Hne. now left.
  - now left.
  - unfold Agent.on_exit. cbn [fst]. intros H.
    apply lookup_delete_Some in H as [_ H]. now left.
  - now left.
  - unfold Agent.on_close. cbn [fst]. intros H.
    apply lookup_delete_Some in H as [_ H]. now left.
Qed.

Lemma run_registered cfg evs : forall (m : gmap string nat) id sh,
  fst (Agent.run cfg evs m) !! id = Some sh ->
  m !! id = Some sh
  \/ exists platform req s,
       In (Agent.EvUpgrade platform req s) evs
       /\ Agent.sessionId s = id /\ Agent.shell s = sh
       /\ Agent.up_authorization req = Some ("Bearer " +:+ Agent.AGENT_TOKEN cfg)
       /\ Agent.up_url req = "/ws/terminal".
Proof.
  induction evs as [|ev evs IH]; intros m id sh; [now left|].
  cbn [Agent.run].
  pose proof (step_registered cfg ev m id sh) as H1.
  destruct (Agent.step cfg ev m) as [m1 effects1].
  specialize (IH m1 id sh).
  destruct (Agent.run cfg evs m1) as [m2 effects2].
  cbn [fst] in *. intros H.
  destruct (IH H) as [Hm1|(platform & req & s & Hin & Hrest)].
  - destruct (H1 Hm1) as [Hm|(platform & req & s & -> & Hrest)]; [now left|].
    right. exists platform, req, s. split; [now left | exact Hrest].
  - right. exists platform, req, s. split; [now right | exact Hrest].
Qed.

(** X15: whatever events the terminal server has handled since it started
    with an empty table, a pseudo-terminal that is registered under an id
    was registered by an upgrade request among them for the path
    [/ws/terminal] that carried the exact credential. *)
Theorem registered_sessions_were_authorized (cfg : Agent.config)
    (evs : list Agent.event) (id : string) (sh : nat) :
  fst (Agent.run cfg evs ∅) !! id = Some sh ->
  exists platform req s,
    In (Agent.EvUpgrade platform req s) evs
    /\ Agent.sessionId s = id /\ Agent.shell s = sh
    /\ Agent.up_authorization req = Some ("Bearer " +:+ Agent.AGENT_TOKEN cfg)
    /\ Agent.up_url req = "/ws/terminal".
Proof.
  intros H. destruct (run_registered cfg evs ∅ id sh H) as [He|Hex]; [|exact Hex].
  rewrite lookup_empty in He. discriminate.
Qed.

Lemma registered_sessions_were_authorized_witness :
  exists platform req s,
    In (Agent.EvUpgrade platform req s)
       [Agent.EvUpgrade "linux" upgrade_wrong_token session_cs_again;
        Agent.EvUpgrade "linux" upgrade_right_token session_cs;
        Agent.EvMessage session_cs "ls"]
    /\ Agent.sessionId s = "k3x9qf" /\ Agent.shell s = 7
    /\ Agent.up_authorization req = Some ("Bearer " +:+ Agent.AGENT_TOKEN cfg_cs)
    /\ Agent.up_url req = "/ws/terminal".
Proof.
  apply (registered_sessions_were_authorized cfg_cs
           [Agent.EvUpgrade "linux" upgrade_wrong_token session_cs_again;
            Agent.EvUpgrade "linux" upgrade_right_token session_cs;
            Agent.EvMessage session_cs "ls"] "k3x9qf" 7).
  reflexivity.
Defined.

(** X16: on [SIGTERM] the handler asks exactly the registered
    pseudo-terminals to stop, and calls nothing else on a socket or a
    terminal. *)
Theorem on_sigterm_kills_registered (activeSessions : gmap string nat)
    (e : Agent.effect) :
  In e (Agent.on_sigterm activeSessions)
  <-> exists id sh, activeSessions !! id = Some sh /\ e = Agent.ShellKill sh.
Proof.
  unfold Agent.on_sigterm. rewrite in_map_iff. split.
  - intros [[id sh] [<- Hin]]. exists id, sh. split; [|reflexivity].
    apply elem_of_map_to_list, list_elem_of_In, Hin.
  - intros (id & sh & Hm & ->). exists (id, sh). split; [reflexivity|].
    apply list_elem_of_In, elem_of_map_to_list, Hm.
Qed.

(** X17: a session registered under an id that was free leaves the table
    as it was before, once its shell exits or its socket is closed. *)
Theorem session_leaves_table_as_before (cfg : Agent.config) (platform : string)
    (s : Agent.session) (ws_open : bool) (exitCode signal : jsval)
    (activeSessions : gmap string nat) :
  activeSessions !! Agent.sessionId s = None ->
  fst (Agent.on_exit s ws_open exitCode signal
         (fst (Agent.on_connection cfg platform s activeSessions))) = activeSessions
  /\ fst (Agent.on_close s (fst (Agent.on_connection cfg platform s activeSessions)))
     = activeSessions.
Proof.
  intros H. unfold Agent.on_exit, Agent.on_close, Agent.on_connection. cbn [fst].
  split; apply delete_insert_id, H.
Qed.

Lemma session_leaves_table_as_before_witness :
  fst (Agent.on_exit session_cs true (jnat 0) JUndefined
         (fst (Agent.on_connection cfg_cs "linux" session_cs no_sessions))) = no_sessions
  /\ fst (Agent.on_close session_cs
            (fst (Agent.on_connection cfg_cs "linux" session_cs no_sessions)))
     = no_sessions.
Proof.
  apply (session_leaves_table_as_before cfg_cs "linux" session_cs true (jnat 0)
           JUndefined no_sessions).
  reflexivity.
Defined.

(** X18: when a second connection draws the id of a session that is still
    open, the table keeps only the second pseudo-terminal; once the second
    socket is closed the first pseudo-terminal is registered under no id,
    none of the three handlers has asked it to stop, and [SIGTERM] does not
    ask it either. *)
Theorem colliding_id_orphans_first_shell (cfg : Agent.config) (platform : string)
    (req : Agent.upgrade_request) (s1 s2 : Agent.session)
    (activeSessions : gmap string nat) :
  Agent.up_authorization req = Some ("Bearer " +:+ Agent.AGENT_TOKEN cfg) ->
  Agent.up_url req = "/ws/terminal" ->
  Agent.sessionId s1 = Agent.sessionId s2 ->
  Agent.shell s1 <> Agent.shell s2 ->
  (forall id, activeSessions !! id <> Some (Agent.shell s1)) ->
  let trace := [Agent.EvUpgrade platform req s1; Agent.EvUpgrade platform req s2;
                Agent.EvClose s2] in
  (forall id, fst (Agent.run cfg trace activeSessions) !! id <> Some (Agent.shell s1))
  /\ ~ In (Agent.ShellKill (Agent.shell s1)) (snd (Agent.run cfg trace activeSessions))
  /\ ~ In (Agent.ShellKill (Agent.shell s1))
         (Agent.on_sigterm (fst (Agent.run cfg trace activeSessions))).
Proof.
  intros Ha Hu Hid Hsh Hm trace. subst trace.
  cbn [Agent.run Agent.step].
  rewrite (on_upgrade_accepted cfg platform req s1 _ Ha Hu).
  rewrite (on_upgrade_accepted cfg platform req s2 _ Ha Hu).
  unfold Agent.on_close, Agent.on_connection. cbn [fst snd app].
  assert (forall id,
             delete (Agent.sessionId s2)
               (<[Agent.sessionId s2 := Agent.shell s2]>
                  (<[Agent.sessionId s1 := Agent.shell s1]> activeSessions)) !! id
             <> Some (Agent.shell s1)) as Htable.
  { intros id H. apply lookup_delete_Some in H as [Hne H].
    rewrite lookup_insert_ne in H by exact Hne.
    rewrite Hid in H. rewrite lookup_insert_ne in H by exact Hne.
    exact (Hm id H). }
  split; [exact Htable|]. split.
  - cbn [In]. intros [H|[H|[H|[H|[H|[H|[H|[]]]]]]]]; try discriminate.
    injection H as H. apply Hsh. symmetry. exact H.
  - unfold Agent.on_sigterm. rewrite in_map_iff. intros [[id sh] [H Hin]].
    injection H as ->.
    apply (Htable id). apply elem_of_map_to_list, list_elem_of_In, Hin.
Qed.

Lemma colliding_id_orphans_first_shell_witness :
  let trace := [Agent.EvUpgrade "linux" upgrade_right_token session_cs;
                Agent.EvUpgrade "linux" upgrade_right_token session_cs_again;
                Agent.EvClose session_cs_again] in
  (forall id, fst (Agent.run cfg_cs trace no_sessions) !! id <> Some 7)
  /\ ~ In (Agent.ShellKill 7) (snd (Agent.run cfg_cs trace no_sessions))
  /\ ~ In (Agent.ShellKill 7) (Agent.on_sigterm (fst (Agent.run cfg_cs trace no_sessions))).
Proof.
  apply (colliding_id_orphans_first_shell cfg_cs "linux" upgrade_right_token
           session_cs session_cs_again no_sessions);
    try reflexivity; [discriminate|].
  intros id. unfold no_sessions. rewrite lookup_empty. discriminate.
Defined.

(** ** Reading a batch of files *)

Lemma mapM_reads {A B} (f : A -> Fs.M B)
    (R : gmap string Fs.node -> string -> A -> B -> Prop) :
  (forall a w, exists b w',
      f a w = (inr b, w') /\ Fs.files w' = Fs.files w /\ Fs.cwd w' = Fs.cwd w
      /\ R (Fs.files w) (Fs.cwd w) a b) ->
  forall l w, exists bs w',
    Agent.mapM f l w = (inr bs, w') /\ Fs.files w' = Fs.files w
    /\ Fs.cwd w' = Fs.cwd w /\ Forall2 (R (Fs.files w) (Fs.cwd w)) l bs.
Proof.
  intros Hf. induction l as [|a l IH]; intros w; cbn [Agent.mapM].
  - exists [], w. repeat split. constructor.
  - destruct (Hf a w) as (b & w1 & Ef & Hf1 & Hc1 & HR).
    destruct (IH w1) as (bs & w2 & El & Hf2 & Hc2 & HRs).
    exists (b :: bs), w2.
    erewrite bind_inr by exact Ef. erewrite bind_inr by exact El.
    rewrite Hf1, Hc1 in *.
    repeat split; try assumption. constructor; assumption.
Qed.



(** ** Round trips of [ProjectManager] *)

Lemma wrap_inr {A} what (m : Fs.M A) w a w' :
  ProjectManager.wrap what m w = (inr a, w') -> m w = (inr a, w').
Proof.
  unfold ProjectManager.wrap, Fs.try_catch, Fs.throw.
  destruct (m w) as [[e|a0] w0]; [discriminate | exact id].
Qed.

(** X22: after [createFile] has resolved for a path and a text, [readFile]
    of the same path resolves with that text and the joined path. *)
Theorem createFile_then_readFile (basePath p C : string) (w : Fs.world) (v : jsval) :
  fst (ProjectManager.createFile basePath (JStr p) (JStr C) w) = inr v ->
  fst (ProjectManager.readFile basePath (JStr p)
         (snd (ProjectManager.createFile basePath (JStr p) (JStr C) w)))
  = inr (JObj [("success", JBool true); ("content", JStr C);
               ("path", JStr (NodePath.join [basePath; p]))]).
Proof.
  destruct (ProjectManager.createFile basePath (JStr p) (JStr C) w) as [r w1] eqn:H.
  cbn [fst snd]. intros ->. revert H.
  unfold ProjectManager.createFile, ProjectManager.readFile, ProjectManager.fullPathOf.
  rewrite !bind_ret. intros H. apply wrap_inr in H.
  set (fullPath := NodePath.join [basePath; p]) in *.
  unfold Fs.bind in H at 1.
  pose proof (mkdir_keeps_cwd (NodePath.dirname fullPath) true w) as Hc0.
  destruct (Fs.mkdir (NodePath.dirname fullPath) true w) as [[e|[]] w0];
    [discriminate|].
  cbn [snd] in Hc0. unfold Fs.bind in H at 1.
  cbn [ProjectManager.writeFile_value] in H.
  destruct (Fs.writeFile fullPath C w0) as [[e|[]] w1'] eqn:Ew; [discriminate|].
  injection H as _ <-.
  apply writeFile_inr in Ew as (Hf & Hc & _).
  assert (Fs.key w1' fullPath = Fs.key w0 fullPath) as Hk
    by (unfold Fs.key; now rewrite Hc).
  unfold ProjectManager.wrap, Fs.try_catch.
  erewrite bind_inr by (apply readFile_file with (c := C); rewrite Hk; exact Hf).
  reflexivity.
Qed.

Lemma createFile_then_readFile_witness :
  fst (ProjectManager.readFile "../" (JStr "docs/api/index.md")
         (snd (ProjectManager.createFile "../" (JStr "docs/api/index.md")
                 (JStr "# API") world_cs)))
  = inr (JObj [("success", JBool true); ("content", JStr "# API");
               ("path", JStr (NodePath.join ["../"; "docs/api/index.md"]))]).
Proof.
  apply (createFile_then_readFile "../" "docs/api/index.md" "# API" world_cs
           (JObj [("success", JBool true);
                  ("message", JStr "File created: docs/api/index.md");
                  ("path", JStr "../docs/api/index.md")])).
  reflexivity.
Defined.

(** X23: after [deletePath] has resolved for a path, [getStats] of the
    same path resolves with [exists: false], whether a file or a directory
    was deleted. *)
Theorem deletePath_then_getStats (basePath p : string) (w : Fs.world) (v : jsval) :
  fst (ProjectManager.deletePath basePath (JStr p) w) = inr v ->
  fst (ProjectManager.getStats basePath (JStr p)
         (snd (ProjectManager.deletePath basePath (JStr p) w)))
  = inr (JObj [("success", JBool true); ("exists", JBool false);
               ("path", JStr (NodePath.join [basePath; p]))]).
Proof.
  destruct (ProjectManager.deletePath basePath (JStr p) w) as [r w1] eqn:H.
  cbn [fst snd]. intros ->. revert H.
  unfold ProjectManager.deletePath, ProjectManager.getStats, ProjectManager.fullPathOf.
  rewrite !bind_ret. intros H. apply wrap_inr in H.
  set (fullPath := NodePath.join [basePath; p]) in *.
  assert (Fs.files w1 !! Fs.key w1 fullPath = None) as Hnone.
  { unfold Fs.bind, Fs.stat in H. cbv zeta in H.
    cbn [Fs.files Fs.record] in H.
    change (Fs.key (Fs.record (Fs.FsStat fullPath) w) fullPath)
      with (Fs.key w fullPath) in H.
    destruct (Fs.files w !! Fs.key w fullPath) as [[c|]|] eqn:E; [| |discriminate].
    - erewrite unlink_file in H by (cbn [Fs.files Fs.record]; exact E).
      injection H as _ <-. cbn [Fs.files Fs.set_files]. apply lookup_delete_eq.
    - erewrite rm_directory_recursive in H by (cbn [Fs.files Fs.record]; exact E).
      injection H as _ <-. cbn [Fs.files Fs.set_files]. apply remove_tree_root. }
  unfold Fs.try_catch, Fs.bind, Fs.stat. cbv zeta. cbn [Fs.files Fs.record].
  change (Fs.key (Fs.record (Fs.FsStat fullPath) w1) fullPath)
    with (Fs.key w1 fullPath).
  rewrite Hnone. reflexivity.
Qed.

Lemma deletePath_then_getStats_witness :
  fst (ProjectManager.getStats "../" (JStr "src")
         (snd (ProjectManager.deletePath "../" (JStr "src") world_cs)))
  = inr (JObj [("success", JBool true); ("exists", JBool false);
               ("path", JStr (NodePath.join ["../"; "src"]))]).
Proof.
  apply (deletePath_then_getStats "../" "src" world_cs
           (JObj [("success", JBool true);
                  ("message", JStr "Directory deleted: src")])).
  reflexivity.
Defined.

(** ** The origin check *)

Lemma substring_middle (pre t post : string) :
  String.substring (String.length pre) (String.length t) (pre +:+ t +:+ post) = t.
Proof.
  induction pre as [|c pre IH]; [|exact IH].
  change (EmptyString +:+ t +:+ post) with (t +:+ post). cbn [String.length].
  induction t as [|c t IHt]; [destruct post; reflexivity|].
  change (String c t +:+ post) with (String c (t +:+ post)).
  cbn [String.length String.substring]. now rewrite IHt.
Qed.

Lemma substring_found (s t : string) : forall m,
  String.substring m (String.length t) s = t ->
  exists pre post, s = pre +:+ t +:+ post.
Proof.
  induction s as [|c s IH]; intros m H.
  - assert (t = EmptyString) as -> by (destruct m, (String.length t); now inversion H).
    exists EmptyString, EmptyString. reflexivity.
  - destruct m as [|m].
    + exists EmptyString. change (EmptyString +:+ t +:+ ?p) with (t +:+ p).
      clear IH. revert c s H.
      induction t as [|x t IHt]; intros c s H; [eexists; reflexivity|].
      cbn [String.length String.substring] in H. injection H as -> H.
      destruct s as [|c' s].
      * assert (t = EmptyString) as ->
          by (destruct (String.length t); now inversion H).
        exists EmptyString. reflexivity.
      * destruct (IHt c' s H) as [post ->]. exists post. reflexivity.
    + cbn [String.substring] in H. destruct (IH m H) as (pre & post & ->).
      exists (String c pre), post. reflexivity.
Qed.

Lemma includes_iff (hay needle : string) :
  needle <> EmptyString ->
  includes hay needle = true <-> exists pre post, hay = pre +:+ needle +:+ post.
Proof.
  intros Hne. unfold includes. split.
  - destruct (String.index 0 needle hay) as [m|] eqn:E; [|discriminate].
    intros _. apply String.index_correct1 in E. exact (substring_found hay needle m E).
  - intros (pre & post & ->).
    destruct (String.index 0 needle (pre +:+ needle +:+ post)) as [m|] eqn:E;
      [reflexivity|].
    exfalso.
    apply (String.index_correct3 0 (String.length pre) needle _ E Hne);
      [lia | apply substring_middle].
Qed.

(** X24: the origin check lets a request through exactly when it carries
    no origin, an empty one, or one that contains [.app.github.dev],
    [localhost] or [.scf.usercontent.goog] at any place: an origin such as
    [https://localhost.example.org] passes. *)
Theorem origin_allowed_iff (o : string) :
  Server.origin_allowed (Some o) = true
  <-> o = EmptyString
      \/ exists marker pre post,
           In marker Server.origin_markers /\ o = pre +:+ marker +:+ post.
Proof.
  unfold Server.origin_allowed, Server.origin_markers.
  rewrite !orb_true_iff, !includes_iff by discriminate.
  split.
  - intros [[[H|(pre & post & H)]|(pre & post & H)]|(pre & post & H)].
    + left. now apply String.eqb_eq.
    + right. exists ".app.github.dev", pre, post. cbn [In]. auto.
    + right. exists "localhost", pre, post. cbn [In]. auto.
    + right. exists ".scf.usercontent.goog", pre, post. cbn [In]. auto.
  - intros [->|(marker & pre & post & Hin & ->)]; [now repeat left|].
    cbn [In] in Hin. destruct Hin as [<-|[<-|[<-|[]]]]; eauto 6.
Qed.

Lemma origin_allowed_iff_witness :
  Server.origin_allowed (Some "https://localhost.example.org") = true
  /\ Server.origin_allowed (Some "https://example.org") = false
  /\ Server.origin_allowed None = true.
Proof.
  split; [|split; reflexivity].
  apply (proj2 (origin_allowed_iff "https://localhost.example.org")).
  right. exists "localhost", "https://", ".example.org".
  split; [cbn; auto | reflexivity].
Defined.

(** ** Listing a directory *)

Lemma substring_all (s : string) : String.substring 0 (String.length s) s = s.
Proof. induction s as [|c s IH]; [reflexivity|]. cbn. now rewrite IH. Qed.

Lemma prefix_split (a k : string) :
  String.prefix a k = true ->
  k = a +:+ String.substring (String.length a) (String.length k - String.length a) k.
Proof.
  revert k. induction a as [|c a IH]; intros k H.
  - cbn [String.length]. rewrite Nat.sub_0_r, substring_all. reflexivity.
  - destruct k as [|c' k]; [discriminate|].
    rewrite prefix_cons in H. destruct (ascii_dec c c') as [<-|]; [|discriminate].
    cbn [String.length Nat.sub String.substring].
    change (String c a +:+ ?x) with (String c (a +:+ x)).
    f_equal. apply IH, H.
Qed.

Lemma string_length_append (a b : string) :
  String.length (a +:+ b) = String.length a + String.length b.
Proof.
  induction a as [|c a IH]; [reflexivity|].
  change (String c a +:+ b) with (String c (a +:+ b)). cbn [String.length].
  now rewrite IH.
Qed.

Lemma split_single s n :
  NodePath.split s = [n] -> s = n /\ NodePath.has_sep s = false.
Proof.
  revert n. induction s as [|c s IH]; intros n.
  - intros [= <-]. split; reflexivity.
  - cbn [NodePath.split NodePath.has_sep].
    destruct (NodePath.is_sep c).
    + intros [= _ H]. now destruct (split_nonempty s).
    + destruct (NodePath.split s) as [|seg segs] eqn:E; [now destruct (split_nonempty s)|].
      intros [= <- ->]. destruct (IH seg eq_refl) as [-> Hs].
      split; [reflexivity | exact Hs].
Qed.

(** The entries of a directory are the paths one clean name below it. *)
Lemma entry_name_iff d k name :
  Fs.entry_name d k = Some name
  <-> k = (if String.eqb d "/" then "/" else d +:+ "/") +:+ name
      /\ name <> EmptyString /\ NodePath.has_sep name = false.
Proof.
  unfold Fs.entry_name. cbv zeta.
  set (pre := if String.eqb d "/" then "/" else d +:+ "/").
  split.
  - unfold startsWith. destruct (String.prefix pre k) eqn:Hp; [|discriminate].
    apply prefix_split in Hp.
    set (rest := String.substring _ _ k) in *.
    destruct (NodePath.split rest) as [|n [|? ?]] eqn:Es; try discriminate.
    apply split_single in Es as [<- Hs].
    destruct (String.eqb_spec rest EmptyString) as [|Hne]; [discriminate|].
    intros [= <-]. auto.
  - intros (-> & Hne & Hs). unfold startsWith. rewrite prefix_append.
    rewrite string_length_append, Nat.add_comm, Nat.add_sub.
    rewrite <- (append_nil_r name) at 2.
    rewrite substring_middle, (split_no_sep name Hs).
    destruct (String.eqb_spec name EmptyString); [contradiction | reflexivity].
Qed.

Lemma omap_entries_NoDup d (l : list (string * Fs.node)) :
  NoDup (map fst l) ->
  NoDup (map fst (omap (fun kv => match Fs.entry_name d (fst kv) with
                                  | Some n => Some (n, snd kv)
                                  | None => None
                                  end) l)).
Proof.
  induction l as [|[k v] l IH]; [constructor|].
  cbn [map fst]. intros H. apply NoDup_cons in H as [Hk Hl].
  change (omap ?g ((k, v) :: l))
    with (match g (k, v) with Some y => y :: omap g l | None => omap g l end).
  cbn [fst snd].
  destruct (Fs.entry_name d k) as [name|] eqn:En; [|exact (IH Hl)].
  cbn [map fst]. apply NoDup_cons. split; [|exact (IH Hl)].
  intros Hin. apply Hk.
  apply list_elem_of_In, in_map_iff in Hin as [[name' v'] [Hn Hin]].
  cbn [fst] in Hn. subst name'.
  apply list_elem_of_In, list_elem_of_omap in Hin as [[k' v''] [Hin Hf]].
  cbn [fst snd] in Hf.
  destruct (Fs.entry_name d k') as [name'|] eqn:En'; [|discriminate].
  injection Hf as -> ->.
  apply entry_name_iff in En as [-> _]. apply entry_name_iff in En' as [-> _].
  apply list_elem_of_In, in_map_iff. eexists. split; [|apply list_elem_of_In; exact Hin].
  reflexivity.
Qed.

Lemma readdir_directory p w :
  Fs.files w !! Fs.key w p = Some Fs.Dir ->
  exists entries,
    Fs.readdir p w = (inr entries, Fs.record (Fs.FsReaddir p) w)
    /\ NoDup (map fst entries)
    /\ forall name n,
         In (name, n) entries
         <-> Fs.files w !! ((if String.eqb (Fs.key w p) "/" then "/"
                             else Fs.key w p +:+ "/") +:+ name) = Some n
             /\ name <> EmptyString /\ NodePath.has_sep name = false.
Proof.
  intros H. unfold Fs.readdir. cbv zeta.
  cbn [Fs.files Fs.record]. change (Fs.key (Fs.record _ w) p) with (Fs.key w p).
  rewrite H. eexists. split; [reflexivity|]. split.
  { apply omap_entries_NoDup. apply (NoDup_fst_map_to_list (Fs.files w)). }
  intros name n. rewrite <- list_elem_of_In, list_elem_of_omap. split.
  - intros [[k n'] [Hin Hf]]. apply elem_of_map_to_list in Hin. cbn [fst snd] in Hf.
    destruct (Fs.entry_name (Fs.key w p) k) as [name'|] eqn:En; [|discriminate].
    injection Hf as -> ->. apply entry_name_iff in En as (-> & Hne & Hs). auto.
  - intros (Hl & Hne & Hs). eexists (_, n). split.
    + apply elem_of_map_to_list. exact Hl.
    + cbn [fst snd].
      rewrite (proj2 (entry_name_iff (Fs.key w p) _ name) (conj eq_refl (conj Hne Hs))).
      reflexivity.
Qed.

Lemma Forall2_map_eq {A B} (f : A -> B) l l' :
  Forall2 (fun a b => b = f a) l l' -> l' = map f l.
Proof. induction 1 as [|a b l l' -> _ IH]; [reflexivity|]. cbn. now rewrite IH. Qed.

(** X25: a listing of a directory without [detailed=true] is answered
    [200] with one entry for each file and directory one name below it and
    with nothing else, no name twice; each entry is exactly the name and
    [dir] or [file] as the type.  The order is that in which the directory
    is read. *)
Theorem get_ls_lists_children (cfg : Agent.config) (req : request) (w : Fs.world)
    (r : string) :
  authorization req = Some ("Bearer " +:+ Agent.AGENT_TOKEN cfg) ->
  Agent.safePath cfg (Fs.cwd w) (js_or (get_prop (query req) "path") (JStr ".")) = inr r ->
  Fs.files w !! Fs.key w r = Some Fs.Dir ->
  get_prop (query req) "detailed" <> JStr "true" ->
  exists entries : list (string * Fs.node),
    fst (Agent.get_ls cfg req w)
    = Response 200
        (JObj [("path", js_or (get_prop (query req) "path") (JStr "."));
               ("entries",
                JArr (map (fun entry : string * Fs.node =>
                             JObj [("name", JStr (fst entry));
                                   ("type", match snd entry with
                                            | Fs.Dir => JStr "dir"
                                            | Fs.File _ => JStr "file"
                                            end)])
                          entries))])
    /\ NoDup (map fst entries)
    /\ forall name n,
         In (name, n) entries
         <-> Fs.files w !! ((if String.eqb (Fs.key w r) "/" then "/"
                             else Fs.key w r +:+ "/") +:+ name) = Some n
             /\ name <> EmptyString /\ NodePath.has_sep name = false.
Proof.
  intros Ha Hs Hd Hplain.
  destruct (readdir_directory r _ Hd) as (entries & Er & Hnodup & Hentries).
  unfold Agent.get_ls. rewrite (assertAuth_accepts _ _ Ha). unfold Agent.guarded.
  cbv zeta.
  erewrite bind_inr by (unfold Agent.safePathM; rewrite Hs; reflexivity).
  erewrite bind_inr by (apply fileExists_present with (n := Fs.Dir); exact Hd).
  cbn [negb].
  erewrite bind_inr by (apply getFileStats_present with (n := Fs.Dir); exact Hd).
  erewrite bind_inr by reflexivity.
  cbn [Agent.stats_of Agent.isDirectory negb].
  assert (forall c1 c2,
             Fs.readdir r (Fs.record c2 (Fs.record c1 w))
             = (inr entries, Fs.record (Fs.FsReaddir r) (Fs.record c2 (Fs.record c1 w))))
    as Er'.
  { intros c1 c2. revert Er. unfold Fs.readdir. cbv zeta.
    cbn [Fs.files Fs.record]. unfold Fs.key. cbn [Fs.cwd Fs.record].
    destruct (Fs.files w !! NodePath.resolve (Fs.cwd w) [r]) as [[c|]|];
      try discriminate.
    intros [= <-]. reflexivity. }
  erewrite bind_inr by apply Er'.
  rewrite (strict_eq_str_false _ _ Hplain).
  set (item_of := fun entry : string * Fs.node =>
         JObj [("name", JStr (fst entry));
               ("type", match snd entry with
                        | Fs.Dir => JStr "dir"
                        | Fs.File _ => JStr "file"
                        end)]).
  match goal with
  | |- context [Agent.mapM ?f entries] =>
      pose proof (mapM_reads f
        (fun (_ : gmap string Fs.node) (_ : string) entry item => item = item_of entry))
        as Hm
  end.
  match type of Hm with
  | ?P -> _ => assert P as Helem
  end.
  { clear. cbv beta. intros [name n] w. subst item_of. cbn [fst snd].
    eexists; eexists; split; [reflexivity|]. repeat split;
      try (destruct n; reflexivity). }
  destruct (Hm Helem entries
              (Fs.record (Fs.FsReaddir r)
                 (Fs.record (Fs.FsStat r) (Fs.record (Fs.FsAccess r) w))))
    as (items & w' & Em & _ & _ & HR).
  erewrite bind_inr by exact Em.
  apply Forall2_map_eq in HR. subst items.
  exists entries. split; [reflexivity|]. split; [exact Hnodup | exact Hentries].
Qed.

Lemma get_ls_lists_children_witness :
  exists entries : list (string * Fs.node),
    fst (Agent.get_ls cfg_cs req_ls_root world_cs)
    = Response 200
        (JObj [("path", js_or (get_prop (query req_ls_root) "path") (JStr "."));
               ("entries",
                JArr (map (fun entry : string * Fs.node =>
                             JObj [("name", JStr (fst entry));
                                   ("type", match snd entry with
                                            | Fs.Dir => JStr "dir"
                                            | Fs.File _ => JStr "file"
                                            end)])
                          entries))])
    /\ NoDup (map fst entries)
    /\ forall name n,
         In (name, n) entries
         <-> Fs.files world_cs
               !! ((if String.eqb (Fs.key world_cs "/workspaces/codespaces-blank") "/"
                    then "/"
                    else Fs.key world_cs "/workspaces/codespaces-blank" +:+ "/")
                   +:+ name) = Some n
             /\ name <> EmptyString /\ NodePath.has_sep name = false.
Proof.
  apply (get_ls_lists_children cfg_cs req_ls_root world_cs
           "/workspaces/codespaces-blank"); try reflexivity.
  discriminate.
Defined.

(** ** The working directory the agent serves *)

Lemma list_ascii_append (a b : string) :
  list_ascii_of_string (a +:+ b) = list_ascii_of_string a ++ list_ascii_of_string b.
Proof.
  induction a as [|c a IH]; [reflexivity|].
  change (String c a +:+ b) with (String c (a +:+ b)). cbn. now rewrite IH.
Qed.

Lemma string_of_list_app (a b : list ascii) :
  string_of_list_ascii (a ++ b) = string_of_list_ascii a +:+ string_of_list_ascii b.
Proof.
  induction a as [|c a IH]; [reflexivity|].
  cbn [app string_of_list_ascii].
  change (String c ?x +:+ ?y) with (String c (x +:+ y)). now rewrite IH.
Qed.

Lemma prefix_weaken (a b c : string) :
  String.prefix a b = true -> String.prefix a (b +:+ c) = true.
Proof.
  revert b. induction a as [|x a IH]; intros b H; [apply prefix_nil|].
  destruct b as [|y b]; [discriminate|].
  change (String y b +:+ c) with (String y (b +:+ c)).
  rewrite prefix_cons in *. destruct (ascii_dec x y); [apply IH, H | discriminate].
Qed.

Lemma endsWith_append (a b t : string) : endsWith b t = true -> endsWith (a +:+ b) t = true.
Proof.
  unfold endsWith. intros H.
  rewrite list_ascii_append, rev_app_distr, string_of_list_app.
  apply prefix_weaken, H.
Qed.

Lemma has_sep_chars x :
  NodePath.has_sep x = false ->
  Forall (fun c => NodePath.is_sep c = false) (list_ascii_of_string x).
Proof.
  induction x as [|c x IH]; [constructor|].
  cbn [NodePath.has_sep list_ascii_of_string]. intros H.
  apply orb_false_elim in H as [Hc Hx]. constructor; [exact Hc | exact (IH Hx)].
Qed.

Lemma drop_nonseps_app (l rest : list ascii) :
  Forall (fun c => NodePath.is_sep c = false) l ->
  NodePath.drop_nonseps (l ++ "/"%char :: rest) = "/"%char :: rest.
Proof.
  induction 1 as [|c l Hc _ IH]; [reflexivity|].
  cbn [app NodePath.drop_nonseps]. rewrite Hc. exact IH.
Qed.

Lemma drop_seps_nonsep (l : list ascii) rest :
  l <> [] -> Forall (fun c => NodePath.is_sep c = false) l ->
  NodePath.drop_seps (l ++ rest) = l ++ rest.
Proof.
  intros Hne H. destruct H as [|c l Hc _]; [contradiction|].
  cbn [app NodePath.drop_seps]. now rewrite Hc.
Qed.

(** [path.dirname] of a name directly below a directory is that directory. *)
Lemma dirname_child (d x : string) :
  d <> EmptyString -> d <> "/" ->
  x <> EmptyString -> NodePath.has_sep x = false ->
  NodePath.dirname (d +:+ "/" +:+ x) = d.
Proof.
  intros Hd Hroot Hx Hs. unfold NodePath.dirname.
  destruct d as [|c0 tail]; [contradiction|].
  change (String c0 tail +:+ "/" +:+ x) with (String c0 (tail +:+ "/" +:+ x)).
  cbn [list_ascii_of_string]. rewrite list_ascii_append.
  change (list_ascii_of_string ("/" +:+ x)) with ("/"%char :: list_ascii_of_string x).
  rewrite rev_app_distr. cbn [rev]. rewrite <- app_assoc. cbn [app].
  pose proof (has_sep_chars x Hs) as Hchars.
  assert (list_ascii_of_string x <> []) as Hne by (destruct x; [contradiction | discriminate]).
  assert (rev (list_ascii_of_string x) <> []) as Hne'
    by (intros E; apply Hne; rewrite <- (rev_involutive (list_ascii_of_string x)), E;
        reflexivity).
  assert (Forall (fun c => NodePath.is_sep c = false) (rev (list_ascii_of_string x)))
    as Hrev by (apply List.Forall_rev, Hchars).
  rewrite (drop_seps_nonsep _ _ Hne' Hrev), (drop_nonseps_app _ _ Hrev).
  rewrite rev_involutive, length_rev.
  destruct (NodePath.is_sep c0) eqn:Hc0; cbn [andb].
  - destruct (list_ascii_of_string tail) as [|t ts] eqn:Et.
    + exfalso. apply Hroot.
      assert (tail = EmptyString) as ->
        by (rewrite <- (string_of_list_ascii_of_string tail), Et; reflexivity).
      unfold NodePath.is_sep in Hc0. apply Ascii.eqb_eq in Hc0. now subst.
    + cbn [length Nat.eqb]. rewrite <- Et.
      cbn [string_of_list_ascii]. now rewrite string_of_list_ascii_of_string.
  - cbn [string_of_list_ascii]. now rewrite string_of_list_ascii_of_string.
Qed.

(** X26: when [WORKDIR] is not set, an agent started in a directory whose
    name ends in [.codespace-agent] serves the directory above it; started
    anywhere else it serves the directory it was started in, whether or not
    a [.codespace-agent] directory exists there.  No file is changed. *)
Theorem determineWorkdir_result (w : Fs.world) :
  (forall d x,
      Fs.cwd w = d +:+ "/" +:+ x ->
      d <> EmptyString -> d <> "/" -> NodePath.has_sep x = false ->
      endsWith x ".codespace-agent" = true ->
      fst (Agent.determineWorkdir None w) = inr d)
  /\ (endsWith (Fs.cwd w) ".codespace-agent" = false ->
      NodePath.basename (Fs.cwd w) <> ".codespace-agent" ->
      fst (Agent.determineWorkdir None w) = inr (Fs.cwd w))
  /\ Fs.files (snd (Agent.determineWorkdir None w)) = Fs.files w.
Proof.
  unfold Agent.determineWorkdir. cbv zeta. split; [|split].
  - intros d x Hcwd Hd Hroot Hs He.
    assert (x <> EmptyString) as Hx by (intros ->; discriminate He).
    rewrite Hcwd.
    rewrite <- append_assoc, (endsWith_append (d +:+ "/") x _ He), append_assoc.
    cbn [orb Fs.ret fst]. now rewrite dirname_child.
  - intros He Hb. rewrite He. cbn [orb].
    destruct (String.eqb_spec (NodePath.basename (Fs.cwd w)) ".codespace-agent");
      [contradiction|].
    unfold Fs.try_catch, Fs.bind, Fs.access. cbv zeta.
    destruct (Fs.files _ !! _); reflexivity.
  - destruct (_ || _); [reflexivity|].
    unfold Fs.try_catch, Fs.bind, Fs.access. cbv zeta.
    destruct (Fs.files _ !! _); reflexivity.
Qed.

Lemma determineWorkdir_result_witness :
  fst (Agent.determineWorkdir None world_cs) = inr (Agent.WORKDIR cfg_cs)
  /\ fst (Agent.determineWorkdir None
            (Fs.World files_cs "/workspaces/codespaces-blank" []))
     = inr "/workspaces/codespaces-blank".
Proof.
  split.
  - apply (proj1 (determineWorkdir_result world_cs)
             "/workspaces/codespaces-blank" ".codespace-agent");
      try reflexivity; discriminate.
  - apply (proj1 (proj2 (determineWorkdir_result
                           (Fs.World files_cs "/workspaces/codespaces-blank" []))));
      [reflexivity | discriminate].
Defined.

(** ** Shell commands *)

(** X30: when the command of a streamed request cannot be started, the
    answer is a [500] whose [error] is [undefined]: the promise rejects
    with a plain object, which has no [message], and the message of the
    spawn error is lost. *)
Theorem stream_spawn_failure_loses_message (req : request)
    (b : ChildProcess.behaviour) (c msg : string) :
  get_prop (body req) "command" = JStr c ->
  c <> EmptyString ->
  truthy (get_prop (body req) "stream") = true ->
  Server.cwd_option (get_prop (body req) "cwd") <> None ->
  ChildProcess.spawn_error b = Some msg ->
  fst (Server.post_shell req b) = Some (Server.failure 500 JUndefined).
Proof.
  intros Hc Hne Hst Hcwd Hsp.
  unfold Server.post_shell.
  destruct (body req) as [| |bb|? ? ?|sb|ab|props]; try discriminate Hc.
  cbv zeta. rewrite Hc, Hst. cbn [truthy].
  destruct (String.eqb_spec c EmptyString) as [|_]; [contradiction|].
  cbn [negb].
  destruct (Server.cwd_option _) as [cwd|]; [|contradiction].
  unfold ProjectManager.runCommandStream, ChildProcess.run. rewrite Hsp.
  reflexivity.
Qed.

Lemma stream_spawn_failure_loses_message_witness :
  fst (Server.post_shell req_shell_stream_sleep behaviour_no_cwd)
  = Some (Server.failure 500 JUndefined).
Proof.
  apply (stream_spawn_failure_loses_message req_shell_stream_sleep behaviour_no_cwd
           "sleep 60" "spawn /bin/sh ENOENT"); try reflexivity; discriminate.
Defined.

(** ** The credential, the sandbox and the paths of the agent, at a request *)

(** X27: each handler of the agent but the health check, run for a request
    whose [Authorization] header is not exactly [Bearer <token>], answers
    [401] with [{"error": "Unauthorized"}] and asks nothing of the
    filesystem: the files, the working directory and the calls are as
    before. *)
Theorem handlers_require_credential (cfg : Agent.config) (req : request)
    (w : Fs.world) :
  authorization req <> Some ("Bearer " +:+ Agent.AGENT_TOKEN cfg) ->
  Forall (fun h : request -> Fs.world -> response * Fs.world =>
            h req w = (Response 401 (JObj [("error", JStr "Unauthorized")]), w))
    [Agent.get_files cfg; Agent.post_files cfg; Agent.put_files cfg;
     Agent.delete_files cfg; Agent.get_ls cfg; Agent.post_mkdir cfg;
     Agent.get_stat cfg; Agent.get_search cfg].
Proof.
  intros H. pose proof (assertAuth_rejects cfg req H) as E.
  repeat constructor;
    unfold Agent.get_files, Agent.post_files, Agent.put_files, Agent.delete_files,
      Agent.get_ls, Agent.post_mkdir, Agent.get_stat, Agent.get_search;
    rewrite E; reflexivity.
Qed.

Lemma handlers_require_credential_witness :
  Forall (fun h : request -> Fs.world -> response * Fs.world =>
            h req_get_wrong_token world_cs
            = (Response 401 (JObj [("error", JStr "Unauthorized")]), world_cs))
    [Agent.get_files cfg_cs; Agent.post_files cfg_cs; Agent.put_files cfg_cs;
     Agent.delete_files cfg_cs; Agent.get_ls cfg_cs; Agent.post_mkdir cfg_cs;
     Agent.get_stat cfg_cs; Agent.get_search cfg_cs].
Proof.
  apply (handlers_require_credential cfg_cs req_get_wrong_token world_cs).
  discriminate.
Defined.


Lemma agent_sandbox_first_witness :
  Agent.get_files cfg_cs req_get_escape world_cs
  = (Response 400 (JObj [("error", JStr "Invalid path: outside working directory")]),
     world_cs).
Proof.
  apply (proj1 (agent_sandbox_first cfg_cs req_get_escape world_cs
                  (Fs.Error EmptyString "Invalid path: outside working directory")
                  eq_refl)).
  reflexivity.
Defined.

Lemma agent_touches_resolved_witness :
  exists cs,
    Fs.calls (snd (Agent.get_files cfg_cs req_get_app world_cs))
    = Fs.calls world_cs ++ cs
    /\ Forall (fun c => Fs.call_path c = "/workspaces/codespaces-blank/src/app.js") cs.
Proof.
  apply (proj1 (agent_touches_resolved cfg_cs req_get_app world_cs
                  "/workspaces/codespaces-blank/src/app.js" eq_refl)).
  reflexivity.
Defined.

Lemma on_sigterm_kills_registered_witness :
  In (Agent.ShellKill 7) (Agent.on_sigterm (<["k3x9qf" := 7]> no_sessions)).
Proof.
  apply (proj2 (on_sigterm_kills_registered (<["k3x9qf" := 7]> no_sessions)
                  (Agent.ShellKill 7))).
  exists "k3x9qf", 7. split; [apply lookup_insert_eq | reflexivity].
Defined.
